(** * Toxicity scoring and aggregation: a shallow embedding

    The development follows [src/models/classifier.py] (class
    [ToxicityClassifier]) and [src/analytics/analytics.py] (class
    [ToxicityPredictor]).

    Conventions of the embedding.
    - A Python [str] is a list of Unicode code points ([str]); whitespace is
      the set recognised by [str.isspace], which [str.split()] and
      [str.strip()] use.
    - A Python [int] is a [Z].
    - A Python [float] is [pyfloat]: either [NaN] or a finite value carried
      as a rational.  The double arithmetic of the statistics (the
      division, the product, the sum of two percentages, the double that
      [round] returns) is rounded to binary64 by [fl64].  [np.mean] over
      the float32 probabilities is carried as the exact mean, numpy's
      float32 summation being outside the model, and [round(score, 3)] as
      the exact decimal.
    - An exception is a value of [Exn]; code that may raise returns a
      [result].
    - A Python [dict] is an insertion-ordered association list with unique
      keys ([dict]).
    - Code that talks to MongoDB, the clock or the terminal runs in a state
      monad over [World], which holds the three collections, the answers
      the store will give to the coming [insert_one] calls, the clock, what
      was printed and the texts handed to the classifier. *)

From Stdlib Require Import List ZArith QArith Qround Qabs Qpower Lia Lqa Bool.
From Stdlib Require Import String Ascii Permutation Sorted.
Import ListNotations.

Local Open Scope Z_scope.

(* ------------------------------------------------------------------ *)
(** ** Python values *)

Definition char := N.
Definition str := list char.

(** An ASCII literal of the source as a [str]. *)
Definition lit (s : string) : str :=
  List.map N_of_ascii (list_ascii_of_string s).

Definition str_eqb (a b : str) : bool :=
  if list_eq_dec N.eq_dec a b then true else false.

Inductive Exn : Type :=
| ValueError_range_step      (* range() arg 3 must not be zero *)
| ValueError_max_empty       (* max() arg is an empty sequence *)
| IndexError
| KeyError (k : str)
| ExternalError (code : nat). (* raised by a collaborator: model runtime, pymongo *)

Inductive result (A : Type) : Type :=
| Ok (a : A)
| Raise (e : Exn).
Arguments Ok {A} a.
Arguments Raise {A} e.

Definition rbind {A B} (r : result A) (k : A -> result B) : result B :=
  match r with
  | Ok a => k a
  | Raise e => Raise e
  end.

Declare Scope result_scope.
Delimit Scope result_scope with result.
Notation "x <- c ;; k" := (rbind c (fun x => k))
  (at level 61, c at next level, right associativity) : result_scope.

(** A list comprehension whose element expression may raise: elements are
    evaluated left to right and the first exception escapes. *)
Fixpoint mapM {A B} (f : A -> result B) (l : list A) : result (list B) :=
  match l with
  | [] => Ok []
  | x :: l' =>
      (y <- f x ;;
       ys <- mapM f l' ;;
       Ok (y :: ys))%result
  end.

(** [l[i]] for a list or a one-dimensional array and [i >= 0]. *)
Definition index {A} (l : list A) (i : nat) : result A :=
  match nth_error l i with
  | Some x => Ok x
  | None => Raise IndexError
  end.

(* ------------------------------------------------------------------ *)
(** ** Strings: [isspace], [split], [strip], [join] *)

(** [str.isspace] on one code point. *)
Definition isspace (c : char) : bool :=
  ((9 <=? c) && (c <=? 13) || (28 <=? c) && (c <=? 32)
   || (c =? 133) || (c =? 160) || (c =? 5760)
   || (8192 <=? c) && (c <=? 8202)
   || (c =? 8232) || (c =? 8233) || (c =? 8239) || (c =? 8287)
   || (c =? 12288))%N.

Definition space : str := [32%N].

(** [text.split()]: scan left to right, [word] is the word being read. *)
Fixpoint split_from (word : str) (s : str) : list str :=
  match s with
  | [] => match word with [] => [] | _ => [word] end
  | c :: s' =>
      if isspace c then
        match word with
        | [] => split_from [] s'
        | _ => word :: split_from [] s'
        end
      else split_from (word ++ [c]) s'
  end.

Definition split (s : str) : list str := split_from [] s.

Fixpoint lstrip (s : str) : str :=
  match s with
  | c :: s' => if isspace c then lstrip s' else s
  | [] => []
  end.

Definition strip (s : str) : str := rev (lstrip (rev (lstrip s))).

(** [sep.join(l)]. *)
Fixpoint join (sep : str) (l : list str) : str :=
  match l with
  | [] => []
  | [w] => w
  | w :: l' => w ++ sep ++ join sep l'
  end.

(** Truthiness of [not text or not text.strip()]. *)
Definition is_blank (text : str) : bool :=
  match text with
  | [] => true
  | _ => match strip text with [] => true | _ => false end
  end.

(* ------------------------------------------------------------------ *)
(** ** [range] and slices *)

Fixpoint range_up (fuel : nat) (i stop step : Z) : list Z :=
  match fuel with
  | O => []
  | S f => if i <? stop then i :: range_up f (i + step) stop step else []
  end.

Fixpoint range_down (fuel : nat) (i stop step : Z) : list Z :=
  match fuel with
  | O => []
  | S f => if stop <? i then i :: range_down f (i + step) stop step else []
  end.

(** [range(start, stop, step)] as the list it iterates over. *)
Definition py_range (start stop step : Z) : result (list Z) :=
  if step =? 0 then Raise ValueError_range_step
  else if 0 <? step then Ok (range_up (Z.to_nat (stop - start)) start stop step)
  else Ok (range_down (Z.to_nat (start - stop)) start stop step).

(** A slice bound brought into [0 .. len]. *)
Definition clamp (len i : Z) : Z :=
  if i <? 0 then Z.max 0 (i + len) else Z.min i len.

(** [l[i:j]]. *)
Definition slice {A} (l : list A) (i j : Z) : list A :=
  let len := Z.of_nat (List.length l) in
  let a := clamp len i in
  let b := clamp len j in
  firstn (Z.to_nat (b - a)) (skipn (Z.to_nat a) l).

(* ------------------------------------------------------------------ *)
(** ** [ToxicityClassifier._split_text] *)

Definition _split_text (text : str) (max_words : Z) : result (list str) :=
  let words := split text in
  (idx <- py_range 0 (Z.of_nat (List.length words)) max_words ;;
   Ok (List.map (fun i => join space (slice words i (i + max_words))) idx))%result.

(* ------------------------------------------------------------------ *)
(** ** Floats *)

Inductive pyfloat : Type :=
| NaN
| Fin (q : Q).

(** [a > b] and [a >= b]; every comparison with [NaN] is false. *)
Definition pf_gt (a b : pyfloat) : bool :=
  match a, b with
  | Fin x, Fin y => negb (Qle_bool x y)
  | _, _ => false
  end.

Definition pf_ge (a b : pyfloat) : bool :=
  match a, b with
  | Fin x, Fin y => Qle_bool y x
  | _, _ => false
  end.

Definition Qsum (l : list Q) : Q := fold_right Qplus 0%Q l.

(** [float(np.mean(l))]; the mean of an empty slice is [nan].  The value
    carried is the exact mean; numpy takes the sum in float32, which may
    differ from it in the last place. *)
Definition np_mean (l : list Q) : pyfloat :=
  match l with
  | [] => NaN
  | _ => Fin (Qsum l / inject_Z (Z.of_nat (List.length l)))
  end.

(** The integer nearest to [q], ties going to the even one. *)
Definition round_half_even (q : Q) : Z :=
  let f := Qfloor q in
  match Qcompare (q - inject_Z f) (1 # 2) with
  | Lt => f
  | Gt => f + 1
  | Eq => if Z.even f then f else f + 1
  end.

(** [round(q, ndigits)] on a finite value. *)
Definition Qround_digits (q : Q) (ndigits : nat) : Q :=
  let p := Pos.pow 10 (Pos.of_nat ndigits) in
  match ndigits with
  | O => inject_Z (round_half_even q)
  | _ => Qmake (round_half_even (q * inject_Z (Zpos p))) p
  end.

Definition py_round (x : pyfloat) (ndigits : nat) : pyfloat :=
  match x with
  | NaN => NaN
  | Fin q => Fin (Qround_digits q ndigits)
  end.

(** The exponent of a non-zero [q]: the [e] with [2^e <= |q| < 2^(e+1)]. *)
Definition binade (q : Q) : Z :=
  let e := Z.log2 (Z.abs (Qnum q)) - Z.log2 (Zpos (Qden q)) in
  if Qle_bool (2 ^ e) (Qabs q) then e else e - 1.

(** The double nearest to [q], ties going to the even significand: 53
    significant bits, a spacing that never goes below [2^-1074].  Overflow
    is left out: the values rounded below are percentages and sums of two
    percentages. *)
Definition fl64 (q : Q) : Q :=
  if Qeq_bool q 0 then 0%Q
  else
    let ulp := (2 ^ Z.max (binade q - 52) (-1074))%Q in
    Qred (inject_Z (round_half_even (q / ulp)) * ulp).

(** [max(l)]: the first of the largest elements, by a left-to-right scan
    that replaces the running best only by a strictly greater item. *)
Definition max_step (best y : pyfloat) : pyfloat :=
  if pf_gt y best then y else best.

Definition py_max (l : list pyfloat) : result pyfloat :=
  match l with
  | [] => Raise ValueError_max_empty
  | x :: l' => Ok (fold_left max_step l' x)
  end.

(* ------------------------------------------------------------------ *)
(** ** Dictionaries *)

Definition dict (V : Type) := list (str * V).

Fixpoint dict_get {V} (d : dict V) (k : str) : option V :=
  match d with
  | [] => None
  | (k', v) :: d' => if str_eqb k' k then Some v else dict_get d' k
  end.

(** [d[k]]. *)
Definition getitem {V} (d : dict V) (k : str) : result V :=
  match dict_get d k with
  | Some v => Ok v
  | None => Raise (KeyError k)
  end.

(** [d[k] = v]: an existing key keeps its place, a new one goes last. *)
Fixpoint dict_set {V} (d : dict V) (k : str) (v : V) : dict V :=
  match d with
  | [] => [(k, v)]
  | (k', v') :: d' =>
      if str_eqb k' k then (k', v) :: d' else (k', v') :: dict_set d' k v
  end.

(** [d[k] += n]. *)
Definition dict_add (d : dict Z) (k : str) (n : Z) : result (dict Z) :=
  (v <- getitem d k ;; Ok (dict_set d k (v + n)))%result.

(* ------------------------------------------------------------------ *)
(** ** [ToxicityClassifier] *)

(** Module-level configuration read from the environment. *)
Record Config : Type := {
  THRESHOLD_SLIGHTLY_TOXIC : Q;
  THRESHOLD_VERY_TOXIC : Q;
  ARTICLE_THRESHOLD : Q
}.

Definition default_config : Config := {|
  THRESHOLD_SLIGHTLY_TOXIC := 3 # 10;
  THRESHOLD_VERY_TOXIC := 65 # 100;
  ARTICLE_THRESHOLD := 1 # 2
|}.

(** The state of [self] once [__init__] has run.  [id2label] has the keys
    [0 .. n-1] and is kept as the list of its values; [_predict_raw] is the
    model call: a batch of texts in, one row of probabilities per text out,
    or an exception. *)
Record ToxicityClassifier : Type := {
  id2label : list str;
  toxic_labels : list nat;
  _predict_raw : list str -> result (list (list Q))
}.

Record Prediction : Type := {
  prediction : str;
  confidence : pyfloat;
  toxicity_level : str;
  per_label : dict pyfloat
}.

(** [[self._predict_raw([seg])[0] for seg in segments]] *)
Definition segment_probs_of (clf : ToxicityClassifier) (segments : list str)
  : result (list (list Q)) :=
  mapM (fun seg => (rows <- _predict_raw clf [seg] ;; index rows 0)%result) segments.

(** [float(np.mean([seg[i] for i in self.toxic_labels]))] *)
Definition segment_toxic_score (clf : ToxicityClassifier) (seg : list Q)
  : result pyfloat :=
  (vals <- mapM (index seg) (toxic_labels clf) ;; Ok (np_mean vals))%result.

(** [max([... for seg in segment_probs])] *)
Definition toxic_score_of (clf : ToxicityClassifier) (segment_probs : list (list Q))
  : result pyfloat :=
  (scores <- mapM (segment_toxic_score clf) segment_probs ;; py_max scores)%result.

Definition level_of (cfg : Config) (toxic_score : pyfloat) : str :=
  if pf_ge toxic_score (Fin (THRESHOLD_VERY_TOXIC cfg)) then lit "very_toxic"
  else if pf_ge toxic_score (Fin (THRESHOLD_SLIGHTLY_TOXIC cfg)) then lit "slightly_toxic"
  else lit "non_toxic".

Definition prediction_of (cfg : Config) (toxic_score : pyfloat) : str :=
  if pf_ge toxic_score (Fin (ARTICLE_THRESHOLD cfg)) then lit "toxic"
  else lit "non_toxic".

(** The dict comprehension over [range(len(self.id2label))]. *)
Fixpoint per_label_from (clf : ToxicityClassifier) (segment_probs : list (list Q))
  (ids : list nat) (acc : dict pyfloat) : result (dict pyfloat) :=
  match ids with
  | [] => Ok acc
  | i :: ids' =>
      (name <- index (id2label clf) i ;;
       col <- mapM (fun seg => index seg i) segment_probs ;;
       per_label_from clf segment_probs ids'
         (dict_set acc name (py_round (np_mean col) 3)))%result
  end.

Definition per_label_of (clf : ToxicityClassifier) (segment_probs : list (list Q))
  : result (dict pyfloat) :=
  per_label_from clf segment_probs (seq 0 (List.length (id2label clf))) [].

(** The document toxic score [predict] computes for [text] (lines 64-68). *)
Definition document_toxic_score (clf : ToxicityClassifier) (text : str)
  : result pyfloat :=
  (segments <- _split_text text 100 ;;
   segment_probs <- segment_probs_of clf segments ;;
   toxic_score_of clf segment_probs)%result.

Definition predict (cfg : Config) (clf : ToxicityClassifier) (text : str)
  : result Prediction :=
  (segments <- _split_text text 100 ;;
   segment_probs <- segment_probs_of clf segments ;;
   toxic_score <- toxic_score_of clf segment_probs ;;
   let level := level_of cfg toxic_score in
   let prediction := prediction_of cfg toxic_score in
   per_label <- per_label_of clf segment_probs ;;
   Ok {| prediction := prediction;
         confidence := py_round toxic_score 3;
         toxicity_level := level;
         per_label := per_label |})%result.

(* ------------------------------------------------------------------ *)
(** ** The world of [ToxicityPredictor] *)

(** A document of the [articles] collection; a field the document lacks
    is [None]. *)
Record Article : Type := {
  a_id : option nat;
  a_url : option str;
  a_title : option str;
  a_content : option str;
  a_site : option str
}.

(** [article.get(key, "")] *)
Definition get_or_empty (field : option str) : str :=
  match field with
  | Some s => s
  | None => []
  end.

(** A document of the [predictions] collection.  [predict_text] writes
    neither [site], [title] nor [article_id]. *)
Record PredictionDoc : Type := {
  d_url : option str;
  d_site : option str;
  d_title : option str;
  d_text : str;
  d_prediction : str;
  d_confidence : pyfloat;
  d_toxicity_level : str;
  d_predicted_at : nat;
  d_article_id : option nat;
  d_id : option nat
}.

Definition with_id (d : PredictionDoc) (i : nat) : PredictionDoc := {|
  d_url := d_url d; d_site := d_site d; d_title := d_title d;
  d_text := d_text d; d_prediction := d_prediction d;
  d_confidence := d_confidence d; d_toxicity_level := d_toxicity_level d;
  d_predicted_at := d_predicted_at d; d_article_id := d_article_id d;
  d_id := Some i
|}.

Record SiteStats : Type := {
  total_articles : Z;
  non_toxic_count : Z;
  slightly_toxic_count : Z;
  very_toxic_count : Z;
  non_toxic_pct : Q;
  slightly_toxic_pct : Q;
  very_toxic_pct : Q
}.

Record StatisticsDoc : Type := {
  computed_at : nat;
  statistics_of : dict SiteStats
}.

(** What the program prints: one constructor per line, or per block of
    lines printed together (banner, table header, summary). *)
Inductive Printed : Type :=
| PBanner
| PNoArticles
| PTotal (total : nat)
| PSkip (i total : nat) (url : str)
| PAnalyse (i total : nat) (title : str)
| PResult (prediction : str) (confidence : pyfloat) (level : str)
| PError (e : Exn)
| PSummary (processed success errors non_toxic slightly_toxic very_toxic : Z)
| PStatsSaved
| PStatsSaveError (e : Exn)
| PNoStatistics
| PTableHeader
| PRow (site : str) (data : SiteStats)
| PTableEnd
| PMostToxic (site : str) (total_toxic non_toxic : Q).

(** [faults] holds the answer of the store to each coming [insert_one]:
    [Some e] makes the call raise [e] (a duplicate key under the unique
    index on [url], a lost connection), [None] lets it through; past the
    end of the list every call goes through. *)
Record World : Type := {
  articles : list Article;
  predictions : list PredictionDoc;
  statistics : list StatisticsDoc;
  faults : list (option Exn);
  clock : nat;
  classifier_calls : list str;
  stdout : list Printed
}.

(** *** A state monad with exceptions *)

Definition M (S A : Type) : Type := S -> S * result A.

Definition ret {S A} (a : A) : M S A := fun s => (s, Ok a).

Definition bind {S A B} (c : M S A) (k : A -> M S B) : M S B :=
  fun s =>
    match c s with
    | (s', Ok a) => k a s'
    | (s', Raise e) => (s', Raise e)
    end.

Definition raise {S A} (e : Exn) : M S A := fun s => (s, Raise e).

(** [try: body except Exception as e: handler e]; what [body] did to the
    state before raising stays done. *)
Definition try_except {S A} (body : M S A) (handler : Exn -> M S A) : M S A :=
  fun s =>
    match body s with
    | (s', Ok a) => (s', Ok a)
    | (s', Raise e) => handler e s'
    end.

Definition lift {S A} (r : result A) : M S A := fun s => (s, r).

Definition gets {S A} (f : S -> A) : M S A := fun s => (s, Ok (f s)).

Definition modify {S} (f : S -> S) : M S unit := fun s => (f s, Ok tt).

Declare Scope monad_scope.
Delimit Scope monad_scope with M.
Notation "x <- c ;; k" := (bind c (fun x => k))
  (at level 61, c at next level, right associativity) : monad_scope.
Notation "c ;; k" := (bind c (fun _ => k))
  (at level 61, right associativity) : monad_scope.

(** [for x in l: body x] *)
Fixpoint for_each {S A} (l : list A) (body : A -> M S unit) : M S unit :=
  match l with
  | [] => ret tt
  | x :: l' => (body x ;; for_each l' body)%M
  end.

(** *** Primitive actions on the world *)

Definition set_stdout (w : World) (o : list Printed) : World := {|
  articles := articles w; predictions := predictions w;
  statistics := statistics w; faults := faults w; clock := clock w;
  classifier_calls := classifier_calls w; stdout := o
|}.

Definition set_clock (w : World) (t : nat) : World := {|
  articles := articles w; predictions := predictions w;
  statistics := statistics w; faults := faults w; clock := t;
  classifier_calls := classifier_calls w; stdout := stdout w
|}.

Definition set_classifier_calls (w : World) (c : list str) : World := {|
  articles := articles w; predictions := predictions w;
  statistics := statistics w; faults := faults w; clock := clock w;
  classifier_calls := c; stdout := stdout w
|}.

Definition set_faults (w : World) (f : list (option Exn)) : World := {|
  articles := articles w; predictions := predictions w;
  statistics := statistics w; faults := f; clock := clock w;
  classifier_calls := classifier_calls w; stdout := stdout w
|}.

Definition set_predictions (w : World) (p : list PredictionDoc) : World := {|
  articles := articles w; predictions := p;
  statistics := statistics w; faults := faults w; clock := clock w;
  classifier_calls := classifier_calls w; stdout := stdout w
|}.

Definition set_statistics (w : World) (s : list StatisticsDoc) : World := {|
  articles := articles w; predictions := predictions w;
  statistics := s; faults := faults w; clock := clock w;
  classifier_calls := classifier_calls w; stdout := stdout w
|}.

Definition print (p : Printed) : M World unit :=
  modify (fun w => set_stdout w (stdout w ++ [p])).

(** [datetime.now(timezone.utc)]: the clock is read and moves on. *)
Definition datetime_now : M World nat :=
  fun w => (set_clock w (S (clock w)), Ok (clock w)).

(** The answer of the store to the next [insert_one]. *)
Definition next_fault : M World (option Exn) :=
  fun w =>
    match faults w with
    | [] => (w, Ok None)
    | f :: rest => (set_faults w rest, Ok f)
    end.

(** The [_id] that [insert_one] puts on a dictionary that has none, before
    the document is sent to the store. *)
Definition next_object_id (w : World) : nat := List.length (predictions w).

(** [self.predictions.insert_one(doc)]; returns the [inserted_id]. *)
Definition insert_prediction (doc : PredictionDoc) : M World nat :=
  (f <- next_fault ;;
   match f with
   | Some e => raise e
   | None =>
       i <- gets (fun w => List.length (predictions w)) ;;
       modify (fun w => set_predictions w (predictions w ++ [with_id doc i])) ;;
       ret i
   end)%M.

(** [self.db["statistics"].insert_one(doc)] *)
Definition insert_statistics (doc : StatisticsDoc) : M World unit :=
  (f <- next_fault ;;
   match f with
   | Some e => raise e
   | None => modify (fun w => set_statistics w (statistics w ++ [doc]))
   end)%M.

(** [self.classifier.predict(text)]: the call is recorded, its result or
    exception is that of [predict]. *)
Definition classifier_predict (cfg : Config) (clf : ToxicityClassifier) (text : str)
  : M World Prediction :=
  (modify (fun w => set_classifier_calls w (classifier_calls w ++ [text])) ;;
   lift (predict cfg clf text))%M.

(* ------------------------------------------------------------------ *)
(** ** [ToxicityPredictor.predict_text] *)

(** The three dictionaries [predict_text] can return. *)
Inductive PredictTextResult : Type :=
| EmptyTextError                               (* error, prediction: None *)
| Stored (doc : PredictionDoc)                 (* success: True *)
| StoreFailed (e : Exn) (doc : PredictionDoc). (* success: False, error *)

(** The value under the key ["prediction"]. *)
Definition prediction_payload (r : PredictTextResult) : option PredictionDoc :=
  match r with
  | EmptyTextError => None
  | Stored doc => Some doc
  | StoreFailed _ doc => Some doc
  end.

Definition predict_text (cfg : Config) (clf : ToxicityClassifier)
  (text : str) (url : option str) : M World PredictTextResult :=
  if is_blank text then ret EmptyTextError
  else
    (result <- classifier_predict cfg clf text ;;
     now <- datetime_now ;;
     let prediction_doc := {|
       d_url := url; d_site := None; d_title := None;
       d_text := firstn 1000 text;
       d_prediction := prediction result;
       d_confidence := confidence result;
       d_toxicity_level := toxicity_level result;
       d_predicted_at := now;
       d_article_id := None; d_id := None |} in
     (* [insert_one] works on the caller's dictionary: the [_id] is on
        [prediction_doc] whether or not the store then accepts it *)
     oid <- gets next_object_id ;;
     try_except
       (inserted_id <- insert_prediction prediction_doc ;;
        ret (Stored (with_id prediction_doc inserted_id)))
       (fun e => ret (StoreFailed e (with_id prediction_doc oid))))%M.

(* ------------------------------------------------------------------ *)
(** ** [ToxicityPredictor.predict_all_articles] *)

(** The loop runs over the world and the local dictionary [stats]. *)
Definition Frame : Type := World * dict Z.

Definition in_world {A} (c : M World A) : M Frame A :=
  fun f =>
    match c (fst f) with
    | (w', r) => ((w', snd f), r)
    end.

(** [stats[k] += n] *)
Definition stats_add (k : str) (n : Z) : M Frame unit :=
  fun f =>
    match dict_add (snd f) k n with
    | Ok st' => ((fst f, st'), Ok tt)
    | Raise e => (f, Raise e)
    end.

Definition initial_stats : dict Z :=
  [ (lit "processed", 0); (lit "success", 0); (lit "errors", 0);
    (lit "toxic", 0); (lit "non_toxic", 0); (lit "slightly_toxic", 0);
    (lit "very_toxic", 0) ].

(** [enumerate(l, start)] *)
Definition enumerate {A} (start : nat) (l : list A) : list (nat * A) :=
  combine (seq start (List.length l)) l.

(** The body of the [for] loop, lines 105-144. *)
Definition article_body (cfg : Config) (clf : ToxicityClassifier) (total : nat)
  (item : nat * Article) : M Frame unit :=
  let i := fst item in
  let article := snd item in
  let url := get_or_empty (a_url article) in
  let title := get_or_empty (a_title article) in
  let content := get_or_empty (a_content article) in
  let site := get_or_empty (a_site article) in
  if is_blank content then
    (in_world (print (PSkip i total url)) ;;
     stats_add (lit "processed") 1)%M
  else
    (in_world (print (PAnalyse i total (firstn 50 title))) ;;
     result <- in_world (classifier_predict cfg clf content) ;;
     now <- in_world datetime_now ;;
     let prediction_doc := {|
       d_url := Some url; d_site := Some site; d_title := Some title;
       d_text := firstn 1000 content;
       d_prediction := prediction result;
       d_confidence := confidence result;
       d_toxicity_level := toxicity_level result;
       d_predicted_at := now;
       d_article_id := a_id article; d_id := None |} in
     try_except
       (in_world (insert_prediction prediction_doc) ;;
        stats_add (lit "success") 1 ;;
        stats_add (toxicity_level result) 1 ;;
        (if str_eqb (prediction result) (lit "toxic")
         then stats_add (lit "toxic") 1
         else stats_add (lit "non_toxic") 1) ;;
        in_world (print (PResult (prediction result) (confidence result)
                                 (toxicity_level result))))
       (fun e =>
          stats_add (lit "errors") 1 ;;
          in_world (print (PError e))) ;;
     stats_add (lit "processed") 1)%M.

Definition _print_analysis_summary (stats : dict Z) : M World unit :=
  (processed <- lift (getitem stats (lit "processed")) ;;
   success <- lift (getitem stats (lit "success")) ;;
   errors <- lift (getitem stats (lit "errors")) ;;
   non_toxic <- lift (getitem stats (lit "non_toxic")) ;;
   slightly_toxic <- lift (getitem stats (lit "slightly_toxic")) ;;
   very_toxic <- lift (getitem stats (lit "very_toxic")) ;;
   print (PSummary processed success errors non_toxic slightly_toxic very_toxic))%M.

(** Run [c] with the local [stats] starting at [init]; the final value of
    the local comes back with the result. *)
Definition with_stats {A} (init : dict Z) (c : M Frame A) : M World (dict Z) :=
  fun w =>
    match c (w, init) with
    | (f, Ok _) => (fst f, Ok (snd f))
    | (f, Raise e) => (fst f, Raise e)
    end.

Definition predict_all_articles (cfg : Config) (clf : ToxicityClassifier)
  : M World unit :=
  (print PBanner ;;
   articles_list <- gets articles ;;
   let total := List.length articles_list in
   if Nat.eqb total 0 then print PNoArticles
   else
     (print (PTotal total) ;;
      stats <- with_stats initial_stats
                 (for_each (enumerate 1 articles_list) (article_body cfg clf total)) ;;
      _print_analysis_summary stats))%M.

(* ------------------------------------------------------------------ *)
(** ** [ToxicityPredictor.get_statistics_by_site] *)

(** One document of the [$group] stage: [_id.site], [_id.toxicity_level]
    and [count].  A prediction without a [site] field gives an [_id]
    without one. *)
Record GroupResult : Type := {
  g_site : option str;
  g_level : str;
  g_count : Z
}.

Definition option_str_eqb (a b : option str) : bool :=
  match a, b with
  | Some x, Some y => str_eqb x y
  | None, None => true
  | _, _ => false
  end.

Definition same_group (g : GroupResult) (site : option str) (level : str) : bool :=
  option_str_eqb (g_site g) site && str_eqb (g_level g) level.

Fixpoint group_add (gs : list GroupResult) (site : option str) (level : str)
  : list GroupResult :=
  match gs with
  | [] => [ {| g_site := site; g_level := level; g_count := 1 |} ]
  | g :: gs' =>
      if same_group g site level
      then {| g_site := g_site g; g_level := g_level g; g_count := g_count g + 1 |} :: gs'
      else g :: group_add gs' site level
  end.

(** [self.predictions.aggregate(pipeline)]: one group per pair of site and
    level that occurs, with the number of its documents; the groups come in
    the order of their first document. *)
Definition aggregate (docs : list PredictionDoc) : list GroupResult :=
  fold_left (fun gs d => group_add gs (d_site d) (d_toxicity_level d)) docs [].

Definition initial_counts : dict Z :=
  [ (lit "total", 0); (lit "non_toxic", 0); (lit "slightly_toxic", 0);
    (lit "very_toxic", 0) ].

(** The body of the first loop, lines 163-169. *)
Definition site_stats_step (site_stats : dict (dict Z)) (res : GroupResult)
  : result (dict (dict Z)) :=
  (site <- match g_site res with
           | Some s => Ok s
           | None => Raise (KeyError (lit "site"))
           end ;;
   let level := g_level res in
   let count := g_count res in
   let site_stats :=
     match dict_get site_stats site with
     | None => dict_set site_stats site initial_counts
     | Some _ => site_stats
     end in
   counts <- getitem site_stats site ;;
   let counts := dict_set counts level count in
   counts <- dict_add counts (lit "total") count ;;
   Ok (dict_set site_stats site counts))%result.

Fixpoint site_stats_loop (results : list GroupResult) (site_stats : dict (dict Z))
  : result (dict (dict Z)) :=
  match results with
  | [] => Ok site_stats
  | res :: rest =>
      (site_stats <- site_stats_step site_stats res ;;
       site_stats_loop rest site_stats)%result
  end.

(** [round(count / total * 100, 2)] on two [int]s: the quotient is the
    double nearest to the exact one, the product is a double, and [round]
    gives the double nearest to the decimal it rounds to. *)
Definition percentage (count total : Z) : Q :=
  fl64 (Qround_digits (fl64 (fl64 (inject_Z count / inject_Z total) * 100)) 2).

(** The second loop, lines 172-183. *)
Fixpoint with_percentages (items : list (str * dict Z)) (acc : dict SiteStats)
  : result (dict SiteStats) :=
  match items with
  | [] => Ok acc
  | (site, counts) :: rest =>
      (total <- getitem counts (lit "total") ;;
       if 0 <? total then
         non_toxic <- getitem counts (lit "non_toxic") ;;
         slightly_toxic <- getitem counts (lit "slightly_toxic") ;;
         very_toxic <- getitem counts (lit "very_toxic") ;;
         with_percentages rest
           (dict_set acc site {|
              total_articles := total;
              non_toxic_count := non_toxic;
              slightly_toxic_count := slightly_toxic;
              very_toxic_count := very_toxic;
              non_toxic_pct := percentage non_toxic total;
              slightly_toxic_pct := percentage slightly_toxic total;
              very_toxic_pct := percentage very_toxic total |})
       else with_percentages rest acc)%result
  end.

Definition _save_statistics (stats : dict SiteStats) : M World unit :=
  (now <- datetime_now ;;
   let stats_doc := {| computed_at := now; statistics_of := stats |} in
   try_except
     (insert_statistics stats_doc ;; print PStatsSaved)
     (fun e => print (PStatsSaveError e)))%M.

Definition get_statistics_by_site : M World (dict SiteStats) :=
  (results <- gets (fun w => aggregate (predictions w)) ;;
   site_stats <- lift (site_stats_loop results []) ;;
   stats_with_percentages <- lift (with_percentages site_stats []) ;;
   _save_statistics stats_with_percentages ;;
   ret stats_with_percentages)%M.

(* ------------------------------------------------------------------ *)
(** ** [ToxicityPredictor.display_statistics] *)

(** The sort key: [slightly_toxic_pct + very_toxic_pct], a sum of two
    doubles. *)
Definition combined_toxicity (item : str * SiteStats) : Q :=
  fl64 (slightly_toxic_pct (snd item) + very_toxic_pct (snd item)).

(** [x] goes in front of the first element whose key is not above its
    own. *)
Fixpoint insert_desc {A} (key : A -> Q) (x : A) (l : list A) : list A :=
  match l with
  | [] => [x]
  | y :: l' =>
      if Qle_bool (key y) (key x) then x :: y :: l'
      else y :: insert_desc key x l'
  end.

(** [sorted(l, key=key, reverse=True)]: descending keys, items of equal
    key in the order they had. *)
Definition sorted_reverse {A} (key : A -> Q) (l : list A) : list A :=
  fold_right (insert_desc key) [] l.

Definition display_statistics : M World unit :=
  (stats <- get_statistics_by_site ;;
   match stats with
   | [] => print PNoStatistics
   | _ =>
       print PTableHeader ;;
       let sorted_sites := sorted_reverse combined_toxicity stats in
       for_each sorted_sites (fun item => print (PRow (fst item) (snd item))) ;;
       print PTableEnd ;;
       match sorted_sites with
       | [] => ret tt
       | most_toxic :: _ =>
           print (PMostToxic (fst most_toxic)
                    (fl64 (slightly_toxic_pct (snd most_toxic)
                           + very_toxic_pct (snd most_toxic)))
                    (non_toxic_pct (snd most_toxic)))
       end
   end)%M.

(* ------------------------------------------------------------------ *)
(** ** Vocabulary of the statements *)

Definition nonspace (c : char) : bool := negb (isspace c).

(** A word: not empty, no whitespace in it. *)
Definition is_word (w : str) : Prop :=
  w <> [] /\ forallb nonspace w = true.


(** The dictionary [stats] of [predict_all_articles] with the given values
    under its seven keys. *)
Definition mk_stats (processed success errors toxic non_toxic slightly_toxic very_toxic : Z)
  : dict Z :=
  [ (lit "processed", processed); (lit "success", success); (lit "errors", errors);
    (lit "toxic", toxic); (lit "non_toxic", non_toxic);
    (lit "slightly_toxic", slightly_toxic); (lit "very_toxic", very_toxic) ].

Definition content_of (a : Article) : str := get_or_empty (a_content a).

(** The articles the batch hands to the classifier. *)
Definition scored (l : list Article) : list Article :=
  filter (fun a => negb (is_blank (content_of a))) l.

(** How many of the answers [l] of the store are exceptions. *)
Definition fault_count (l : list (option Exn)) : nat :=
  List.length (filter (fun f => match f with Some _ => true | None => false end) l).

Definition count_where (f : PredictionDoc -> bool) (docs : list PredictionDoc) : Z :=
  Z.of_nat (List.length (filter f docs)).

Definition has_level (level : str) (d : PredictionDoc) : bool :=
  str_eqb (d_toxicity_level d) level.

Definition has_prediction (p : str) (d : PredictionDoc) : bool :=
  str_eqb (d_prediction d) p.

Definition is_summary (p : Printed) : bool :=
  match p with
  | PSummary _ _ _ _ _ _ => true
  | _ => false
  end.

(** Nothing in [out] is the summary of a batch. *)
Definition quiet (out : list Printed) : Prop :=
  forallb (fun p => negb (is_summary p)) out = true.

(** [predict] returns on the content of every article that is scored. *)
Definition scorer_succeeds (cfg : Config) (clf : ToxicityClassifier) (l : list Article)
  : Prop :=
  Forall (fun a => is_blank (content_of a) = false ->
                   exists r, predict cfg clf (content_of a) = Ok r) l.

(** [predict] raises on the content of some article that is scored. *)
Definition scorer_fails (cfg : Config) (clf : ToxicityClassifier) (l : list Article)
  : Prop :=
  Exists (fun a => is_blank (content_of a) = false /\
                   exists e, predict cfg clf (content_of a) = Raise e) l.

(* ------------------------------------------------------------------ *)
(** ** Sample inputs *)

(** A classifier over three labels, two of them toxic, whose model gives
    every text that is the one word [bad] high toxic probabilities and
    every other text low ones. *)
Definition sample_row (t : str) : list Q :=
  if str_eqb t (lit "bad") then [9 # 10; 7 # 10; 1 # 10]%Q
  else [2 # 10; 1 # 10; 9 # 10]%Q.

Definition sample_clf : ToxicityClassifier := {|
  id2label := [lit "toxic"; lit "insult"; lit "neutral"];
  toxic_labels := [0%nat; 1%nat];
  _predict_raw := fun texts => Ok (List.map sample_row texts)
|}.

(** A classifier whose model call always fails. *)
Definition failing_clf : ToxicityClassifier := {|
  id2label := [lit "toxic"; lit "insult"; lit "neutral"];
  toxic_labels := [0%nat; 1%nat];
  _predict_raw := fun _ => Raise (ExternalError 1)
|}.

Definition sample_article (id : nat) (content site : string) : Article := {|
  a_id := Some id;
  a_url := Some (lit "https://" ++ lit site ++ lit "/" ++ lit content);
  a_title := Some (lit content);
  a_content := Some (lit content);
  a_site := Some (lit site)
|}.

Definition empty_world : World := {|
  articles := []; predictions := []; statistics := []; faults := [];
  clock := 0; classifier_calls := []; stdout := []
|}.

Definition world_of (l : list Article) (f : list (option Exn)) : World := {|
  articles := l; predictions := []; statistics := []; faults := f;
  clock := 0; classifier_calls := []; stdout := []
|}.

(** Two articles with content, one article of each kind, and one article
    without content. *)
Definition two_articles : list Article :=
  [ sample_article 1 "bad" "a.example"; sample_article 2 "good" "b.example" ].

Definition three_articles : list Article :=
  [ sample_article 1 "good" "a.example"; sample_article 2 "  " "a.example";
    sample_article 3 "bad" "b.example" ].

Definition one_article : list Article :=
  [ sample_article 1 "good" "a.example" ].

(** Three articles with content, the second being the one word [bad]. *)
Definition interrupted_articles : list Article :=
  [ sample_article 1 "good" "a.example"; sample_article 2 "bad" "a.example";
    sample_article 3 "good" "b.example" ].

(* ------------------------------------------------------------------ *)
(** ** Vocabulary of the statistics *)

Definition levels : list str :=
  [lit "non_toxic"; lit "slightly_toxic"; lit "very_toxic"].

(** The inner dictionary of [site_stats] with the given values under its
    four keys. *)
Definition mk_counts (total non_toxic slightly_toxic very_toxic : Z) : dict Z :=
  [ (lit "total", total); (lit "non_toxic", non_toxic);
    (lit "slightly_toxic", slightly_toxic); (lit "very_toxic", very_toxic) ].

Definition group_key (g : GroupResult) : option str * str := (g_site g, g_level g).

(** The sum of the counts of the groups of [gs] for [site] and [level]. *)
Definition sum_count (gs : list GroupResult) (site : option str) (level : str) : Z :=
  fold_right (fun g acc => if same_group g site level then g_count g + acc else acc) 0 gs.

(** The prediction [d] is of [site] and [level]. *)
Definition doc_at (site : option str) (level : str) (d : PredictionDoc) : bool :=
  option_str_eqb (d_site d) site && str_eqb (d_toxicity_level d) level.

(** The number of predictions of [site] at [level]. *)
Definition records_at (docs : list PredictionDoc) (site : str) (level : str) : Z :=
  count_where (doc_at (Some site) level) docs.

(** The inner dictionary [site_stats] must hold for [site] once the groups
    [gs] have been read. *)
Definition counts_for (gs : list GroupResult) (site : str) : dict Z :=
  let c := sum_count gs (Some site) in
  mk_counts (c (lit "non_toxic") + c (lit "slightly_toxic") + c (lit "very_toxic"))
            (c (lit "non_toxic")) (c (lit "slightly_toxic")) (c (lit "very_toxic")).

(** [site_stats] is what the first loop must have built from [gs]. *)
Definition site_stats_of (gs : list GroupResult) (d : dict (dict Z)) : Prop :=
  NoDup (List.map fst d) /\
  (forall s, In s (List.map fst d) <-> In (Some s) (List.map g_site gs)) /\
  (forall s counts, In (s, counts) d -> counts = counts_for gs s).

(** The groups the first loop accepts: with a site and one of the three
    levels. *)
Definition well_formed_group (g : GroupResult) : Prop :=
  g_site g <> None /\ In (g_level g) levels.

(** The entry of the result for a site with the given counts. *)
Definition site_entry (total non_toxic slightly_toxic very_toxic : Z) : SiteStats := {|
  total_articles := total;
  non_toxic_count := non_toxic;
  slightly_toxic_count := slightly_toxic;
  very_toxic_count := very_toxic;
  non_toxic_pct := percentage non_toxic total;
  slightly_toxic_pct := percentage slightly_toxic total;
  very_toxic_pct := percentage very_toxic total
|}.

(** A collection of predictions over two sites. *)
Definition sample_doc (site level : string) : PredictionDoc := {|
  d_url := None; d_site := Some (lit site); d_title := None; d_text := [];
  d_prediction := lit "non_toxic"; d_confidence := NaN;
  d_toxicity_level := lit level; d_predicted_at := 0%nat;
  d_article_id := None; d_id := None
|}.

Definition sample_predictions : list PredictionDoc :=
  [ sample_doc "b.example" "non_toxic"; sample_doc "a.example" "slightly_toxic";
    sample_doc "b.example" "non_toxic"; sample_doc "a.example" "non_toxic";
    sample_doc "b.example" "very_toxic"; sample_doc "a.example" "very_toxic";
    sample_doc "b.example" "non_toxic" ].

Definition sample_store : World := {|
  articles := []; predictions := sample_predictions; statistics := [];
  faults := []; clock := 0; classifier_calls := []; stdout := []
|}.

(* ------------------------------------------------------------------ *)
(** ** Vocabulary of the presentation view *)

(** [x] may come before [y] in a list sorted by descending [key]. *)
Definition before {A} (key : A -> Q) (x y : A) : Prop := (key y <= key x)%Q.

(** The table row and the closing line printed for an item. *)
Definition row_of (item : str * SiteStats) : Printed := PRow (fst item) (snd item).

Definition most_toxic_line (item : str * SiteStats) : Printed :=
  PMostToxic (fst item) (combined_toxicity item) (non_toxic_pct (snd item)).

(** The statistics of [sample_store]. *)
Definition sample_stats : dict SiteStats :=
  [ (lit "b.example", site_entry 4 3 0 1); (lit "a.example", site_entry 3 1 1 1) ].

(** The model answers every one-text batch with a row that has a
    probability for every label of the vocabulary and for every toxic
    label. *)
Definition model_covers (clf : ToxicityClassifier) : Prop :=
  forall seg : str,
    exists (row : list Q) (rest : list (list Q)),
      _predict_raw clf [seg] = Ok (row :: rest) /\
      (List.length (id2label clf) <= List.length row)%nat /\
      Forall (fun i => (i < List.length row)%nat) (toxic_labels clf).

(** A row with a probability for every label and every toxic label. *)
Definition row_covers (clf : ToxicityClassifier) (row : list Q) : Prop :=
  (List.length (id2label clf) <= List.length row)%nat /\
  Forall (fun i => (i < List.length row)%nat) (toxic_labels clf).

(** One hundred times the word [good], then the word [bad]: two segments. *)
Definition long_text : str :=
  List.concat (repeat (lit "good ") 100) ++ lit "bad".

(** A classifier with the single label [toxic]. *)
Definition single_label_clf : ToxicityClassifier := {|
  id2label := [lit "toxic"];
  toxic_labels := [0%nat];
  _predict_raw := fun texts => Ok (List.map (fun _ => [2 # 10]%Q) texts)
|}.

(** Ten predictions for one site: six [non_toxic], three [slightly_toxic],
    one [very_toxic]. *)
Definition ten_predictions : list PredictionDoc :=
  repeat (sample_doc "example.com" "non_toxic") 6
  ++ repeat (sample_doc "example.com" "slightly_toxic") 3
  ++ [sample_doc "example.com" "very_toxic"].

(* ------------------------------------------------------------------ *)
(** ** [ToxicityPredictor]: the entry point [main] *)

(** [predictor.predict_all_articles(); predictor.display_statistics()] *)
Definition main (cfg : Config) (clf : ToxicityClassifier) : M World unit :=
  (predict_all_articles cfg clf ;; display_statistics)%M.

(* ------------------------------------------------------------------ *)
(** ** The web endpoints of [src/api/app.py] *)

Definition MODEL_NAME : str := lit "unitary/multilingual-toxic-xlm-roberta".

Record PredictResponse : Type := {
  is_toxic : bool;
  article_score : pyfloat;
  response_per_label : dict pyfloat;
  model : str;
  threshold : Q;
  stored : bool;
  response_id : option str
}.

(** What an endpoint answers: the body of a 200 response, or the status
    of an error response. *)
Inductive HttpResult (A : Type) : Type :=
| Http200 (body : A)
| Http404
| Http422
| Http500 (e : Exn).
Arguments Http200 {A} body.
Arguments Http404 {A}.
Arguments Http422 {A}.
Arguments Http500 {A} e.

(** pydantic's [strip_whitespace] is [str.strip] in the 1.x releases and
    Rust's [str::trim] in the 2.x releases; the repository asks for
    neither, and [app.py] runs with both. *)
Inductive Pydantic : Type := Pydantic1 | Pydantic2.

(** The information separators U+001C to U+001F: whitespace for
    [str.isspace], not for [str::trim]. *)
Definition is_separator (c : char) : bool := ((28 <=? c) && (c <=? 31))%N.

(** The Unicode property White_Space, which [str::trim] removes. *)
Definition is_white_space (c : char) : bool :=
  isspace c && negb (is_separator c).

Fixpoint ltrim (s : str) : str :=
  match s with
  | c :: s' => if is_white_space c then ltrim s' else s
  | [] => []
  end.

Definition trim (s : str) : str := rev (ltrim (rev (ltrim s))).

Definition strip_whitespace (v : Pydantic) (text : str) : str :=
  match v with
  | Pydantic1 => strip text
  | Pydantic2 => trim text
  end.

(** The field [text] of [PredictRequest], a
    [constr(strip_whitespace=True, min_length=1)]: the value is stripped,
    and refused when nothing is left. *)
Definition validate_text (v : Pydantic) (text : str) : option str :=
  match strip_whitespace v text with
  | [] => None
  | t => Some t
  end.

(** [POST /predict] *)
Definition post_predict (v : Pydantic) (cfg : Config) (clf : ToxicityClassifier)
  (text : str) : HttpResult PredictResponse :=
  match validate_text v text with
  | None => Http422
  | Some req_text =>
      match predict cfg clf req_text with
      | Raise e => Http500 e
      | Ok result =>
          Http200 {| is_toxic := str_eqb (prediction result) (lit "toxic");
                     article_score := confidence result;
                     response_per_label := per_label result;
                     model := MODEL_NAME;
                     threshold := ARTICLE_THRESHOLD cfg;
                     stored := false;
                     response_id := None |}
      end
  end.

(** [find_one(sort=[("computed_at", -1)])]: the first of the documents
    with the greatest [computed_at]. *)
Definition later_of (best : option StatisticsDoc) (d : StatisticsDoc)
  : option StatisticsDoc :=
  match best with
  | None => Some d
  | Some b => if Nat.ltb (computed_at b) (computed_at d) then Some d else Some b
  end.

Definition find_latest (docs : list StatisticsDoc) : option StatisticsDoc :=
  fold_left later_of docs None.

Definition get_latest_statistics (w : World) : option (dict SiteStats) :=
  match find_latest (statistics w) with
  | Some doc => Some (statistics_of doc)
  | None => None
  end.

(** [GET /stats]: an empty mapping is as good as none. *)
Definition stats_json (w : World) : HttpResult (dict SiteStats) :=
  match get_latest_statistics w with
  | None => Http404
  | Some [] => Http404
  | Some stats => Http200 stats
  end.

(* ------------------------------------------------------------------ *)
(** ** Further vocabulary *)



(** The prediction document the batch stores for article [a]. *)
Definition stored_for (a : Article) (d : PredictionDoc) : Prop :=
  d_url d = Some (get_or_empty (a_url a)) /\
  d_site d = Some (get_or_empty (a_site a)) /\
  d_title d = Some (get_or_empty (a_title a)) /\
  d_text d = firstn 1000 (content_of a) /\
  d_article_id d = a_id a.

(** The snapshots in the store were taken before the present time. *)
Definition snapshots_in_past (w : World) : Prop :=
  Forall (fun d => (computed_at d < clock w)%nat) (statistics w).

(** A model that gives a fixed row of three probabilities to every text. *)
Definition constant_clf (toxic : list nat) (row : list Q) : ToxicityClassifier := {|
  id2label := [lit "toxic"; lit "insult"; lit "neutral"];
  toxic_labels := toxic;
  _predict_raw := fun texts => Ok (List.map (fun _ => row) texts)
|}.

(** A model that fails on the one-word text [bad] and gives every other
    text low probabilities. *)
Definition flaky_clf : ToxicityClassifier := {|
  id2label := [lit "toxic"; lit "insult"; lit "neutral"];
  toxic_labels := [0%nat; 1%nat];
  _predict_raw := fun texts =>
    if existsb (fun t => str_eqb t (lit "bad")) texts
    then Raise (ExternalError 7)
    else Ok (List.map sample_row texts)
|}.



(** The prediction document [d] is what the batch stores for the article
    [a], scored as [r]. *)
Definition stored_as (a : Article) (r : Prediction) (d : PredictionDoc) : Prop :=
  stored_for a d /\
  d_prediction d = prediction r /\
  d_confidence d = confidence r /\
  d_toxicity_level d = toxicity_level r /\
  d_id d <> None.

(** A prediction that [get_statistics_by_site] can read: it has a site and
    one of the three levels. *)
Definition readable (d : PredictionDoc) : Prop :=
  d_site d <> None /\ In (d_toxicity_level d) levels.

(* ------------------------------------------------------------------ *)
(** * Properties *)

(** ** Words and chunks *)


Lemma split_from_nonspace (w : str) :
  forallb nonspace w = true ->
  forall acc rest, split_from acc (w ++ rest) = split_from (acc ++ w) rest.
Proof.
  induction w as [|c w IH]; intros Hw acc rest; simpl.
  - now rewrite app_nil_r.
  - simpl in Hw. apply andb_true_iff in Hw as [Hc Hw].
    unfold nonspace in Hc. apply negb_true_iff in Hc. rewrite Hc.
    rewrite IH by assumption. now rewrite <- app_assoc.
Qed.

Lemma split_from_space (acc rest : str) (c : char) :
  isspace c = true -> acc <> [] ->
  split_from acc (c :: rest) = acc :: split_from [] rest.
Proof.
  intros Hc Hacc. simpl. rewrite Hc. destruct acc; [contradiction | reflexivity].
Qed.

Lemma split_from_words (s acc : str) :
  forallb nonspace acc = true -> Forall is_word (split_from acc s).
Proof.
  revert acc. induction s as [|c s IH]; intros acc Hacc; simpl.
  - destruct acc as [|a acc']; constructor; [|constructor].
    split; [discriminate | assumption].
  - destruct (isspace c) eqn:Hc.
    + destruct acc as [|a acc'].
      * now apply IH.
      * constructor; [split; [discriminate | assumption] | now apply IH].
    + apply IH. rewrite forallb_app, Hacc. simpl.
      unfold nonspace. now rewrite Hc.
Qed.

Lemma split_words (s : str) : Forall is_word (split s).
Proof. now apply split_from_words. Qed.

(** Splitting a space-joined run of words, followed by more text. *)
Lemma split_join_then (ws : list str) (rest : str) :
  Forall is_word ws -> ws <> [] ->
  split_from [] (join space ws ++ 32%N :: rest) = ws ++ split_from [] rest.
Proof.
  induction ws as [|w ws IH]; intros Hws Hne; [contradiction|].
  inversion Hws as [|? ? [Hw1 Hw2] Hws']; subst.
  destruct ws as [|w2 ws].
  - simpl join. rewrite split_from_nonspace by assumption.
    simpl app at 1. rewrite split_from_space; [reflexivity | reflexivity | assumption].
  - change (join space (w :: w2 :: ws)) with (w ++ 32%N :: join space (w2 :: ws)).
    rewrite <- app_assoc. rewrite split_from_nonspace by assumption.
    rewrite <- app_comm_cons. change ([] ++ w) with w.
    rewrite split_from_space; [|reflexivity | assumption].
    simpl app. f_equal. apply IH; [assumption | discriminate].
Qed.

Lemma split_join (ws : list str) :
  Forall is_word ws -> split (join space ws) = ws.
Proof.
  unfold split. induction ws as [|w ws IH]; intros Hws; [reflexivity|].
  inversion Hws as [|? ? [Hw1 Hw2] Hws']; subst.
  destruct ws as [|w2 ws].
  - simpl join. pose proof (split_from_nonspace w Hw2 [] []) as E.
    rewrite app_nil_r in E. rewrite E. simpl.
    destruct w; [contradiction | reflexivity].
  - change (join space (w :: w2 :: ws)) with (w ++ 32%N :: join space (w2 :: ws)).
    rewrite split_from_nonspace by assumption. simpl app at 1.
    rewrite split_from_space; [|reflexivity | assumption].
    now rewrite IH.
Qed.

(** Joining chunks that are themselves joined runs of words. *)
Lemma split_join_chunks (sls : list (list str)) :
  Forall (fun sl => Forall is_word sl /\ sl <> []) sls ->
  split (join space (List.map (join space) sls)) = List.concat sls.
Proof.
  unfold split. induction sls as [|sl sls IH]; intros H; [reflexivity|].
  inversion H as [|? ? [Hsl Hne] Hrest]; subst.
  destruct sls as [|sl2 sls].
  - simpl. rewrite app_nil_r. now apply split_join.
  - change (join space (List.map (join space) (sl :: sl2 :: sls)))
      with (join space sl ++ 32%N :: join space (List.map (join space) (sl2 :: sls))).
    rewrite split_join_then by assumption.
    rewrite IH by assumption. reflexivity.
Qed.

Lemma lstrip_nil_iff (s : str) : lstrip s = [] <-> forallb isspace s = true.
Proof.
  induction s as [|c s IH]; simpl; [tauto|].
  destruct (isspace c); simpl; [exact IH | split; discriminate].
Qed.

Lemma lstrip_head (s : str) :
  lstrip s = [] \/ exists c s', lstrip s = c :: s' /\ isspace c = false.
Proof.
  induction s as [|c s IH]; simpl; [now left|].
  destruct (isspace c) eqn:Hc; [exact IH | right; now exists c, s].
Qed.

Lemma is_blank_iff (text : str) :
  is_blank text = true <-> forallb isspace text = true.
Proof.
  unfold is_blank, strip. destruct text as [|c t]; [simpl; tauto|].
  remember (c :: t) as s eqn:Hs. clear Hs.
  destruct (rev (lstrip (rev (lstrip s)))) eqn:E.
  - split; [intros _ | reflexivity].
    apply (f_equal (@rev char)) in E. rewrite rev_involutive in E. simpl in E.
    apply lstrip_nil_iff in E. rewrite forallb_forall in E.
    destruct (lstrip_head s) as [H | (c' & s' & H & Hc')].
    + now apply lstrip_nil_iff.
    + exfalso. assert (isspace c' = true) as Hs.
      { apply E. apply (proj1 (in_rev _ _)). rewrite H. now left. }
      congruence.
  - split; [discriminate|]. intros Hall. exfalso.
    apply lstrip_nil_iff in Hall. rewrite Hall in E. discriminate.
Qed.

Lemma split_from_all_space (s : str) :
  forallb isspace s = true -> split_from [] s = [].
Proof.
  induction s as [|c s IH]; simpl; [reflexivity|].
  intros H. apply andb_true_iff in H as [Hc Hs]. rewrite Hc. now apply IH.
Qed.

Lemma split_from_not_nil (s acc : str) :
  acc <> [] -> split_from acc s <> [].
Proof.
  revert acc. induction s as [|c s IH]; intros acc Hacc; simpl.
  - destruct acc; [contradiction | discriminate].
  - destruct (isspace c).
    + destruct acc; [contradiction | discriminate].
    + apply IH. destruct acc; discriminate.
Qed.

Lemma split_nil_iff (s : str) :
  split s = [] <-> forallb isspace s = true.
Proof.
  unfold split. split; [|apply split_from_all_space].
  induction s as [|c s IH]; simpl; [reflexivity|].
  destruct (isspace c) eqn:Hc; simpl; [exact IH|].
  intros H. exfalso. revert H. apply split_from_not_nil. discriminate.
Qed.

Lemma blank_split (text : str) : is_blank text = true <-> split text = [].
Proof. rewrite is_blank_iff, split_nil_iff. tauto. Qed.

(** ** [range] and slices over the word list *)

Lemma firstn_min_length {A} (l : list A) (k : nat) :
  firstn (Nat.min k (List.length l)) l = firstn k l.
Proof.
  destruct (Nat.le_ge_cases k (List.length l)) as [H | H].
  - now rewrite Nat.min_l.
  - rewrite Nat.min_r by assumption.
    now rewrite firstn_all, firstn_all2.
Qed.

(** Inside the list, [l[i:i+k]] is the first [k] elements after [i]. *)
Lemma slice_window {A} (l : list A) (i k : Z) :
  0 <= i <= Z.of_nat (List.length l) -> 0 <= k ->
  slice l i (i + k) = firstn (Z.to_nat k) (skipn (Z.to_nat i) l).
Proof.
  intros Hi Hk. unfold slice, clamp.
  destruct (i <? 0) eqn:E1; [apply Z.ltb_lt in E1; lia|].
  destruct (i + k <? 0) eqn:E2; [apply Z.ltb_lt in E2; lia|].
  rewrite (Z.min_l i) by lia.
  rewrite <- (firstn_min_length (skipn (Z.to_nat i) l) (Z.to_nat k)).
  f_equal. rewrite length_skipn. lia.
Qed.

Lemma range_up_bounds (k stop : Z) (fuel : nat) (i : Z) :
  0 <= i -> 0 < k ->
  Forall (fun j => 0 <= j < stop) (range_up fuel i stop k).
Proof.
  intros Hi Hk. revert i Hi. induction fuel as [|f IH]; intros i Hi; simpl.
  - constructor.
  - destruct (i <? stop) eqn:E; [|constructor].
    apply Z.ltb_lt in E. constructor; [lia | apply IH; lia].
Qed.

Lemma range_up_length (k stop : Z) (fuel : nat) (i : Z) :
  0 < k -> stop - i <= Z.of_nat fuel ->
  List.length (range_up fuel i stop k) = Z.to_nat ((stop - i + k - 1) / k).
Proof.
  intros Hk. revert i. induction fuel as [|f IH]; intros i Hf; simpl.
  - assert ((stop - i + k - 1) / k <= 0) as H.
    { apply Z.lt_succ_r. apply Z.div_lt_upper_bound; lia. }
    lia.
  - destruct (i <? stop) eqn:E.
    + apply Z.ltb_lt in E. simpl. rewrite IH by lia.
      replace (stop - i + k - 1) with (stop - (i + k) + k - 1 + 1 * k) by lia.
      rewrite Z.div_add by lia.
      assert (0 <= (stop - (i + k) + k - 1) / k) by (apply Z.div_pos; lia).
      lia.
    + apply Z.ltb_ge in E. simpl.
      assert ((stop - i + k - 1) / k <= 0) as H.
      { apply Z.lt_succ_r. apply Z.div_lt_upper_bound; lia. }
      lia.
Qed.

(** The slices taken at the indices of the range, put end to end, are the
    words from the first index on. *)
Lemma slices_concat {A} (ws : list A) (k : Z) (fuel : nat) (i : Z) :
  0 < k -> 0 <= i -> Z.of_nat (List.length ws) - i <= Z.of_nat fuel ->
  List.concat (List.map (fun j => slice ws j (j + k))
                 (range_up fuel i (Z.of_nat (List.length ws)) k))
  = skipn (Z.to_nat i) ws.
Proof.
  intros Hk. revert i. induction fuel as [|f IH]; intros i Hi Hf; simpl.
  - symmetry. apply skipn_all2. lia.
  - destruct (i <? Z.of_nat (List.length ws)) eqn:E.
    + apply Z.ltb_lt in E. simpl. rewrite IH by lia.
      rewrite slice_window by lia.
      replace (Z.to_nat (i + k)) with (Z.to_nat k + Z.to_nat i)%nat by lia.
      rewrite <- skipn_skipn. apply firstn_skipn.
    + apply Z.ltb_ge in E. symmetry. apply skipn_all2. lia.
Qed.

Lemma slice_length_bounds {A} (ws : list A) (k j : Z) :
  0 < k -> 0 <= j < Z.of_nat (List.length ws) ->
  1 <= Z.of_nat (List.length (slice ws j (j + k))) <= k.
Proof.
  intros Hk Hj. rewrite slice_window by lia.
  rewrite length_firstn, length_skipn. lia.
Qed.

Lemma slice_Forall {A} (P : A -> Prop) (ws : list A) (i j : Z) :
  Forall P ws -> Forall P (slice ws i j).
Proof.
  intros H. unfold slice. rewrite Forall_forall in *. intros x Hx.
  apply H.
  match type of Hx with
  | In _ (firstn ?a (skipn ?b _)) =>
      rewrite <- (firstn_skipn b ws); apply in_or_app; right;
      rewrite <- (firstn_skipn a (skipn b ws)); apply in_or_app; now left
  end.
Qed.

(** What [_split_text] returns for a positive [max_words], as the list of
    the word slices it joins. *)
Lemma split_text_slices (text : str) (k : Z) :
  0 < k ->
  exists sls : list (list str),
    _split_text text k = Ok (List.map (join space) sls) /\
    Forall (fun sl => Forall is_word sl /\ sl <> []) sls /\
    Forall (fun sl => 1 <= Z.of_nat (List.length sl) <= k) sls /\
    List.concat sls = split text /\
    Z.of_nat (List.length sls) = (Z.of_nat (List.length (split text)) + k - 1) / k.
Proof.
  intros Hk. unfold _split_text, py_range.
  destruct (k =? 0) eqn:E0; [apply Z.eqb_eq in E0; lia|].
  destruct (0 <? k) eqn:E1; [|apply Z.ltb_ge in E1; lia].
  set (ws := split text). set (n := Z.of_nat (List.length ws)).
  replace (Z.to_nat (n - 0)) with (List.length ws) by (unfold n; lia).
  set (idx := range_up (List.length ws) 0 n k).
  exists (List.map (fun j => slice ws j (j + k)) idx).
  assert (Forall (fun j => 0 <= j < n) idx) as Hidx
    by (apply range_up_bounds; lia).
  repeat split.
  - simpl. now rewrite map_map.
  - apply Forall_map. eapply Forall_impl; [|exact Hidx].
    intros j Hj. split.
    + apply slice_Forall. apply split_words.
    + pose proof (slice_length_bounds ws k j Hk Hj) as [Hlen _].
      intros Hnil. rewrite Hnil in Hlen. simpl in Hlen. lia.
  - apply Forall_map. eapply Forall_impl; [|exact Hidx].
    intros j Hj. now apply slice_length_bounds.
  - unfold idx, n. rewrite slices_concat by lia. reflexivity.
  - rewrite length_map. unfold idx. rewrite range_up_length by (unfold n; lia).
    replace (n - 0 + k - 1) with (n + k - 1) by lia.
    rewrite Z2Nat.id; [reflexivity|].
    apply Z.div_pos; unfold n; lia.
Qed.

(** C6.  For every text and every positive [max_words] [k], [_split_text]
    returns chunks such that: each chunk holds between one and [k] words;
    the words of the chunks, taken chunk after chunk, are exactly the words
    of the text in order (none split, duplicated or dropped); joining the
    chunks with single spaces and splitting again gives the words of the
    text; there are [ceil(word_count / k)] chunks; and an empty or
    whitespace-only text gives no chunk. *)
Theorem split_text_partition (text : str) (k : Z) :
  0 < k ->
  exists chunks : list str,
    _split_text text k = Ok chunks /\
    Forall (fun c => 1 <= Z.of_nat (List.length (split c)) <= k) chunks /\
    List.concat (List.map split chunks) = split text /\
    split (join space chunks) = split text /\
    Z.of_nat (List.length chunks)
      = (Z.of_nat (List.length (split text)) + k - 1) / k /\
    (is_blank text = true -> chunks = []).
Proof.
  intros Hk.
  destruct (split_text_slices text k Hk) as (sls & Hrun & Hw & Hlen & Hcat & Hcount).
  assert (List.map split (List.map (join space) sls) = sls) as Hback.
  { clear -Hw. induction Hw as [|sl sls [Hsl _] _ IH]; [reflexivity|].
    simpl. now rewrite split_join, IH. }
  exists (List.map (join space) sls). repeat split.
  - exact Hrun.
  - apply Forall_map. rewrite Forall_forall in *. intros sl Hin.
    destruct (Hw sl Hin) as [Hsl _]. rewrite split_join by assumption.
    now apply Hlen.
  - rewrite Hback. exact Hcat.
  - rewrite split_join_chunks by assumption. exact Hcat.
  - rewrite length_map. exact Hcount.
  - intros Hb. apply blank_split in Hb. rewrite Hb in Hcount. simpl in Hcount.
    rewrite Z.div_small in Hcount by lia.
    destruct sls; [reflexivity | simpl in Hcount; lia].
Qed.

Lemma split_text_partition_witness :
  0 < 2 /\
  exists chunks : list str,
    _split_text (lit "no  word is lost ") 2 = Ok chunks /\
    Forall (fun c => 1 <= Z.of_nat (List.length (split c)) <= 2) chunks /\
    List.concat (List.map split chunks) = split (lit "no  word is lost ") /\
    split (join space chunks) = split (lit "no  word is lost ") /\
    Z.of_nat (List.length chunks)
      = (Z.of_nat (List.length (split (lit "no  word is lost "))) + 2 - 1) / 2 /\
    (is_blank (lit "no  word is lost ") = true -> chunks = []).
Proof.
  split; [lia | apply (split_text_partition (lit "no  word is lost ") 2); lia].
Defined.

(* ------------------------------------------------------------------ *)
(** ** The error monad *)

Lemma rbind_Ok {A B} (c : result A) (k : A -> result B) (b : B) :
  rbind c k = Ok b -> exists a, c = Ok a /\ k a = Ok b.
Proof. destruct c as [a|e]; simpl; [eauto | discriminate]. Qed.

Ltac inv_bind H :=
  let a := fresh "a" in
  let Ha := fresh "H" a in
  apply rbind_Ok in H; destruct H as (a & Ha & H).

Lemma mapM_Forall2 {A B} (f : A -> result B) (l : list A) (ys : list B) :
  mapM f l = Ok ys -> Forall2 (fun x y => f x = Ok y) l ys.
Proof.
  revert ys. induction l as [|x l IH]; intros ys H; simpl in H.
  - injection H as <-. constructor.
  - inv_bind H. inv_bind H. injection H as <-. constructor; auto.
Qed.

Lemma mapM_length {A B} (f : A -> result B) (l : list A) (ys : list B) :
  mapM f l = Ok ys -> List.length ys = List.length l.
Proof.
  intros H. apply mapM_Forall2 in H. symmetry. eapply Forall2_length; eauto.
Qed.

Lemma mapM_total {A B} (f : A -> result B) (l : list A) :
  Forall (fun x => exists y, f x = Ok y) l -> exists ys, mapM f l = Ok ys.
Proof.
  induction 1 as [|x l [y Hy] _ [ys IH]]; simpl.
  - now exists [].
  - rewrite Hy, IH. simpl. now exists (y :: ys).
Qed.

(* ------------------------------------------------------------------ *)
(** ** [max] *)

Lemma pf_gt_trans_le (x best y : pyfloat) :
  pf_gt x best = false -> pf_gt y best = true -> pf_gt x y = false.
Proof.
  destruct x as [|x], best as [|b], y as [|y]; simpl; try congruence.
  rewrite !negb_false_iff, negb_true_iff.
  intros H1 H2. apply Qle_bool_iff in H1. apply Qle_bool_iff.
  destruct (Qle_bool y b) eqn:E; [discriminate|].
  assert (~ (y <= b)%Q) as Hn by (rewrite <- Qle_bool_iff; congruence).
  apply Qnot_le_lt in Hn. apply Qlt_le_weak. eapply Qle_lt_trans; eauto.
Qed.

Lemma pf_gt_irrefl (x : pyfloat) : pf_gt x x = false.
Proof.
  destruct x as [|x]; simpl; [reflexivity|].
  apply negb_false_iff, Qle_bool_iff, Qle_refl.
Qed.


Lemma max_scan_spec (l : list pyfloat) (best : pyfloat) (seen : list pyfloat) :
  In best seen ->
  (forall x, In x seen -> pf_gt x best = false) ->
  let m := fold_left max_step l best in
  In m (seen ++ l) /\ forall x, In x (seen ++ l) -> pf_gt x m = false.
Proof.
  revert best seen. induction l as [|y l IH]; intros best seen Hin Hub; simpl.
  - rewrite app_nil_r. auto.
  - replace (seen ++ y :: l) with ((seen ++ [y]) ++ l)
      by (rewrite <- app_assoc; reflexivity).
    apply IH.
    + unfold max_step. apply in_or_app.
      destruct (pf_gt y best); [right; now left | now left].
    + intros x Hx. apply in_app_or in Hx. unfold max_step.
      destruct (pf_gt y best) eqn:E.
      * destruct Hx as [Hx | [<- | []]]; [|apply pf_gt_irrefl].
        eapply pf_gt_trans_le; eauto.
      * destruct Hx as [Hx | [<- | []]]; auto.
Qed.

(** [max] returns an element of the sequence that no element exceeds. *)
Lemma py_max_spec (l : list pyfloat) (m : pyfloat) :
  py_max l = Ok m ->
  In m l /\ forall x, In x l -> pf_gt x m = false.
Proof.
  destruct l as [|x l]; simpl; [discriminate|]. intros H. injection H as <-.
  apply (max_scan_spec l x [x]).
  - now left.
  - intros y [<- | []]. apply pf_gt_irrefl.
Qed.

Lemma py_max_nonempty (l : list pyfloat) :
  l <> [] -> exists m, py_max l = Ok m.
Proof. destruct l; [contradiction | simpl; eauto]. Qed.

Lemma py_max_single (x : pyfloat) : py_max [x] = Ok x.
Proof. reflexivity. Qed.

(* ------------------------------------------------------------------ *)
(** ** [predict] *)

Lemma predict_inv (cfg : Config) (clf : ToxicityClassifier) (text : str) (r : Prediction) :
  predict cfg clf text = Ok r ->
  exists segments segment_probs toxic_score labels,
    _split_text text 100 = Ok segments /\
    segment_probs_of clf segments = Ok segment_probs /\
    toxic_score_of clf segment_probs = Ok toxic_score /\
    per_label_of clf segment_probs = Ok labels /\
    r = {| prediction := prediction_of cfg toxic_score;
           confidence := py_round toxic_score 3;
           toxicity_level := level_of cfg toxic_score;
           per_label := labels |}.
Proof.
  unfold predict. intros H.
  inv_bind H. inv_bind H. inv_bind H. inv_bind H. injection H as <-.
  eauto 10.
Qed.

Lemma predict_score (cfg : Config) (clf : ToxicityClassifier) (text : str) (r : Prediction) :
  predict cfg clf text = Ok r ->
  exists toxic_score,
    document_toxic_score clf text = Ok toxic_score /\
    prediction r = prediction_of cfg toxic_score /\
    confidence r = py_round toxic_score 3 /\
    toxicity_level r = level_of cfg toxic_score.
Proof.
  intros H. apply predict_inv in H as (segs & probs & score & labels & H1 & H2 & H3 & H4 & ->).
  exists score. unfold document_toxic_score. rewrite H1. simpl. rewrite H2. simpl.
  auto.
Qed.




Lemma split_text_blank (text : str) :
  is_blank text = true -> _split_text text 100 = Ok [].
Proof.
  intros Hb. apply blank_split in Hb. unfold _split_text. rewrite Hb. reflexivity.
Qed.

Lemma split_text_not_blank (text : str) :
  is_blank text = false ->
  exists segments, _split_text text 100 = Ok segments /\ segments <> [].
Proof.
  intros Hb.
  destruct (split_text_slices text 100) as (sls & Hrun & _ & _ & _ & Hcount); [lia|].
  exists (List.map (join space) sls). split; [exact Hrun|].
  assert (split text <> []) as Hne.
  { intros Hs. apply blank_split in Hs. congruence. }
  intros Hnil. apply map_eq_nil in Hnil. subst sls. simpl in Hcount.
  destruct (split text) as [|w ws]; [contradiction|].
  assert (1 <= (Z.of_nat (List.length (w :: ws)) + 100 - 1) / 100).
  { apply Z.div_le_lower_bound; simpl List.length; lia. }
  lia.
Qed.

Lemma predict_text_not_blank
  (cfg : Config) (clf : ToxicityClassifier) (text : str) (url : option str) (w : World) :
  is_blank text = false ->
  snd (predict_text cfg clf text url w) <> Ok EmptyTextError.
Proof.
  intros Hb. unfold predict_text. rewrite Hb.
  unfold bind, classifier_predict, bind, modify, lift, datetime_now, try_except,
    insert_prediction, bind, next_fault, gets, modify, raise, ret.
  destruct (predict cfg clf text) as [r|e]; simpl; [|discriminate].
  destruct (faults w) as [|[e|] rest]; simpl; discriminate.
Qed.

(** C10.  [predict] has no guard of its own: on an empty or
    whitespace-only text it raises the [ValueError] of [max] over an empty
    sequence, while [predict_text] returns its error dictionary for such a
    text and leaves the world as it was.  On any other text there is at
    least one segment, so whenever the model call and the indexing succeed
    the maximum is taken over a non-empty list and is defined, and
    [predict_text] never returns the empty-text error. *)
Theorem predict_requires_a_word
  (cfg : Config) (clf : ToxicityClassifier) (text : str) :
  (is_blank text = true ->
     predict cfg clf text = Raise ValueError_max_empty /\
     forall url w, predict_text cfg clf text url w = (w, Ok EmptyTextError)) /\
  (is_blank text = false ->
     (exists segments,
        _split_text text 100 = Ok segments /\ segments <> [] /\
        forall probs scores,
          segment_probs_of clf segments = Ok probs ->
          mapM (segment_toxic_score clf) probs = Ok scores ->
          exists m, py_max scores = Ok m) /\
     forall url w, snd (predict_text cfg clf text url w) <> Ok EmptyTextError).
Proof.
  split; intros Hb.
  - split.
    + unfold predict. rewrite (split_text_blank text Hb). reflexivity.
    + intros url w. unfold predict_text. rewrite Hb. reflexivity.
  - split.
    + destruct (split_text_not_blank text Hb) as (segs & Hsegs & Hne).
      exists segs. repeat split; auto.
      intros probs scores Hp Hs. apply py_max_nonempty.
      apply mapM_length in Hp, Hs. intros ->. simpl in Hs.
      destruct segs; [contradiction | simpl in Hp; lia].
    + intros url w. now apply predict_text_not_blank.
Qed.

Lemma predict_requires_a_word_witness :
  is_blank (lit "  ") = true /\ is_blank (lit "bad") = false /\
  predict default_config sample_clf (lit "  ") = Raise ValueError_max_empty /\
  (forall url w,
     snd (predict_text default_config sample_clf (lit "bad") url w)
     <> Ok EmptyTextError).
Proof.
  split; [reflexivity|]. split; [reflexivity|].
  split.
  - apply (predict_requires_a_word default_config sample_clf (lit "  ")). reflexivity.
  - apply (predict_requires_a_word default_config sample_clf (lit "bad")). reflexivity.
Defined.

(* ------------------------------------------------------------------ *)
(** ** [predict] returns *)

Lemma index_in_range {A} (l : list A) (i : nat) :
  (i < List.length l)%nat -> exists x, index l i = Ok x.
Proof.
  intros H. unfold index. destruct (nth_error l i) eqn:E; [eauto|].
  apply nth_error_None in E. lia.
Qed.

Lemma mapM_Forall {A B} (P : B -> Prop) (f : A -> result B) (l : list A) (ys : list B) :
  (forall x y, f x = Ok y -> P y) -> mapM f l = Ok ys -> Forall P ys.
Proof.
  intros Hf H. apply mapM_Forall2 in H.
  induction H; constructor; eauto.
Qed.

Lemma segment_probs_total (clf : ToxicityClassifier) (segments : list str) :
  model_covers clf ->
  exists probs, segment_probs_of clf segments = Ok probs /\
                Forall (row_covers clf) probs.
Proof.
  intros Hm. unfold segment_probs_of.
  destruct (mapM_total
              (fun seg => (rows <- _predict_raw clf [seg] ;; index rows 0)%result)
              segments) as [probs Hp].
  - rewrite Forall_forall. intros seg _.
    destruct (Hm seg) as (row & rest & -> & _). unfold index. simpl. eauto.
  - exists probs. split; [exact Hp|].
    eapply mapM_Forall; [|exact Hp]. intros seg row. simpl.
    destruct (Hm seg) as (row' & rest & -> & Hc). unfold index. simpl.
    intros [= <-]. exact Hc.
Qed.

Lemma per_label_from_total (clf : ToxicityClassifier) (probs : list (list Q))
  (ids : list nat) :
  Forall (row_covers clf) probs ->
  Forall (fun i => (i < List.length (id2label clf))%nat) ids ->
  forall acc, exists labels, per_label_from clf probs ids acc = Ok labels.
Proof.
  intros Hp. induction 1 as [|i ids Hi _ IH]; intros acc; simpl; [eauto|].
  destruct (index_in_range (id2label clf) i Hi) as [name ->]. simpl.
  destruct (mapM_total (fun seg => index seg i) probs) as [col ->].
  - eapply Forall_impl; [|exact Hp]. intros row [Hlen _].
    apply index_in_range. lia.
  - simpl. apply IH.
Qed.

(** On a text with at least one word, with a model that covers the
    labels, [predict] returns. *)
Lemma predict_returns (cfg : Config) (clf : ToxicityClassifier) (text : str) :
  model_covers clf -> is_blank text = false ->
  exists r, predict cfg clf text = Ok r.
Proof.
  intros Hm Hb. unfold predict.
  destruct (split_text_not_blank text Hb) as (segs & -> & Hne). simpl.
  destruct (segment_probs_total clf segs Hm) as (probs & Hp & Hcov).
  rewrite Hp. simpl.
  assert (exists scores, mapM (segment_toxic_score clf) probs = Ok scores)
    as [scores Hs].
  { apply mapM_total. eapply Forall_impl; [|exact Hcov]. intros row [_ Htox].
    unfold segment_toxic_score.
    destruct (mapM_total (index row) (toxic_labels clf)) as [vals ->].
    - eapply Forall_impl; [|exact Htox]. intros i Hi. now apply index_in_range.
    - simpl. eauto. }
  assert (scores <> []) as Hscores.
  { apply mapM_length in Hp, Hs. intros ->. simpl in Hs.
    destruct segs; [contradiction | simpl in Hp; lia]. }
  destruct (py_max_nonempty scores Hscores) as [m Hmax].
  unfold toxic_score_of. rewrite Hs. simpl. rewrite Hmax. simpl.
  destruct (per_label_from_total clf probs (seq 0 (List.length (id2label clf))) Hcov)
    with (acc := @nil (str * pyfloat)) as [labels Hl].
  { rewrite Forall_forall. intros i Hi. apply in_seq in Hi. lia. }
  unfold per_label_of. rewrite Hl. simpl. eauto.
Qed.

Lemma sample_clf_covers : model_covers sample_clf.
Proof.
  intros seg. exists (sample_row seg), []. split; [reflexivity|].
  unfold sample_row. destruct (str_eqb seg (lit "bad")); simpl;
    (split; [lia | repeat constructor; lia]).
Qed.




Lemma pf_ge_Fin (q t : Q) : pf_ge (Fin q) (Fin t) = true <-> (t <= q)%Q.
Proof. simpl. apply Qle_bool_iff. Qed.

Lemma pf_ge_Fin_false (q t : Q) : pf_ge (Fin q) (Fin t) = false <-> (q < t)%Q.
Proof.
  simpl. split; intros H.
  - apply Qnot_le_lt. intros Hle. apply Qle_bool_iff in Hle. congruence.
  - destruct (Qle_bool t q) eqn:E; [|reflexivity].
    apply Qle_bool_iff in E. exfalso. eapply Qlt_not_le; eauto.
Qed.

(** C3.  With the default thresholds, the toxicity level [predict] returns
    is [level_of] of the document toxic score, and on a finite score it is
    the step function: below 0.3 [non_toxic], from 0.3 up to but excluding
    0.65 [slightly_toxic], from 0.65 on [very_toxic]. *)
Theorem toxicity_level_step_function
  (clf : ToxicityClassifier) (text : str) (r : Prediction) :
  predict default_config clf text = Ok r ->
  exists score : pyfloat,
    document_toxic_score clf text = Ok score /\
    toxicity_level r = level_of default_config score /\
    forall q : Q, score = Fin q ->
      ((0 <= q)%Q /\ (q < 3 # 10)%Q -> toxicity_level r = lit "non_toxic") /\
      ((3 # 10 <= q)%Q /\ (q < 65 # 100)%Q -> toxicity_level r = lit "slightly_toxic") /\
      ((65 # 100 <= q)%Q /\ (q <= 1)%Q -> toxicity_level r = lit "very_toxic").
Proof.
  intros H. destruct (predict_score _ _ _ _ H) as (score & Hdoc & _ & _ & Hlevel).
  exists score. repeat split; auto; intros [Hlo Hhi]; subst score;
    rewrite Hlevel; unfold level_of, default_config;
    cbn [THRESHOLD_VERY_TOXIC THRESHOLD_SLIGHTLY_TOXIC].
  - assert (pf_ge (Fin q) (Fin (65 # 100)) = false) as ->
      by (apply pf_ge_Fin_false; lra).
    assert (pf_ge (Fin q) (Fin (3 # 10)) = false) as ->
      by (apply pf_ge_Fin_false; lra).
    reflexivity.
  - assert (pf_ge (Fin q) (Fin (65 # 100)) = false) as ->
      by (apply pf_ge_Fin_false; lra).
    assert (pf_ge (Fin q) (Fin (3 # 10)) = true) as ->
      by (apply pf_ge_Fin; lra).
    reflexivity.
  - assert (pf_ge (Fin q) (Fin (65 # 100)) = true) as ->
      by (apply pf_ge_Fin; lra).
    reflexivity.
Qed.

Lemma toxicity_level_step_function_witness :
  exists r, predict default_config sample_clf (lit "bad") = Ok r /\
  exists score : pyfloat,
    document_toxic_score sample_clf (lit "bad") = Ok score /\
    toxicity_level r = level_of default_config score /\
    forall q : Q, score = Fin q ->
      ((0 <= q)%Q /\ (q < 3 # 10)%Q -> toxicity_level r = lit "non_toxic") /\
      ((3 # 10 <= q)%Q /\ (q < 65 # 100)%Q -> toxicity_level r = lit "slightly_toxic") /\
      ((65 # 100 <= q)%Q /\ (q <= 1)%Q -> toxicity_level r = lit "very_toxic").
Proof.
  eexists. split; [vm_compute; reflexivity|].
  apply (toxicity_level_step_function sample_clf (lit "bad")).
  vm_compute. reflexivity.
Defined.

(** C4.  When [ARTICLE_THRESHOLD] is 0.5, whatever the two level
    thresholds are, the prediction [predict] returns is [toxic] exactly
    when the document toxic score is a finite value of at least 0.5, and it
    is [non_toxic] otherwise; a configuration that differs in the level
    thresholds only gives the same prediction. *)
Theorem prediction_toxic_iff_half
  (cfg : Config) (clf : ToxicityClassifier) (text : str) (r : Prediction) :
  ARTICLE_THRESHOLD cfg = (1 # 2)%Q ->
  predict cfg clf text = Ok r ->
  exists score : pyfloat,
    document_toxic_score clf text = Ok score /\
    (prediction r = lit "toxic" <-> exists q, score = Fin q /\ (1 # 2 <= q)%Q) /\
    (prediction r <> lit "toxic" -> prediction r = lit "non_toxic") /\
    (forall cfg' : Config,
       ARTICLE_THRESHOLD cfg' = ARTICLE_THRESHOLD cfg ->
       exists r', predict cfg' clf text = Ok r' /\ prediction r' = prediction r).
Proof.
  intros Hthr H. destruct (predict_score _ _ _ _ H) as (score & Hdoc & Hpred & _ & _).
  exists score. split; [exact Hdoc|]. rewrite Hpred. unfold prediction_of. rewrite Hthr.
  repeat split.
  - destruct (pf_ge score (Fin (1 # 2))) eqn:E; [intros _ | discriminate].
    destruct score as [|q]; [discriminate|]. exists q. split; [reflexivity|].
    now apply pf_ge_Fin.
  - intros (q & -> & Hq). apply pf_ge_Fin in Hq. now rewrite Hq.
  - destruct (pf_ge score (Fin (1 # 2))); [congruence | reflexivity].
  - intros cfg' Hcfg'.
    apply predict_inv in H as (segs & probs & score0 & labels & H1 & H2 & H3 & H4 & ->).
    eexists. split.
    + unfold predict. rewrite H1. simpl. rewrite H2. simpl. rewrite H3. simpl.
      rewrite H4. simpl. reflexivity.
    + simpl. unfold prediction_of. rewrite Hcfg'.
      unfold document_toxic_score in Hdoc. rewrite H1 in Hdoc. simpl in Hdoc.
      rewrite H2 in Hdoc. simpl in Hdoc. rewrite H3 in Hdoc. injection Hdoc as ->.
      reflexivity.
Qed.

Lemma prediction_toxic_iff_half_witness :
  ARTICLE_THRESHOLD default_config = (1 # 2)%Q /\
  exists r, predict default_config sample_clf (lit "bad") = Ok r /\
  exists score : pyfloat,
    document_toxic_score sample_clf (lit "bad") = Ok score /\
    (prediction r = lit "toxic" <-> exists q, score = Fin q /\ (1 # 2 <= q)%Q) /\
    (prediction r <> lit "toxic" -> prediction r = lit "non_toxic") /\
    (forall cfg' : Config,
       ARTICLE_THRESHOLD cfg' = ARTICLE_THRESHOLD default_config ->
       exists r', predict cfg' sample_clf (lit "bad") = Ok r' /\ prediction r' = prediction r).
Proof.
  split; [reflexivity|].
  eexists. split; [vm_compute; reflexivity|].
  apply (prediction_toxic_iff_half default_config sample_clf (lit "bad")).
  - reflexivity.
  - vm_compute. reflexivity.
Defined.

(* ------------------------------------------------------------------ *)
(** ** One turn of the batch loop *)

Ltac run_body :=
  unfold content_of in *; unfold article_body; cbn [fst snd]; cbv zeta.

Ltac step_monad :=
  cbv [bind in_world print modify stats_add classifier_predict lift
       datetime_now try_except insert_prediction insert_statistics next_fault
       gets raise ret fst snd].

Lemma body_blank (cfg : Config) (clf : ToxicityClassifier) (total i : nat)
  (a : Article) (w : World) (stats : dict Z) (p : Z) :
  is_blank (content_of a) = true ->
  getitem stats (lit "processed") = Ok p ->
  article_body cfg clf total (i, a) (w, stats)
  = ((set_stdout w (stdout w ++ [PSkip i total (get_or_empty (a_url a))]),
      dict_set stats (lit "processed") (p + 1)), Ok tt).
Proof.
  intros Hb Hp. run_body. rewrite Hb. step_monad.
  unfold dict_add. rewrite Hp. reflexivity.
Qed.

Lemma body_scorer_raises (cfg : Config) (clf : ToxicityClassifier) (total i : nat)
  (a : Article) (w : World) (stats : dict Z) (e : Exn) :
  is_blank (content_of a) = false ->
  predict cfg clf (content_of a) = Raise e ->
  exists w',
    article_body cfg clf total (i, a) (w, stats) = ((w', stats), Raise e) /\
    predictions w' = predictions w /\
    stdout w' = stdout w ++ [PAnalyse i total (firstn 50 (get_or_empty (a_title a)))] /\
    classifier_calls w' = classifier_calls w ++ [content_of a].
Proof.
  intros Hb Hp. run_body. rewrite Hb. step_monad. rewrite Hp.
  eexists. split; [reflexivity|]. repeat split.
Qed.

Lemma body_insert_raises (cfg : Config) (clf : ToxicityClassifier) (total i : nat)
  (a : Article) (w : World) (p s er t n sl v : Z) (r : Prediction) (e : Exn)
  (rest : list (option Exn)) :
  is_blank (content_of a) = false ->
  predict cfg clf (content_of a) = Ok r ->
  faults w = Some e :: rest ->
  exists w',
    article_body cfg clf total (i, a) (w, mk_stats p s er t n sl v)
    = ((w', mk_stats (p + 1) s (er + 1) t n sl v), Ok tt) /\
    predictions w' = predictions w /\
    faults w' = rest /\
    stdout w' = stdout w ++ [PAnalyse i total (firstn 50 (get_or_empty (a_title a)));
                             PError e] /\
    classifier_calls w' = classifier_calls w ++ [content_of a].
Proof.
  intros Hb Hp Hf. run_body. rewrite Hb. step_monad. rewrite Hp.
  cbn [faults set_clock set_classifier_calls set_stdout]. rewrite Hf.
  eexists. split; [reflexivity|]. repeat split.
  cbn. now rewrite <- app_assoc.
Qed.

Lemma level_of_cases (cfg : Config) (x : pyfloat) :
  level_of cfg x = lit "very_toxic" \/ level_of cfg x = lit "slightly_toxic"
  \/ level_of cfg x = lit "non_toxic".
Proof. unfold level_of. repeat destruct (pf_ge _ _); auto. Qed.

Lemma prediction_of_cases (cfg : Config) (x : pyfloat) :
  prediction_of cfg x = lit "toxic" \/ prediction_of cfg x = lit "non_toxic".
Proof. unfold prediction_of. destruct (pf_ge _ _); auto. Qed.

Lemma mk_stats_ext (p s e t n sl v p' s' e' t' n' sl' v' : Z) :
  p = p' -> s = s' -> e = e' -> t = t' -> n = n' -> sl = sl' -> v = v' ->
  mk_stats p s e t n sl v = mk_stats p' s' e' t' n' sl' v'.
Proof. congruence. Qed.

(** The document the batch builds for article [a] scored as [r] at time
    [now]. *)
Lemma body_stored (cfg : Config) (clf : ToxicityClassifier) (total i : nat)
  (a : Article) (w : World) (p s er t n sl v : Z) (r : Prediction) :
  is_blank (content_of a) = false ->
  predict cfg clf (content_of a) = Ok r ->
  hd None (faults w) = None ->
  exists w' doc,
    article_body cfg clf total (i, a) (w, mk_stats p s er t n sl v)
    = ((w',
        mk_stats (p + 1) (s + 1) er
          (t + Z.b2z (has_prediction (lit "toxic") doc))
          (n + Z.b2z (has_level (lit "non_toxic") doc)
             + Z.b2z (has_prediction (lit "non_toxic") doc))
          (sl + Z.b2z (has_level (lit "slightly_toxic") doc))
          (v + Z.b2z (has_level (lit "very_toxic") doc))), Ok tt) /\
    d_toxicity_level doc = toxicity_level r /\
    d_prediction doc = prediction r /\
    predictions w' = predictions w ++ [doc] /\
    faults w' = tl (faults w) /\
    stdout w' = stdout w ++ [PAnalyse i total (firstn 50 (get_or_empty (a_title a)));
                             PResult (prediction r) (confidence r) (toxicity_level r)] /\
    classifier_calls w' = classifier_calls w ++ [content_of a].
Proof.
  intros Hb Hp Hf.
  destruct (predict_score _ _ _ _ Hp) as (score & _ & Hpred & _ & Hlevel).
  run_body. rewrite Hb. step_monad. rewrite Hp.
  cbn [faults set_clock set_classifier_calls set_stdout].
  destruct (faults w) as [|[e|] rest] eqn:Hfw; simpl in Hf; try discriminate;
  cbn [predictions set_faults set_predictions set_clock set_classifier_calls
       set_stdout clock stdout classifier_calls faults articles statistics];
  unfold has_level, has_prediction.
  all: destruct (level_of_cases cfg score) as [E | [E | E]];
    destruct (prediction_of_cases cfg score) as [E' | E'];
    rewrite <- Hlevel in E; rewrite <- Hpred in E'; rewrite E, E';
    (eexists;
     match goal with |- context [predictions _ ++ [?d]] => exists d end;
     split;
     [ cbn; rewrite ?E, ?E'; cbn;
       apply f_equal2; [apply f_equal2; [reflexivity | apply mk_stats_ext; lia]
                       | reflexivity]
     | cbn; rewrite ?E, ?E', ?Hfw, <- ?app_assoc; repeat split; reflexivity ]).
Qed.

(* ------------------------------------------------------------------ *)
(** ** The batch loop *)

Lemma fault_count_cons (f : option Exn) (l : list (option Exn)) :
  fault_count (f :: l)
  = ((match f with Some _ => 1 | None => 0 end) + fault_count l)%nat.
Proof. unfold fault_count. simpl. destruct f; reflexivity. Qed.

Lemma firstn_S_no_fault (m : nat) (l : list (option Exn)) :
  hd None l = None ->
  fault_count (firstn (S m) l) = fault_count (firstn m (tl l)).
Proof.
  destruct l as [|[e|] l]; simpl; intros H; try discriminate.
  - now rewrite firstn_nil.
  - reflexivity.
Qed.

Lemma skipn_S_tl {A} (m : nat) (l : list A) : skipn (S m) l = skipn m (tl l).
Proof. destruct l; simpl; [now rewrite skipn_nil | reflexivity]. Qed.

Lemma count_where_cons (f : PredictionDoc -> bool) (d : PredictionDoc)
  (l : list PredictionDoc) :
  count_where f (d :: l) = Z.b2z (f d) + count_where f l.
Proof. unfold count_where. simpl. destruct (f d); simpl List.length; simpl Z.b2z; lia. Qed.

Lemma scored_cons_blank (a : Article) (l : list Article) :
  is_blank (content_of a) = true -> scored (a :: l) = scored l.
Proof. intros H. unfold scored. simpl. now rewrite H. Qed.

Lemma scored_cons (a : Article) (l : list Article) :
  is_blank (content_of a) = false -> scored (a :: l) = a :: scored l.
Proof. intros H. unfold scored. simpl. now rewrite H. Qed.

Lemma for_each_cons {S A} (x : A) (l : list A) (body : A -> M S unit) (s : S) :
  for_each (x :: l) body s
  = match body x s with
    | (s', Ok _) => for_each l body s'
    | (s', Raise e) => (s', Raise e)
    end.
Proof. reflexivity. Qed.

(** What the loop does when [predict] returns on every scored article. *)
Lemma loop_completes (cfg : Config) (clf : ToxicityClassifier) (total : nat)
  (l : list Article) :
  scorer_succeeds cfg clf l ->
  forall (k : nat) (w : World) (p s e t n sl v : Z),
  exists (w' : World) (new : list PredictionDoc) (s' e' t' n' sl' v' : Z)
         (out : list Printed),
    for_each (combine (seq k (List.length l)) l) (article_body cfg clf total)
      (w, mk_stats p s e t n sl v)
    = ((w', mk_stats (p + Z.of_nat (List.length l)) s' e' t' n' sl' v'), Ok tt) /\
    predictions w' = predictions w ++ new /\
    s' = s + Z.of_nat (List.length new) /\
    e' = e + Z.of_nat (fault_count (firstn (List.length (scored l)) (faults w))) /\
    (List.length new + fault_count (firstn (List.length (scored l)) (faults w))
     = List.length (scored l))%nat /\
    t' = t + count_where (has_prediction (lit "toxic")) new /\
    n' = n + count_where (has_level (lit "non_toxic")) new
           + count_where (has_prediction (lit "non_toxic")) new /\
    sl' = sl + count_where (has_level (lit "slightly_toxic")) new /\
    v' = v + count_where (has_level (lit "very_toxic")) new /\
    faults w' = skipn (List.length (scored l)) (faults w) /\
    stdout w' = stdout w ++ out /\ quiet out /\
    classifier_calls w' = classifier_calls w ++ List.map content_of (scored l).
Proof.
  induction 1 as [|a l Ha Hl IH]; intros k w p s e t n sl v.
  - exists w, [], s, e, t, n, sl, v, []. simpl.
    rewrite !app_nil_r, Z.add_0_r. unfold count_where. simpl.
    repeat split; try lia; try reflexivity.
  - simpl List.length. simpl seq. simpl combine. rewrite for_each_cons.
    replace (p + Z.of_nat (S (List.length l))) with (p + 1 + Z.of_nat (List.length l))
      by lia.
    destruct (is_blank (content_of a)) eqn:Hb.
    + rewrite (body_blank cfg clf total k a w (mk_stats p s e t n sl v) p Hb eq_refl).
      change (dict_set (mk_stats p s e t n sl v) (lit "processed") (p + 1))
        with (mk_stats (p + 1) s e t n sl v).
      destruct (IH (S k) (set_stdout w (stdout w ++ [PSkip k total (get_or_empty (a_url a))]))
                  (p + 1) s e t n sl v)
        as (w' & new & s' & e' & t' & n' & sl' & v' & out & Hrun & H1 & H2 & H3 & H4
            & H5 & H6 & H7 & H8 & H9 & H10 & H11 & H12).
      rewrite (scored_cons_blank a l Hb).
      exists w', new, s', e', t', n', sl', v', (PSkip k total (get_or_empty (a_url a)) :: out).
      simpl in *. rewrite <- app_assoc in H10.
      repeat split; auto.
    + destruct (Ha eq_refl) as [r Hr].
      rewrite (scored_cons a l Hb). simpl List.length. simpl List.map.
      destruct (faults w) as [|[e0|] rest] eqn:Hf.
      * destruct (body_stored cfg clf total k a w p s e t n sl v r Hb Hr)
          as (w1 & doc & Hbody & _ & _ & Hp1 & Hf1 & Ho1 & Hc1);
          [rewrite Hf; reflexivity|].
        rewrite Hbody. rewrite Hf in Hf1. simpl in Hf1.
        match type of Hbody with _ = ((_, mk_stats _ ?S1 _ ?T1 ?N1 ?SL1 ?V1), _) =>
          destruct (IH (S k) w1 (p + 1) S1 e T1 N1 SL1 V1)
            as (w' & new & s' & e' & t' & n' & sl' & v' & out & Hrun & H1 & H2 & H3
                & H4 & H5 & H6 & H7 & H8 & H9 & H10 & H11 & H12)
        end.
        rewrite Hf1 in *. rewrite firstn_nil in *. rewrite skipn_nil in *.
        exists w', (doc :: new), s', e', t', n', sl', v',
          (PAnalyse k total (firstn 50 (get_or_empty (a_title a)))
           :: PResult (prediction r) (confidence r) (toxicity_level r) :: out).
        rewrite !count_where_cons. rewrite H1, Hp1, H10, Ho1, H12, Hc1, <- !app_assoc.
        simpl List.length. simpl in H4 |- *.
        repeat split; auto; lia.
      * destruct (body_insert_raises cfg clf total k a w p s e t n sl v r e0 rest Hb Hr Hf)
          as (w1 & Hbody & Hp1 & Hf1 & Ho1 & Hc1).
        rewrite Hbody.
        destruct (IH (S k) w1 (p + 1) s (e + 1) t n sl v)
          as (w' & new & s' & e' & t' & n' & sl' & v' & out & Hrun & H1 & H2 & H3
              & H4 & H5 & H6 & H7 & H8 & H9 & H10 & H11 & H12).
        rewrite Hf1 in *.
        exists w', new, s', e', t', n', sl', v',
          (PAnalyse k total (firstn 50 (get_or_empty (a_title a))) :: PError e0 :: out).
        rewrite H1, Hp1, H10, Ho1, H12, Hc1, <- !app_assoc.
        simpl firstn. rewrite fault_count_cons. simpl skipn.
        repeat split; auto; lia.
      * destruct (body_stored cfg clf total k a w p s e t n sl v r Hb Hr)
          as (w1 & doc & Hbody & _ & _ & Hp1 & Hf1 & Ho1 & Hc1);
          [rewrite Hf; reflexivity|].
        rewrite Hbody. rewrite Hf in Hf1. simpl in Hf1.
        match type of Hbody with _ = ((_, mk_stats _ ?S1 _ ?T1 ?N1 ?SL1 ?V1), _) =>
          destruct (IH (S k) w1 (p + 1) S1 e T1 N1 SL1 V1)
            as (w' & new & s' & e' & t' & n' & sl' & v' & out & Hrun & H1 & H2 & H3
                & H4 & H5 & H6 & H7 & H8 & H9 & H10 & H11 & H12)
        end.
        rewrite Hf1 in *.
        exists w', (doc :: new), s', e', t', n', sl', v',
          (PAnalyse k total (firstn 50 (get_or_empty (a_title a)))
           :: PResult (prediction r) (confidence r) (toxicity_level r) :: out).
        rewrite !count_where_cons. rewrite H1, Hp1, H10, Ho1, H12, Hc1, <- !app_assoc.
        simpl firstn. rewrite fault_count_cons. simpl skipn. simpl List.length.
        repeat split; auto; lia.
Qed.

(** A scored article on which [predict] returns leaves the loop running. *)
Lemma body_returns (cfg : Config) (clf : ToxicityClassifier) (total i : nat)
  (a : Article) (w : World) (p s e t n sl v : Z) :
  (is_blank (content_of a) = false -> exists r, predict cfg clf (content_of a) = Ok r) ->
  exists w' p' s' e' t' n' sl' v' out,
    article_body cfg clf total (i, a) (w, mk_stats p s e t n sl v)
    = ((w', mk_stats p' s' e' t' n' sl' v'), Ok tt) /\
    stdout w' = stdout w ++ out /\ quiet out.
Proof.
  intros Hok. destruct (is_blank (content_of a)) eqn:Hb.
  - rewrite (body_blank cfg clf total i a w (mk_stats p s e t n sl v) p Hb eq_refl).
    change (dict_set (mk_stats p s e t n sl v) (lit "processed") (p + 1))
      with (mk_stats (p + 1) s e t n sl v).
    do 8 eexists. exists [PSkip i total (get_or_empty (a_url a))].
    repeat split.
  - destruct (Hok eq_refl) as [r Hr].
    destruct (faults w) as [|[e0|] rest] eqn:Hf.
    + destruct (body_stored cfg clf total i a w p s e t n sl v r Hb Hr)
        as (w1 & doc & Hbody & _ & _ & _ & _ & Ho1 & _); [rewrite Hf; reflexivity|].
      rewrite Hbody. do 8 eexists. eexists. split; [reflexivity|].
      split; [exact Ho1 | reflexivity].
    + destruct (body_insert_raises cfg clf total i a w p s e t n sl v r e0 rest Hb Hr Hf)
        as (w1 & Hbody & _ & _ & Ho1 & _).
      rewrite Hbody. do 8 eexists. eexists. split; [reflexivity|].
      split; [exact Ho1 | reflexivity].
    + destruct (body_stored cfg clf total i a w p s e t n sl v r Hb Hr)
        as (w1 & doc & Hbody & _ & _ & _ & _ & Ho1 & _); [rewrite Hf; reflexivity|].
      rewrite Hbody. do 8 eexists. eexists. split; [reflexivity|].
      split; [exact Ho1 | reflexivity].
Qed.

Lemma loop_index (l : list Article) (k : nat) :
  enumerate k l = combine (seq k (List.length l)) l.
Proof. reflexivity. Qed.

(** The summary is printed from a dictionary with the seven keys. *)
Lemma summary_run (w : World) (p s e t n sl v : Z) :
  _print_analysis_summary (mk_stats p s e t n sl v) w
  = (set_stdout w (stdout w ++ [PSummary p s e n sl v]), Ok tt).
Proof. reflexivity. Qed.

(* ------------------------------------------------------------------ *)
(** ** [predict_all_articles] *)

Lemma batch_unfold (cfg : Config) (clf : ToxicityClassifier) (w : World) :
  articles w <> [] ->
  predict_all_articles cfg clf w
  = match for_each (enumerate 1 (articles w))
            (article_body cfg clf (List.length (articles w)))
            (set_stdout w (stdout w ++ [PBanner; PTotal (List.length (articles w))]),
             initial_stats) with
    | (f, Ok _) => _print_analysis_summary (snd f) (fst f)
    | (f, Raise e) => (fst f, Raise e)
    end.
Proof.
  intros Hne. unfold predict_all_articles.
  cbv [bind print modify gets with_stats fst snd].
  cbn [articles set_stdout stdout].
  destruct (articles w) as [|a l] eqn:E; [contradiction|].
  cbn [List.length Nat.eqb].
  replace (set_stdout (set_stdout w (stdout w ++ [PBanner])) _)
    with (set_stdout w (stdout w ++ [PBanner; PTotal (S (List.length l))]))
    by (unfold set_stdout; cbn; now rewrite <- app_assoc).
  destruct (for_each _ _ _) as [[w1 st] [[]|e]]; reflexivity.
Qed.

Lemma for_each_app {S A} (l1 l2 : list A) (body : A -> M S unit) (s : S) :
  for_each (l1 ++ l2) body s
  = match for_each l1 body s with
    | (s', Ok _) => for_each l2 body s'
    | (s', Raise e) => (s', Raise e)
    end.
Proof.
  revert s. induction l1 as [|x l1 IH]; intros s; [reflexivity|].
  simpl app. rewrite !for_each_cons.
  destruct (body x s) as [s1 [[]|e]]; [apply IH | reflexivity].
Qed.

Lemma combine_seq_app {A} (l1 l2 : list A) (k : nat) :
  combine (seq k (List.length (l1 ++ l2))) (l1 ++ l2)
  = combine (seq k (List.length l1)) l1
    ++ combine (seq (k + List.length l1) (List.length l2)) l2.
Proof.
  revert k. induction l1 as [|x l1 IH]; intros k; simpl.
  - now rewrite Nat.add_0_r.
  - f_equal. rewrite IH. now rewrite Nat.add_succ_r.
Qed.

(** The first scored article on which [predict] raises. *)
Lemma first_failure (cfg : Config) (clf : ToxicityClassifier) (l : list Article) :
  scorer_fails cfg clf l ->
  exists (pre : list Article) (a : Article) (post : list Article) (e : Exn),
    l = pre ++ a :: post /\
    scorer_succeeds cfg clf pre /\
    is_blank (content_of a) = false /\
    predict cfg clf (content_of a) = Raise e.
Proof.
  induction l as [|a l IH]; intros Hfail; [inversion Hfail|].
  destruct (is_blank (content_of a)) eqn:Hb;
    [|destruct (predict cfg clf (content_of a)) as [r|e] eqn:Hr].
  3: { exists [], a, l, e. repeat split; auto. constructor. }
  all: assert (scorer_fails cfg clf l) as Htail
      by (apply Exists_cons in Hfail as [[Hnb [ex Hex]] | Ht];
          [congruence | assumption]).
  all: destruct (IH Htail) as (pre & a' & post & e' & -> & Hpre & Hnb & He).
  all: exists (a :: pre), a', post, e'; repeat split; auto.
  all: constructor; [|exact Hpre].
  all: intros Hnb'; first [congruence | eauto].
Qed.

(** What the loop does up to the first scored article on which [predict]
    raises: the articles before it are processed, this one is handed to
    the classifier, and the exception leaves the loop there. *)
Lemma loop_stops (cfg : Config) (clf : ToxicityClassifier) (total : nat)
  (pre : list Article) (a : Article) (post : list Article) (exn : Exn) :
  scorer_succeeds cfg clf pre ->
  is_blank (content_of a) = false ->
  predict cfg clf (content_of a) = Raise exn ->
  forall (k : nat) (w : World) (p s e t n sl v : Z),
  exists (w' : World) (stats' : dict Z) (new : list PredictionDoc)
         (out : list Printed),
    for_each (combine (seq k (List.length (pre ++ a :: post))) (pre ++ a :: post))
      (article_body cfg clf total) (w, mk_stats p s e t n sl v)
    = ((w', stats'), Raise exn) /\
    predictions w' = predictions w ++ new /\
    (List.length new + fault_count (firstn (List.length (scored pre)) (faults w))
     = List.length (scored pre))%nat /\
    stdout w' = stdout w ++ out
                ++ [PAnalyse (k + List.length pre) total
                      (firstn 50 (get_or_empty (a_title a)))] /\
    quiet out /\
    classifier_calls w'
      = classifier_calls w ++ List.map content_of (scored pre) ++ [content_of a].
Proof.
  intros Hpre Hb Hr k w p s e t n sl v.
  rewrite combine_seq_app, for_each_app.
  destruct (loop_completes cfg clf total pre Hpre k w p s e t n sl v)
    as (w1 & new & s' & e' & t' & n' & sl' & v' & out & Hrun & H1 & _ & _ & H4
        & _ & _ & _ & _ & _ & H10 & H11 & H12).
  rewrite Hrun. simpl List.length. simpl seq. simpl combine. rewrite for_each_cons.
  destruct (body_scorer_raises cfg clf total (k + List.length pre) a w1
              (mk_stats (p + Z.of_nat (List.length pre)) s' e' t' n' sl' v')
              exn Hb Hr) as (w2 & Hbody & Hp2 & Ho2 & Hc2).
  rewrite Hbody. exists w2, (mk_stats (p + Z.of_nat (List.length pre)) s' e' t' n' sl' v'),
    new, out.
  rewrite Hp2, Ho2, Hc2, H1, H10, H12, <- !app_assoc.
  repeat split; auto.
Qed.

(** C1 (amended).  In a batch with at least one article: if [predict]
    returns on every scored article, the batch returns, every scored
    article has been handed to the classifier, the last thing printed is
    the summary, its [processed] is the number of articles, its [errors] is
    the number of [insert_one] calls that raised and [success] the number
    of those that went through, each of which added a prediction.  If
    [predict] raises on some scored article, take the first such article:
    the exception [predict] raised on it is the one that leaves
    [predict_all_articles]; the scored articles before it, and then this
    one, are all that was handed to the classifier; the predictions added
    are those of the articles before it whose [insert_one] went through;
    the last thing printed is the line that announces this article, and no
    summary is printed. *)
Theorem batch_catches_persistence_failures
  (cfg : Config) (clf : ToxicityClassifier) (w : World) :
  articles w <> [] ->
  (scorer_succeeds cfg clf (articles w) ->
   exists (w' : World) (success errors non_toxic slightly_toxic very_toxic : Z)
          (out : list Printed),
     predict_all_articles cfg clf w = (w', Ok tt) /\
     stdout w' = stdout w ++ out
                 ++ [PSummary (Z.of_nat (List.length (articles w))) success errors
                       non_toxic slightly_toxic very_toxic] /\
     errors = Z.of_nat (fault_count
                          (firstn (List.length (scored (articles w))) (faults w))) /\
     success + errors = Z.of_nat (List.length (scored (articles w))) /\
     Z.of_nat (List.length (predictions w'))
       = Z.of_nat (List.length (predictions w)) + success /\
     classifier_calls w'
       = classifier_calls w ++ List.map content_of (scored (articles w))) /\
  (scorer_fails cfg clf (articles w) ->
   exists (pre : list Article) (a : Article) (post : list Article) (exn : Exn)
          (w' : World) (new : list PredictionDoc) (out : list Printed),
     articles w = pre ++ a :: post /\
     scorer_succeeds cfg clf pre /\
     is_blank (content_of a) = false /\
     predict cfg clf (content_of a) = Raise exn /\
     predict_all_articles cfg clf w = (w', Raise exn) /\
     classifier_calls w'
       = classifier_calls w ++ List.map content_of (scored pre) ++ [content_of a] /\
     predictions w' = predictions w ++ new /\
     (List.length new + fault_count (firstn (List.length (scored pre)) (faults w))
      = List.length (scored pre))%nat /\
     stdout w' = stdout w ++ out
                 ++ [PAnalyse (S (List.length pre)) (List.length (articles w))
                       (firstn 50 (get_or_empty (a_title a)))] /\
     quiet out).
Proof.
  intros Hne. rewrite (batch_unfold cfg clf w Hne). rewrite loop_index.
  change initial_stats with (mk_stats 0 0 0 0 0 0 0).
  set (w0 := set_stdout w (stdout w ++ [PBanner; PTotal (List.length (articles w))])).
  split; intros Hs.
  - destruct (loop_completes cfg clf (List.length (articles w)) (articles w) Hs
                1%nat w0 0 0 0 0 0 0 0)
      as (w' & new & s' & e' & t' & n' & sl' & v' & out & Hrun & H1 & H2 & H3 & H4
          & H5 & H6 & H7 & H8 & H9 & H10 & H11 & H12).
    rewrite Hrun. cbn [fst snd]. rewrite summary_run.
    exists (set_stdout w' (stdout w' ++
              [PSummary (0 + Z.of_nat (List.length (articles w))) s' e' n' sl' v'])).
    exists s', e', n', sl', v', ([PBanner; PTotal (List.length (articles w))] ++ out).
    cbn [stdout predictions classifier_calls set_stdout].
    rewrite H10, H1, H12. subst w0. cbn [stdout predictions classifier_calls faults set_stdout] in *.
    rewrite length_app, <- !app_assoc.
    repeat split; lia.
  - destruct (first_failure cfg clf (articles w) Hs)
      as (pre & a & post & exn & Hart & Hpre & Hb & Hr).
    destruct (loop_stops cfg clf (List.length (articles w)) pre a post exn
                Hpre Hb Hr 1%nat w0 0 0 0 0 0 0 0)
      as (w' & st' & new & out & Hrun & Hp & Hlen & Ho & Hq & Hc).
    rewrite <- Hart in Hrun. rewrite Hrun. cbn [fst snd].
    exists pre, a, post, exn, w', new,
      ([PBanner; PTotal (List.length (articles w))] ++ out).
    subst w0. cbn [stdout predictions classifier_calls faults set_stdout] in *.
    rewrite Ho, <- !app_assoc.
    repeat split; auto.
Qed.

Lemma batch_catches_persistence_failures_witness :
  articles (world_of three_articles [Some (ExternalError 2)]) <> [] /\
  (exists (w' : World) (success errors non_toxic slightly_toxic very_toxic : Z)
          (out : list Printed),
     predict_all_articles default_config sample_clf
       (world_of three_articles [Some (ExternalError 2)]) = (w', Ok tt) /\
     stdout w' = out ++ [PSummary 3 success errors non_toxic slightly_toxic very_toxic] /\
     errors = 1 /\ success = 1) /\
  articles (world_of interrupted_articles []) <> [] /\
  (exists (pre : list Article) (a : Article) (post : list Article) (w' : World),
     interrupted_articles = pre ++ a :: post /\
     predict default_config flaky_clf (content_of a) = Raise (ExternalError 7) /\
     predict_all_articles default_config flaky_clf (world_of interrupted_articles [])
     = (w', Raise (ExternalError 7)) /\
     classifier_calls w' = [lit "good"; lit "bad"] /\
     List.length (predictions w') = 1%nat).
Proof.
  split; [discriminate|].
  assert (scorer_succeeds default_config sample_clf
            (articles (world_of three_articles [Some (ExternalError 2)]))) as Hs.
  { unfold scorer_succeeds, world_of, three_articles, articles.
    repeat apply Forall_cons; try apply Forall_nil; intros Hb;
      first [ vm_compute in Hb; discriminate Hb
            | eexists; vm_compute; reflexivity ]. }
  assert (scorer_fails default_config flaky_clf
            (articles (world_of interrupted_articles []))) as Hf.
  { unfold scorer_fails, world_of, interrupted_articles, articles.
    apply Exists_cons_tl, Exists_cons_hd.
    split; [reflexivity | eexists; vm_compute; reflexivity]. }
  destruct (batch_catches_persistence_failures default_config sample_clf
              (world_of three_articles [Some (ExternalError 2)]))
    as [Hok _]; [discriminate|].
  destruct (batch_catches_persistence_failures default_config flaky_clf
              (world_of interrupted_articles []))
    as [_ Hstop]; [discriminate|].
  split.
  - destruct (Hok Hs) as (w' & s & e & n & sl & v & out & Hrun & Hout & He & Hsum & _).
    exists w', s, e, n, sl, v, out.
    change (Z.of_nat _) with 1 in He. change (Z.of_nat _) with 2 in Hsum.
    repeat split; auto. lia.
  - split; [discriminate|].
    destruct (Hstop Hf)
      as (pre & a & post & exn & w' & new & out & Hart & _ & _ & Hr & Hrun & _).
    exists pre, a, post, w'.
    assert (exn = ExternalError 7 /\
            classifier_calls w' = [lit "good"; lit "bad"] /\
            List.length (predictions w') = 1%nat) as (-> & Hc & Hp).
    { revert Hrun. vm_compute. intros [= <- <-]. repeat split. }
    repeat split; assumption.
Defined.

(** C1, as stated, fails: with a model call that raises, the exception
    raised while the first of two articles is scored leaves
    [predict_all_articles]; nothing is counted, the second article is
    neither scored nor skipped, nothing is stored and no summary is
    printed. *)
Lemma scorer_failure_aborts_batch :
  exists w' : World,
    predict_all_articles default_config failing_clf (world_of two_articles [])
    = (w', Raise (ExternalError 1)) /\
    stdout w' = [PBanner; PTotal 2; PAnalyse 1 2 (lit "bad")] /\
    classifier_calls w' = [lit "bad"] /\
    predictions w' = [].
Proof. eexists. split; [vm_compute; reflexivity|]. repeat split. Qed.

(** What the summary of a batch reports when [predict] returns on every
    scored article: [success], [slightly_toxic] and [very_toxic] count the
    predictions the run stored, by level for the last two, while
    [non_toxic] adds the stored predictions of level [non_toxic] and those
    whose binary prediction is [non_toxic]. *)
Lemma batch_summary_counters
  (cfg : Config) (clf : ToxicityClassifier) (w : World) :
  articles w <> [] ->
  scorer_succeeds cfg clf (articles w) ->
  exists (w' : World) (new : list PredictionDoc) (out : list Printed),
    predict_all_articles cfg clf w = (w', Ok tt) /\
    predictions w' = predictions w ++ new /\
    stdout w' = stdout w ++ out
      ++ [PSummary (Z.of_nat (List.length (articles w)))
            (Z.of_nat (List.length new))
            (Z.of_nat (fault_count
                         (firstn (List.length (scored (articles w))) (faults w))))
            (count_where (has_level (lit "non_toxic")) new
             + count_where (has_prediction (lit "non_toxic")) new)
            (count_where (has_level (lit "slightly_toxic")) new)
            (count_where (has_level (lit "very_toxic")) new)].
Proof.
  intros Hne Hs. rewrite (batch_unfold cfg clf w Hne). rewrite loop_index.
  change initial_stats with (mk_stats 0 0 0 0 0 0 0).
  set (w0 := set_stdout w (stdout w ++ [PBanner; PTotal (List.length (articles w))])).
  destruct (loop_completes cfg clf (List.length (articles w)) (articles w) Hs
              1%nat w0 0 0 0 0 0 0 0)
    as (w' & new & s' & e' & t' & n' & sl' & v' & out & Hrun & H1 & H2 & H3 & H4
        & H5 & H6 & H7 & H8 & H9 & H10 & H11 & H12).
  rewrite Hrun. cbn [fst snd]. rewrite summary_run.
  eexists. exists new, ([PBanner; PTotal (List.length (articles w))] ++ out).
  split; [reflexivity|].
  cbn [stdout predictions set_stdout]. rewrite H10, H1. subst w0.
  cbn [stdout predictions faults set_stdout] in *.
  rewrite <- !app_assoc. split; [reflexivity|].
  subst. repeat f_equal.
Qed.

(** C9 at a failing input.  One article whose content is scored
    [non_toxic], nothing raises: one prediction of level [non_toxic] is
    stored, and the summary reports 2 under [non_toxic]. *)
Lemma non_toxic_counter_counts_twice :
  exists w' : World,
    predict_all_articles default_config sample_clf (world_of one_article [])
    = (w', Ok tt) /\
    List.map d_toxicity_level (predictions w') = [lit "non_toxic"] /\
    count_where (has_level (lit "non_toxic")) (predictions w') = 1 /\
    last (stdout w') PBanner = PSummary 1 1 0 2 0 0.
Proof. eexists. split; [vm_compute; reflexivity|]. repeat split. Qed.

(* ------------------------------------------------------------------ *)
(** ** Empty texts *)

Lemma str_eqb_eq (a b : str) : str_eqb a b = true <-> a = b.
Proof.
  unfold str_eqb. destruct (list_eq_dec N.eq_dec a b); split; congruence.
Qed.

Lemma str_eqb_refl (a : str) : str_eqb a a = true.
Proof. now apply str_eqb_eq. Qed.

Lemma str_eqb_neq (a b : str) : str_eqb a b = false <-> a <> b.
Proof.
  unfold str_eqb. destruct (list_eq_dec N.eq_dec a b); split; congruence.
Qed.

Lemma dict_get_set_same {V} (d : dict V) (k : str) (v : V) :
  dict_get (dict_set d k v) k = Some v.
Proof.
  induction d as [|[k' v'] d IH]; simpl.
  - now rewrite str_eqb_refl.
  - destruct (str_eqb k' k) eqn:E; simpl; rewrite E; [reflexivity | exact IH].
Qed.

Lemma dict_get_set_other {V} (d : dict V) (k k' : str) (v : V) :
  k <> k' -> dict_get (dict_set d k v) k' = dict_get d k'.
Proof.
  intros Hne. induction d as [|[k0 v0] d IH]; simpl.
  - apply str_eqb_neq in Hne. now rewrite Hne.
  - destruct (str_eqb k0 k) eqn:E; simpl.
    + apply str_eqb_eq in E. subst k0.
      apply str_eqb_neq in Hne. now rewrite Hne.
    + destruct (str_eqb k0 k'); [reflexivity | exact IH].
Qed.

(** C7.  On an empty or whitespace-only text, [predict_text] returns the
    error dictionary, whose prediction is [None], and leaves the world as
    it was: nothing stored, the classifier not called.  An article with
    such a content makes the batch loop print the skip line and add one to
    [processed]: every other counter, the stored predictions and the calls
    of the classifier stay as they were. *)
Theorem blank_text_is_not_scored
  (cfg : Config) (clf : ToxicityClassifier) (text : str) :
  is_blank text = true ->
  (forall (url : option str) (w : World),
     predict_text cfg clf text url w = (w, Ok EmptyTextError) /\
     prediction_payload EmptyTextError = None) /\
  (forall (total i : nat) (a : Article) (w : World) (stats : dict Z) (p : Z),
     content_of a = text ->
     getitem stats (lit "processed") = Ok p ->
     exists (w' : World) (stats' : dict Z),
       article_body cfg clf total (i, a) (w, stats) = ((w', stats'), Ok tt) /\
       dict_get stats' (lit "processed") = Some (p + 1) /\
       (forall k, k <> lit "processed" -> dict_get stats' k = dict_get stats k) /\
       predictions w' = predictions w /\
       classifier_calls w' = classifier_calls w /\
       faults w' = faults w /\
       stdout w' = stdout w ++ [PSkip i total (get_or_empty (a_url a))]).
Proof.
  intros Hb. split.
  - intros url w. unfold predict_text. rewrite Hb. split; reflexivity.
  - intros total i a w stats p Ha Hp. subst text.
    rewrite (body_blank cfg clf total i a w stats p Hb Hp).
    eexists. eexists. split; [reflexivity|].
    repeat split.
    + apply dict_get_set_same.
    + intros k Hk. apply dict_get_set_other. congruence.
Qed.

Lemma blank_text_is_not_scored_witness :
  is_blank (lit "  ") = true /\
  predict_text default_config failing_clf (lit "  ") None empty_world
  = (empty_world, Ok EmptyTextError).
Proof.
  split; [reflexivity|].
  apply (blank_text_is_not_scored default_config failing_clf (lit "  ")).
  reflexivity.
Defined.

(* ------------------------------------------------------------------ *)
(** ** The [$group] stage *)

Lemma option_str_eqb_eq (a b : option str) : option_str_eqb a b = true <-> a = b.
Proof.
  destruct a as [a|], b as [b|]; simpl; try (split; congruence).
  rewrite str_eqb_eq. split; congruence.
Qed.

Lemma same_group_key (g : GroupResult) (site : option str) (level : str) :
  same_group g site level = true <-> group_key g = (site, level).
Proof.
  unfold same_group, group_key. rewrite andb_true_iff, option_str_eqb_eq, str_eqb_eq.
  split; [intros [-> ->]; reflexivity | intros [= -> ->]; auto].
Qed.

Lemma group_add_keys (gs : list GroupResult) (site : option str) (level : str) :
  List.map group_key (group_add gs site level)
  = if existsb (fun g => same_group g site level) gs
    then List.map group_key gs
    else List.map group_key gs ++ [(site, level)].
Proof.
  induction gs as [|g gs IH]; simpl; [reflexivity|].
  destruct (same_group g site level) eqn:E; simpl; [reflexivity|].
  rewrite IH. destruct (existsb _ gs); reflexivity.
Qed.

Lemma group_add_NoDup (gs : list GroupResult) (site : option str) (level : str) :
  NoDup (List.map group_key gs) ->
  NoDup (List.map group_key (group_add gs site level)).
Proof.
  intros H. rewrite group_add_keys.
  destruct (existsb _ gs) eqn:E; [exact H|].
  apply NoDup_app; [exact H | repeat constructor; intros [] |].
  intros k Hk [<- | []].
  apply in_map_iff in Hk as (g & Hg & Hin).
  assert (existsb (fun g => same_group g site level) gs = true) as Ht.
  { apply existsb_exists. exists g. split; [exact Hin | now apply same_group_key]. }
  congruence.
Qed.

Lemma sum_count_group_add (gs : list GroupResult) (site site' : option str)
  (level level' : str) :
  sum_count (group_add gs site level) site' level'
  = sum_count gs site' level'
    + (if option_str_eqb site site' && str_eqb level level' then 1 else 0).
Proof.
  induction gs as [|g gs IH]; simpl.
  - unfold same_group. simpl. destruct (_ && _); lia.
  - destruct (same_group g site level) eqn:E; simpl.
    + apply same_group_key in E. unfold group_key in E. injection E as Es El.
      unfold same_group. simpl. rewrite Es, El.
      destruct (option_str_eqb site site' && str_eqb level level'); lia.
    + rewrite IH. destruct (same_group g site' level'); lia.
Qed.

Lemma fold_group_add_spec (docs : list PredictionDoc) (gs : list GroupResult) :
  NoDup (List.map group_key gs) ->
  let out := fold_left (fun gs d => group_add gs (d_site d) (d_toxicity_level d)) docs gs in
  NoDup (List.map group_key out) /\
  (forall site level,
     sum_count out site level = sum_count gs site level + count_where (doc_at site level) docs) /\
  (forall k, In k (List.map group_key out) <->
             In k (List.map group_key gs)
             \/ exists d, In d docs /\ (d_site d, d_toxicity_level d) = k).
Proof.
  revert gs. induction docs as [|d docs IH]; intros gs Hnd; simpl.
  - repeat split; auto.
    + unfold count_where. simpl. lia.
    + intros [H | (d & [] & _)]. exact H.
  - destruct (IH (group_add gs (d_site d) (d_toxicity_level d)))
      as (H1 & H2 & H3); [now apply group_add_NoDup|].
    repeat split; auto.
    + intros site level. rewrite H2, sum_count_group_add, count_where_cons.
      unfold doc_at. destruct (_ && _); simpl Z.b2z; lia.
    + intros Hk. apply H3 in Hk as [Hk | (d' & Hd' & Hk)].
      * rewrite group_add_keys in Hk. destruct (existsb _ gs); [now left|].
        apply in_app_or in Hk as [Hk | [<- | []]]; [now left|].
        right. exists d. split; [now left | reflexivity].
      * right. exists d'. split; [now right | exact Hk].
    + intros Hk. apply H3. destruct Hk as [Hk | (d' & [<- | Hd'] & Hk)].
      * left. rewrite group_add_keys. destruct (existsb _ gs); [exact Hk|].
        apply in_or_app. now left.
      * left. rewrite group_add_keys.
        destruct (existsb _ gs) eqn:E.
        -- apply existsb_exists in E as (g & Hg & Hsame).
           apply same_group_key in Hsame. rewrite <- Hk, <- Hsame.
           now apply in_map.
        -- apply in_or_app. right. left. exact Hk.
      * right. exists d'. auto.
Qed.

Lemma aggregate_spec (docs : list PredictionDoc) :
  NoDup (List.map group_key (aggregate docs)) /\
  (forall site level,
     sum_count (aggregate docs) site level = count_where (doc_at site level) docs) /\
  (forall k, In k (List.map group_key (aggregate docs)) <->
             exists d, In d docs /\ (d_site d, d_toxicity_level d) = k).
Proof.
  destruct (fold_group_add_spec docs []) as (H1 & H2 & H3); [constructor|].
  unfold aggregate. repeat split; auto.
  - intros Hk. apply H3 in Hk as [[] | Hk]. exact Hk.
  - intros Hk. apply H3. now right.
Qed.

(* ------------------------------------------------------------------ *)
(** ** Dictionaries *)

Lemma dict_get_In {V} (d : dict V) (k : str) (v : V) :
  dict_get d k = Some v -> In (k, v) d.
Proof.
  induction d as [|[k' v'] d IH]; simpl; [discriminate|].
  destruct (str_eqb k' k) eqn:E.
  - apply str_eqb_eq in E. intros [= ->]. left. now subst.
  - intros H. right. now apply IH.
Qed.

Lemma In_dict_get {V} (d : dict V) (k : str) (v : V) :
  NoDup (List.map fst d) -> In (k, v) d -> dict_get d k = Some v.
Proof.
  induction d as [|[k' v'] d IH]; simpl; intros Hnd Hin; [destruct Hin|].
  inversion Hnd as [|? ? Hnotin Hnd']; subst.
  destruct Hin as [[= -> ->] | Hin].
  - now rewrite str_eqb_refl.
  - destruct (str_eqb k' k) eqn:E; [|now apply IH].
    apply str_eqb_eq in E. subst k'. exfalso. apply Hnotin.
    change k with (fst (k, v)). now apply in_map.
Qed.

Lemma dict_get_None {V} (d : dict V) (k : str) :
  dict_get d k = None <-> ~ In k (List.map fst d).
Proof.
  induction d as [|[k' v'] d IH]; simpl; [tauto|].
  destruct (str_eqb k' k) eqn:E.
  - apply str_eqb_eq in E. split; [discriminate | intros H; exfalso; auto].
  - apply str_eqb_neq in E. rewrite IH. tauto.
Qed.

Lemma dict_set_keys {V} (d : dict V) (k : str) (v : V) :
  List.map fst (dict_set d k v)
  = match dict_get d k with
    | Some _ => List.map fst d
    | None => List.map fst d ++ [k]
    end.
Proof.
  induction d as [|[k' v'] d IH]; simpl; [reflexivity|].
  destruct (str_eqb k' k) eqn:E; simpl; [reflexivity|].
  rewrite IH. destruct (dict_get d k); reflexivity.
Qed.

Lemma dict_set_NoDup {V} (d : dict V) (k : str) (v : V) :
  NoDup (List.map fst d) -> NoDup (List.map fst (dict_set d k v)).
Proof.
  intros H. rewrite dict_set_keys. destruct (dict_get d k) eqn:E; [exact H|].
  apply dict_get_None in E.
  apply NoDup_app; [exact H | repeat constructor; intros [] |].
  intros x Hx [<- | []]. contradiction.
Qed.

Lemma dict_set_In {V} (d : dict V) (k k' : str) (v v' : V) :
  NoDup (List.map fst d) ->
  In (k', v') (dict_set d k v) ->
  (k' = k /\ v' = v) \/ (k' <> k /\ In (k', v') d).
Proof.
  intros Hnd Hin.
  apply In_dict_get in Hin; [|now apply dict_set_NoDup].
  destruct (list_eq_dec N.eq_dec k' k) as [-> | Hne].
  - rewrite dict_get_set_same in Hin. left. split; congruence.
  - rewrite dict_get_set_other in Hin by congruence.
    right. split; [exact Hne | now apply dict_get_In].
Qed.

(* ------------------------------------------------------------------ *)
(** ** The first loop of [get_statistics_by_site] *)

Lemma sum_count_app (gs : list GroupResult) (g : GroupResult)
  (site : option str) (level : str) :
  sum_count (gs ++ [g]) site level
  = sum_count gs site level + (if same_group g site level then g_count g else 0).
Proof.
  induction gs as [|g0 gs IH]; simpl.
  - destruct (same_group g site level); lia.
  - rewrite IH. destruct (same_group g0 site level); lia.
Qed.

Lemma sum_count_absent (gs : list GroupResult) (site : option str) (level : str) :
  ~ In (site, level) (List.map group_key gs) -> sum_count gs site level = 0.
Proof.
  induction gs as [|g gs IH]; simpl; intros H; [reflexivity|].
  destruct (same_group g site level) eqn:E.
  - apply same_group_key in E. exfalso. apply H. now left.
  - apply IH. intros Hin. apply H. now right.
Qed.

Lemma sum_count_no_site (gs : list GroupResult) (site : option str) (level : str) :
  ~ In site (List.map g_site gs) -> sum_count gs site level = 0.
Proof.
  intros H. apply sum_count_absent. intros Hin. apply H.
  apply in_map_iff in Hin as (g & Hg & Hin). injection Hg as <- _.
  now apply in_map.
Qed.

Lemma same_group_site_neq (g : GroupResult) (s s' : str) (level : str) :
  g_site g = Some s -> s <> s' -> same_group g (Some s') level = false.
Proof.
  intros Hs Hne. unfold same_group. rewrite Hs. simpl.
  apply str_eqb_neq in Hne. now rewrite Hne.
Qed.

Lemma counts_for_other_site (gs : list GroupResult) (g : GroupResult) (s s' : str) :
  g_site g = Some s -> s <> s' -> counts_for (gs ++ [g]) s' = counts_for gs s'.
Proof.
  intros Hs Hne. unfold counts_for. rewrite !sum_count_app.
  rewrite !(same_group_site_neq g s s') by assumption.
  now rewrite !Z.add_0_r.
Qed.

Lemma mk_counts_ext (t a b c t' a' b' c' : Z) :
  t = t' -> a = a' -> b = b' -> c = c' -> mk_counts t a b c = mk_counts t' a' b' c'.
Proof. congruence. Qed.

Lemma site_stats_step_spec (gs : list GroupResult) (res : GroupResult)
  (d : dict (dict Z)) :
  well_formed_group res ->
  ~ In (group_key res) (List.map group_key gs) ->
  site_stats_of gs d ->
  exists d', site_stats_step d res = Ok d' /\ site_stats_of (gs ++ [res]) d'.
Proof.
  intros [Hsite Hlevel] Hfresh (Hnd & Hkeys & Hentries).
  destruct (g_site res) as [s|] eqn:Hs; [clear Hsite | contradiction].
  unfold site_stats_step. rewrite Hs. cbn [rbind].
  set (d1 := match dict_get d s with
             | Some _ => d
             | None => dict_set d s initial_counts
             end).
  assert (sum_count gs (Some s) (g_level res) = 0) as Hzero.
  { apply sum_count_absent. unfold group_key in Hfresh. now rewrite Hs in Hfresh. }
  assert (NoDup (List.map fst d1)) as Hnd1.
  { unfold d1. destruct (dict_get d s); [exact Hnd | now apply dict_set_NoDup]. }
  assert (dict_get d1 s = Some (counts_for gs s)) as Hget.
  { unfold d1. destruct (dict_get d s) as [c|] eqn:E.
    - rewrite E. f_equal. apply Hentries. now apply dict_get_In.
    - rewrite dict_get_set_same. f_equal. unfold counts_for.
      apply dict_get_None in E.
      assert (~ In (Some s) (List.map g_site gs)) as Hno by (rewrite <- Hkeys; exact E).
      now rewrite !(sum_count_no_site gs (Some s)) by exact Hno. }
  assert (forall k c, k <> s -> In (k, c) d1 -> In (k, c) d) as Hold.
  { intros k c Hk Hin. unfold d1 in Hin. destruct (dict_get d s); [exact Hin|].
    apply dict_set_In in Hin as [[-> _] | [_ Hin]]; [contradiction | exact Hin | exact Hnd]. }
  assert (forall k, In k (List.map fst d1) <-> k = s \/ In k (List.map fst d)) as Hk1.
  { intros k. unfold d1. destruct (dict_get d s) as [c|] eqn:E.
    - split; [now right | intros [-> | H]; [|exact H]].
      apply dict_get_In in E. change s with (fst (s, c)). now apply in_map.
    - rewrite dict_set_keys, E, in_app_iff. simpl.
      split; [intros [H | [<- | []]]; auto | intros [-> | H]; auto]. }
  unfold getitem. rewrite Hget. cbn [rbind].
  assert (exists c2,
            dict_add (dict_set (counts_for gs s) (g_level res) (g_count res))
                     (lit "total") (g_count res) = Ok c2 /\
            c2 = counts_for (gs ++ [res]) s) as (c2 & Hadd & Hc2).
  { unfold counts_for. rewrite !sum_count_app. unfold same_group. rewrite Hs.
    simpl option_str_eqb. rewrite str_eqb_refl. simpl andb.
    unfold counts_for in Hget. revert Hzero.
    destruct Hlevel as [<- | [<- | [<- | []]]]; intros Hzero;
      rewrite Hzero; eexists; (split; [reflexivity|]);
      cbn; apply mk_counts_ext; lia. }
  rewrite Hadd. cbn [rbind]. eexists. split; [reflexivity|].
  split; [now apply dict_set_NoDup|]. split.
  - intros k. rewrite dict_set_keys.
    assert (In s (List.map fst d1)) as Hin1 by (apply Hk1; now left).
    destruct (dict_get d1 s) eqn:E; [|apply dict_get_None in E; contradiction].
    rewrite Hk1, map_app, in_app_iff, Hkeys. simpl. rewrite Hs.
    split; [intros [-> | H]; auto | intros [H | [[= <-] | []]]; auto].
  - intros k c Hin. apply dict_set_In in Hin as [[-> ->] | [Hne Hin]]; [exact Hc2 | | exact Hnd1].
    rewrite (counts_for_other_site gs res s k) by congruence.
    apply Hentries. now apply Hold.
Qed.

Lemma site_stats_loop_spec (rest : list GroupResult) :
  forall (done : list GroupResult) (d : dict (dict Z)),
    NoDup (List.map group_key (done ++ rest)) ->
    Forall well_formed_group rest ->
    site_stats_of done d ->
    exists d', site_stats_loop rest d = Ok d' /\ site_stats_of (done ++ rest) d'.
Proof.
  induction rest as [|res rest IH]; intros done d Hnd Hwf Hinv; simpl.
  - exists d. rewrite app_nil_r. auto.
  - inversion Hwf as [|? ? Hres Hrest]; subst.
    assert (~ In (group_key res) (List.map group_key done)) as Hfresh.
    { rewrite map_app in Hnd. simpl in Hnd. apply NoDup_remove_2 in Hnd.
      intros Hin. apply Hnd. apply in_or_app. now left. }
    destruct (site_stats_step_spec done res d Hres Hfresh Hinv) as (d1 & Hstep & Hinv1).
    rewrite Hstep. cbn [rbind].
    replace (done ++ res :: rest) with ((done ++ [res]) ++ rest) in *
      by (rewrite <- app_assoc; reflexivity).
    now apply IH.
Qed.

(* ------------------------------------------------------------------ *)
(** ** The second loop of [get_statistics_by_site] *)

Lemma with_percentages_spec (items : list (str * dict Z)) :
  Forall (fun item => exists t a b c, snd item = mk_counts t a b c) items ->
  forall acc : dict SiteStats,
  exists final,
    with_percentages items acc = Ok final /\
    (forall s st, dict_get final s = Some st ->
       dict_get acc s = Some st \/
       exists t a b c,
         In (s, mk_counts t a b c) items /\ 0 < t /\ st = site_entry t a b c) /\
    (forall s, dict_get acc s <> None -> dict_get final s <> None) /\
    (forall s t a b c,
       In (s, mk_counts t a b c) items -> 0 < t -> dict_get final s <> None).
Proof.
  induction 1 as [|[site counts] items (t & a & b & c & Hc) _ IH]; intros acc.
  - exists acc. simpl. repeat split; auto.
  - simpl in Hc. subst counts. simpl with_percentages.
    change (getitem (mk_counts t a b c) (lit "total")) with (Ok t).
    cbn [rbind]. destruct (0 <? t) eqn:Ht.
    + change (getitem (mk_counts t a b c) (lit "non_toxic")) with (Ok a).
      change (getitem (mk_counts t a b c) (lit "slightly_toxic")) with (Ok b).
      change (getitem (mk_counts t a b c) (lit "very_toxic")) with (Ok c).
      cbn [rbind]. fold (site_entry t a b c).
      destruct (IH (dict_set acc site (site_entry t a b c)))
        as (final & Hrun & Hget & Hkeep & Hin).
      exists final. split; [exact Hrun|]. apply Z.ltb_lt in Ht. repeat split.
      * intros s st Hs. apply Hget in Hs as [Hs | (t' & a' & b' & c' & Hi & Hpos & ->)].
        -- destruct (list_eq_dec N.eq_dec site s) as [-> | Hne].
           ++ rewrite dict_get_set_same in Hs. injection Hs as <-.
              right. exists t, a, b, c. repeat split; auto. now left.
           ++ rewrite dict_get_set_other in Hs by exact Hne. now left.
        -- right. exists t', a', b', c'. repeat split; auto. now right.
      * intros s Hs. apply Hkeep.
        destruct (list_eq_dec N.eq_dec site s) as [-> | Hne].
        -- rewrite dict_get_set_same. discriminate.
        -- now rewrite dict_get_set_other by exact Hne.
      * intros s t' a' b' c' [Heq | Hi] Hpos.
        -- assert (site = s) as -> by congruence.
           apply Hkeep. rewrite dict_get_set_same. discriminate.
        -- eapply Hin; eauto.
    + destruct (IH acc) as (final & Hrun & Hget & Hkeep & Hin).
      exists final. split; [exact Hrun|]. apply Z.ltb_ge in Ht. repeat split; auto.
      * intros s st Hs. apply Hget in Hs as [Hs | (t' & a' & b' & c' & Hi & Hpos & ->)];
          [now left|].
        right. exists t', a', b', c'. repeat split; auto. now right.
      * intros s t' a' b' c' [Heq | Hi] Hpos.
        -- assert (t = t') by (unfold mk_counts in Heq; congruence). lia.
        -- eapply Hin; eauto.
Qed.

(* ------------------------------------------------------------------ *)
(** ** Rounding *)

Lemma round_half_even_bound (q : Q) :
  (Qabs (inject_Z (round_half_even q) - q) <= 1 # 2)%Q.
Proof.
  unfold round_half_even.
  pose proof (Qfloor_le q) as Hlo. pose proof (Qlt_floor q) as Hhi.
  rewrite inject_Z_plus in Hhi. change (inject_Z 1) with 1%Q in Hhi.
  destruct (Qcompare (q - inject_Z (Qfloor q)) (1 # 2)) eqn:E.
  - apply Qeq_alt in E.
    destruct (Z.even (Qfloor q));
      [|rewrite inject_Z_plus; change (inject_Z 1) with 1%Q];
      apply Qabs_Qle_condition; split; lra.
  - apply Qlt_alt in E. apply Qabs_Qle_condition; split; lra.
  - apply Qgt_alt in E. rewrite inject_Z_plus. change (inject_Z 1) with 1%Q.
    apply Qabs_Qle_condition; split; lra.
Qed.

Lemma Qround_digits_2_bound (q : Q) :
  (Qabs (Qround_digits q 2 - q) <= 1 # 200)%Q.
Proof.
  change (Qround_digits q 2) with (round_half_even (q * 100) # 100)%Q.
  pose proof (round_half_even_bound (q * 100)) as H.
  set (r := round_half_even (q * 100)) in *. clearbody r.
  apply Qabs_Qle_condition in H as [H1 H2].
  assert ((r # 100) * 100 == inject_Z r)%Q as Heq
    by (unfold Qeq; simpl; lia).
  apply Qabs_Qle_condition.
  set (x := (r # 100)%Q) in *. clearbody x.
  split; lra.
Qed.

Lemma round_half_even_range (a b : Z) (q : Q) :
  (inject_Z a <= q)%Q -> (q <= inject_Z b)%Q ->
  a <= round_half_even q <= b.
Proof.
  intros Ha Hb. unfold round_half_even.
  pose proof (Qfloor_le q) as Hlo.
  assert (a <= Qfloor q) as Hfa.
  { rewrite <- (Qfloor_Z a). now apply Qfloor_resp_le. }
  assert (Qfloor q <= b) as Hfb.
  { rewrite <- (Qfloor_Z b). now apply Qfloor_resp_le. }
  assert ((1 # 2 <= q - inject_Z (Qfloor q))%Q -> Qfloor q + 1 <= b) as Hup.
  { intros Hfrac. assert (inject_Z (Qfloor q) < inject_Z b)%Q as Hlt by lra.
    rewrite <- Zlt_Qlt in Hlt. lia. }
  destruct (Qcompare (q - inject_Z (Qfloor q)) (1 # 2)) eqn:E.
  - apply Qeq_alt in E. destruct (Z.even (Qfloor q)); [lia|].
    split; [lia|]. apply Hup. lra.
  - lia.
  - apply Qgt_alt in E. split; [lia|]. apply Hup. lra.
Qed.

(* ------------------------------------------------------------------ *)
(** ** Binary64 rounding *)

Lemma binade_le (q : Q) : (~ q == 0 -> 2 ^ binade q <= Qabs q)%Q.
Proof.
  intros Hq. unfold binade.
  set (e := Z.log2 (Z.abs (Qnum q)) - Z.log2 (Z.pos (Qden q))).
  destruct (Qle_bool (2 ^ e) (Qabs q)) eqn:E.
  - now apply Qle_bool_iff.
  - clear E.
    assert (0 < Z.abs (Qnum q)) as Hn.
    { destruct q as [n d]. unfold Qeq in Hq. simpl in *. lia. }
    destruct (Z.log2_spec _ Hn) as [Hlo _].
    destruct (Z.log2_spec (Z.pos (Qden q)) eq_refl) as [_ Hhi].
    set (a := Z.log2 (Z.abs (Qnum q))) in *.
    set (b := Z.log2 (Z.pos (Qden q))) in *.
    assert (0 <= a) as Ha by apply Z.log2_nonneg.
    assert (0 <= b) as Hb by apply Z.log2_nonneg.
    assert (Qabs q == inject_Z (Z.abs (Qnum q)) / inject_Z (Z.pos (Qden q)))%Q as ->.
    { destruct q as [n d]. unfold Qabs. simpl Qnum. simpl Qden.
      rewrite (Qmake_Qdiv (Z.abs n) d). reflexivity. }
    assert (0 < inject_Z (Z.pos (Qden q)))%Q as Hd by reflexivity.
    apply Qle_shift_div_l; [exact Hd|].
    apply Qle_trans with (inject_Z (2 ^ a)); [|now rewrite <- Zle_Qle].
    rewrite Zpower_Qpower by exact Ha. change (inject_Z 2) with 2%Q.
    assert (inject_Z (Z.pos (Qden q)) <= 2 ^ (b + 1))%Q as Hd'.
    { change 2%Q with (inject_Z 2). rewrite <- Zpower_Qpower by lia.
      rewrite <- Zle_Qle. unfold Z.succ in Hhi. lia. }
    assert (2 ^ a == 2 ^ (e - 1) * 2 ^ (b + 1))%Q as ->.
    { rewrite <- Qpower_plus by discriminate. unfold e. f_equiv. lia. }
    apply Qmult_le_l; [apply Qpower_0_lt; reflexivity | exact Hd'].
Qed.

Lemma fl64_zero (q : Q) : (q == 0)%Q -> fl64 q = 0%Q.
Proof.
  intros H. unfold fl64. apply Qeq_bool_iff in H. now rewrite H.
Qed.

Lemma fl64_eq (q : Q) :
  (~ q == 0 ->
   fl64 q == inject_Z (round_half_even (q / 2 ^ Z.max (binade q - 52) (-1074)))
             * 2 ^ Z.max (binade q - 52) (-1074))%Q.
Proof.
  intros H. unfold fl64.
  destruct (Qeq_bool q 0) eqn:E; [apply Qeq_bool_iff in E; contradiction|].
  apply Qred_correct.
Qed.

(** The spacing of the doubles around a [q] below [2^k]. *)
Lemma fl64_spacing (q : Q) (k : Z) :
  (~ q == 0)%Q -> (Qabs q < 2 ^ k)%Q -> -1021 <= k ->
  Z.max (binade q - 52) (-1074) <= k - 53.
Proof.
  intros Hq Hk Hmin. pose proof (binade_le q Hq) as Hb.
  assert (binade q < k).
  { apply (Qpower_lt_compat_l_inv 2); [|reflexivity].
    eapply Qle_lt_trans; eauto. }
  lia.
Qed.

Lemma fl64_near (q : Q) (k : Z) :
  (Qabs q < 2 ^ k)%Q -> -1021 <= k ->
  (Qabs (fl64 q - q) <= 2 ^ (k - 54))%Q.
Proof.
  intros Hk Hmin.
  assert (0 < 2 ^ (k - 54))%Q as Hpos by (apply Qpower_0_lt; reflexivity).
  destruct (Qeq_dec q 0) as [Hz | Hq].
  - rewrite (fl64_zero q Hz). rewrite Hz. simpl. lra.
  - rewrite (fl64_eq q Hq).
    pose proof (fl64_spacing q k Hq Hk Hmin) as Hm.
    set (m := Z.max (binade q - 52) (-1074)) in *. clearbody m.
    assert (0 < 2 ^ m)%Q as Hu by (apply Qpower_0_lt; reflexivity).
    assert (2 ^ m <= 2 ^ (k - 53))%Q as Hle
      by (apply Qpower_le_compat_l; [exact Hm | discriminate]).
    assert (2 ^ (k - 53) == 2 * 2 ^ (k - 54))%Q as Hdouble.
    { replace (k - 53) with (1 + (k - 54)) by lia.
      rewrite Qpower_plus by discriminate. reflexivity. }
    pose proof (round_half_even_bound (q / 2 ^ m)) as Hr.
    set (r := inject_Z (round_half_even (q / 2 ^ m))) in *. clearbody r.
    assert (q == q / 2 ^ m * 2 ^ m)%Q as Hq'
      by (field; intros H0; rewrite H0 in Hu; discriminate).
    set (x := (q / 2 ^ m)%Q) in *. clearbody x.
    set (u := (2 ^ m)%Q) in *. clearbody u.
    set (v := (2 ^ (k - 54))%Q) in *. clearbody v.
    set (v2 := (2 ^ (k - 53))%Q) in *. clearbody v2.
    apply Qabs_Qle_condition in Hr as [Hr1 Hr2].
    apply Qabs_Qle_condition.
    split; nra.
Qed.

Lemma fl64_range (q : Q) (b : Z) :
  (0 <= q)%Q -> (q <= inject_Z b)%Q -> b < 2 ^ 52 ->
  (0 <= fl64 q)%Q /\ (fl64 q <= inject_Z b)%Q.
Proof.
  intros H0 Hb Hsmall.
  destruct (Qeq_dec q 0) as [Hz | Hq].
  - rewrite (fl64_zero q Hz). rewrite Hz in Hb. split; [apply Qle_refl | exact Hb].
  - rewrite (fl64_eq q Hq).
    assert (Qabs q < 2 ^ 52)%Q as Hk.
    { rewrite Qabs_pos by exact H0. eapply Qle_lt_trans; [exact Hb|].
      change (2 ^ 52)%Q with (inject_Z (2 ^ 52)). now rewrite <- Zlt_Qlt. }
    pose proof (fl64_spacing q 52 Hq Hk ltac:(lia)) as Hm.
    set (m := Z.max (binade q - 52) (-1074)) in *. clearbody m.
    assert (0 < 2 ^ m)%Q as Hu by (apply Qpower_0_lt; reflexivity).
    assert (2 ^ m * inject_Z (2 ^ (- m)) == 1)%Q as Hinv.
    { rewrite Zpower_Qpower by lia. change (inject_Z 2) with 2%Q.
      rewrite <- Qpower_plus by discriminate.
      replace (m + - m) with 0 by lia. reflexivity. }
    assert (0 <= 2 ^ (- m)) as Hp by (apply Z.pow_nonneg; lia).
    assert (0 <= inject_Z (2 ^ (- m)))%Q as Hp'
      by (change 0%Q with (inject_Z 0); now rewrite <- Zle_Qle).
    assert (q / 2 ^ m == q * inject_Z (2 ^ (- m)))%Q as Hdiv.
    { apply Qmult_inj_r with (2 ^ m)%Q;
        [intros E; rewrite E in Hu; discriminate|].
      rewrite <- Qmult_assoc, (Qmult_comm (inject_Z _)), Hinv.
      field. intros E; rewrite E in Hu; discriminate. }
    destruct (round_half_even_range 0 (b * 2 ^ (- m)) (q / 2 ^ m)) as [Hlo Hhi].
    + rewrite Hdiv. change (inject_Z 0) with 0%Q. now apply Qmult_le_0_compat.
    + rewrite Hdiv, inject_Z_mult. now apply Qmult_le_compat_r.
    + set (r := round_half_even (q / 2 ^ m)) in *. clearbody r.
      rewrite Zle_Qle in Hlo, Hhi. rewrite inject_Z_mult in Hhi.
      change (inject_Z 0) with 0%Q in Hlo.
      set (u := (2 ^ m)%Q) in *. set (p := inject_Z (2 ^ (- m))) in *.
      clearbody u p. split; [nra|].
      assert (inject_Z r * u <= inject_Z b * p * u)%Q as H
        by (apply Qmult_le_compat_r; [exact Hhi | lra]).
      assert (inject_Z b * p * u == inject_Z b)%Q as Hbp
        by (rewrite <- Qmult_assoc, (Qmult_comm p), Hinv; ring).
      lra.
Qed.

Lemma binade_lt (q : Q) : (~ q == 0 -> Qabs q < 2 ^ (binade q + 1))%Q.
Proof.
  intros Hq. unfold binade.
  set (e := Z.log2 (Z.abs (Qnum q)) - Z.log2 (Z.pos (Qden q))).
  destruct (Qle_bool (2 ^ e) (Qabs q)) eqn:E.
  - clear E.
    assert (0 < Z.abs (Qnum q)) as Hn.
    { destruct q as [n d]. unfold Qeq in Hq. simpl in *. lia. }
    destruct (Z.log2_spec _ Hn) as [_ Hhi].
    destruct (Z.log2_spec (Z.pos (Qden q)) eq_refl) as [Hlo _].
    set (a := Z.log2 (Z.abs (Qnum q))) in *.
    set (b := Z.log2 (Z.pos (Qden q))) in *.
    assert (0 <= a) as Ha by apply Z.log2_nonneg.
    assert (0 <= b) as Hb by apply Z.log2_nonneg.
    assert (Qabs q == inject_Z (Z.abs (Qnum q)) / inject_Z (Z.pos (Qden q)))%Q as ->.
    { destruct q as [n d]. unfold Qabs. simpl Qnum. simpl Qden.
      rewrite (Qmake_Qdiv (Z.abs n) d). reflexivity. }
    assert (0 < inject_Z (Z.pos (Qden q)))%Q as Hd by reflexivity.
    apply Qlt_shift_div_r; [exact Hd|].
    apply Qlt_le_trans with (inject_Z (2 ^ (a + 1)));
      [rewrite <- Zlt_Qlt; unfold Z.succ in Hhi; exact Hhi|].
    rewrite Zpower_Qpower by lia. change (inject_Z 2) with 2%Q.
    assert (2 ^ b <= inject_Z (Z.pos (Qden q)))%Q as Hd'.
    { change 2%Q with (inject_Z 2). rewrite <- Zpower_Qpower by lia.
      now rewrite <- Zle_Qle. }
    assert (2 ^ (a + 1) == 2 ^ (e + 1) * 2 ^ b)%Q as ->.
    { rewrite <- Qpower_plus by discriminate. unfold e. f_equiv. lia. }
    apply Qmult_le_l; [apply Qpower_0_lt; reflexivity | exact Hd'].
  - replace (e - 1 + 1) with e by lia.
    apply Qnot_le_lt. intros H. apply Qle_bool_iff in H. congruence.
Qed.

(** No integer is nearer to [q] than [round_half_even q]. *)
Lemma round_half_even_nearest (q : Q) (k : Z) :
  (Qabs (inject_Z (round_half_even q) - q) <= Qabs (inject_Z k - q))%Q.
Proof.
  pose proof (round_half_even_bound q) as Hr.
  set (r := round_half_even q) in *. clearbody r.
  destruct (Z.eq_dec k r) as [-> | Hne]; [apply Qle_refl|].
  eapply Qle_trans; [exact Hr|].
  apply Qabs_Qle_condition in Hr as [Hr1 Hr2].
  assert (k + 1 <= r \/ r + 1 <= k) as [Hk | Hk] by lia;
    rewrite Zle_Qle, inject_Z_plus in Hk;
    change (inject_Z 1) with 1%Q in Hk.
  - rewrite Qabs_neg by lra. lra.
  - rewrite Qabs_pos by lra. lra.
Qed.

(** [fl64 q] is a multiple of the spacing of the doubles around [q], and
    no multiple of that spacing is nearer to [q]. *)
Lemma fl64_nearest (q : Q) (k : Z) :
  (~ q == 0 ->
   Qabs (fl64 q - q) <= Qabs (inject_Z k * 2 ^ Z.max (binade q - 52) (-1074) - q))%Q.
Proof.
  intros Hq. rewrite (fl64_eq q Hq).
  set (m := Z.max (binade q - 52) (-1074)). clearbody m.
  assert (0 < 2 ^ m)%Q as Hu by (apply Qpower_0_lt; reflexivity).
  pose proof (round_half_even_nearest (q / 2 ^ m) k) as Hr.
  set (r := inject_Z (round_half_even (q / 2 ^ m))) in *. clearbody r.
  assert (forall z : Q, z * 2 ^ m - q == (z - q / 2 ^ m) * 2 ^ m)%Q as Hfac
    by (intros z; field; intros H0; rewrite H0 in Hu; discriminate).
  rewrite !Hfac, !Qabs_Qmult, (Qabs_pos (2 ^ m)) by lra.
  apply Qmult_le_compat_r; [exact Hr | lra].
Qed.

(** The significand of [fl64 q] has at most 53 bits. *)
Lemma fl64_significand (q : Q) :
  (~ q == 0)%Q ->
  Z.abs (round_half_even (q / 2 ^ Z.max (binade q - 52) (-1074))) <= 2 ^ 53.
Proof.
  intros Hq. pose proof (binade_lt q Hq) as Hlt.
  set (m := Z.max (binade q - 52) (-1074)).
  assert (binade q + 1 <= m + 53) as Hm by (unfold m; lia).
  assert (0 < 2 ^ m)%Q as Hu by (apply Qpower_0_lt; reflexivity).
  assert (Qabs q <= 2 ^ (m + 53))%Q as Hle.
  { apply Qlt_le_weak. eapply Qlt_le_trans; [exact Hlt|].
    apply Qpower_le_compat_l; [exact Hm | discriminate]. }
  rewrite Qpower_plus in Hle by discriminate.
  change (2 ^ 53)%Q with (inject_Z (2 ^ 53)) in Hle.
  clearbody m.
  apply Qabs_Qle_condition in Hle as [H1 H2].
  destruct (round_half_even_range (- 2 ^ 53) (2 ^ 53) (q / 2 ^ m)) as [Hlo Hhi].
  - apply Qle_shift_div_l; [exact Hu|].
    rewrite inject_Z_opp. lra.
  - apply Qle_shift_div_r; [exact Hu|]. lra.
  - lia.
Qed.

(** The hundredths [r] that [percentage] rounds to, and how far the double
    computation is from the exact percentage. *)
Lemma percentage_near (count total : Z) :
  0 <= count <= total -> 0 < total ->
  exists r : Z,
    0 <= r <= 10000 /\
    (Qabs (inject_Z r - inject_Z count / inject_Z total * 10000)
       <= (1 # 2) + (1 # 1000000000))%Q /\
    (Qabs (percentage count total - (r # 100)) <= 1 # 1000000000000)%Q.
Proof.
  intros [H0 H1] Hpos. unfold percentage.
  assert (0 < inject_Z total)%Q as HT
    by (change 0%Q with (inject_Z 0); now rewrite <- Zlt_Qlt).
  assert (0 <= inject_Z count)%Q as Hc0
    by (change 0%Q with (inject_Z 0); now rewrite <- Zle_Qle).
  assert (inject_Z count <= inject_Z total)%Q as Hc1 by now rewrite <- Zle_Qle.
  set (e := (inject_Z count / inject_Z total)%Q).
  assert (0 <= e)%Q as He0 by (apply Qle_shift_div_l; [exact HT | lra]).
  assert (e <= 1)%Q as He1 by (apply Qle_shift_div_r; [exact HT | lra]).
  clearbody e.
  (* count / total *)
  destruct (fl64_range e 1 He0 He1 eq_refl) as [Hx0 Hx1].
  assert (Qabs (fl64 e - e) <= 1 # 9007199254740992)%Q as Hx.
  { apply (fl64_near e 1); [|lia].
    rewrite Qabs_pos by exact He0. eapply Qle_lt_trans; [exact He1 | reflexivity]. }
  set (x1 := fl64 e) in *. clearbody x1.
  change (inject_Z 1) with 1%Q in Hx1.
  (* ... * 100 *)
  assert (0 <= x1 * 100)%Q as Hy0 by lra.
  assert (x1 * 100 <= inject_Z 100)%Q as Hy1
    by (change (inject_Z 100) with 100%Q; lra).
  destruct (fl64_range (x1 * 100) 100 Hy0 Hy1 eq_refl) as [Hz0 Hz1].
  assert (Qabs (fl64 (x1 * 100) - x1 * 100) <= 1 # 140737488355328)%Q as Hz.
  { apply (fl64_near (x1 * 100) 7); [|lia].
    rewrite Qabs_pos by exact Hy0. eapply Qle_lt_trans; [exact Hy1 | reflexivity]. }
  set (x2 := fl64 (x1 * 100)) in *. clearbody x2.
  change (inject_Z 100) with 100%Q in Hz1.
  (* round(..., 2) *)
  change (Qround_digits x2 2) with (round_half_even (x2 * 100) # 100)%Q.
  destruct (round_half_even_range 0 10000 (x2 * 100)) as [Hlo Hhi].
  { change (inject_Z 0) with 0%Q. lra. }
  { change (inject_Z 10000) with 10000%Q. lra. }
  pose proof (round_half_even_bound (x2 * 100)) as Hr.
  set (r := round_half_even (x2 * 100)) in *. clearbody r.
  exists r. split; [lia|].
  apply Qabs_Qle_condition in Hx as [Hxa Hxb].
  apply Qabs_Qle_condition in Hz as [Hza Hzb].
  apply Qabs_Qle_condition in Hr as [Hra Hrb].
  split.
  - apply Qabs_Qle_condition. split; lra.
  - assert (0 <= r # 100)%Q as Hd0 by (unfold Qle; simpl; lia).
    assert (r # 100 <= inject_Z 100)%Q as Hd1 by (unfold Qle; simpl; lia).
    apply Qle_trans with (1 # 140737488355328)%Q.
    + apply (fl64_near (r # 100) 7); [|lia].
      rewrite Qabs_pos by exact Hd0. eapply Qle_lt_trans; [exact Hd1 | reflexivity].
    + unfold Qle. simpl. lia.
Qed.

Lemma percentage_range (count total : Z) :
  0 <= count <= total -> 0 < total ->
  (0 <= percentage count total)%Q /\ (percentage count total <= 100)%Q.
Proof.
  intros [H0 H1] Hpos. unfold percentage.
  assert (0 < inject_Z total)%Q as HT
    by (change 0%Q with (inject_Z 0); now rewrite <- Zlt_Qlt).
  assert (0 <= inject_Z count)%Q as Hc0
    by (change 0%Q with (inject_Z 0); now rewrite <- Zle_Qle).
  assert (inject_Z count <= inject_Z total)%Q as Hc1 by now rewrite <- Zle_Qle.
  set (e := (inject_Z count / inject_Z total)%Q).
  assert (0 <= e)%Q as He0 by (apply Qle_shift_div_l; [exact HT | lra]).
  assert (e <= 1)%Q as He1 by (apply Qle_shift_div_r; [exact HT | lra]).
  clearbody e.
  destruct (fl64_range e 1 He0 He1 eq_refl) as [Hx0 Hx1].
  set (x1 := fl64 e) in *. clearbody x1.
  change (inject_Z 1) with 1%Q in Hx1.
  assert (0 <= x1 * 100)%Q as Hy0 by lra.
  assert (x1 * 100 <= inject_Z 100)%Q as Hy1
    by (change (inject_Z 100) with 100%Q; lra).
  destruct (fl64_range (x1 * 100) 100 Hy0 Hy1 eq_refl) as [Hz0 Hz1].
  set (x2 := fl64 (x1 * 100)) in *. clearbody x2.
  change (inject_Z 100) with 100%Q in Hz1.
  change (Qround_digits x2 2) with (round_half_even (x2 * 100) # 100)%Q.
  destruct (round_half_even_range 0 10000 (x2 * 100)) as [Hlo Hhi].
  { change (inject_Z 0) with 0%Q. lra. }
  { change (inject_Z 10000) with 10000%Q. lra. }
  set (r := round_half_even (x2 * 100)) in *. clearbody r.
  assert (0 <= r # 100)%Q as Hd0 by (unfold Qle; simpl; lia).
  assert (r # 100 <= inject_Z 100)%Q as Hd1 by (unfold Qle; simpl; lia).
  exact (fl64_range (r # 100) 100 Hd0 Hd1 eq_refl).
Qed.

(* ------------------------------------------------------------------ *)
(** ** [get_statistics_by_site] *)

Lemma count_where_nonneg (f : PredictionDoc -> bool) (l : list PredictionDoc) :
  0 <= count_where f l.
Proof. unfold count_where. lia. Qed.

Lemma count_where_pos (f : PredictionDoc -> bool) (l : list PredictionDoc)
  (d : PredictionDoc) :
  In d l -> f d = true -> 1 <= count_where f l.
Proof.
  intros Hin Hf. unfold count_where.
  assert (In d (filter f l)) as H by (apply filter_In; auto).
  destruct (filter f l); [destruct H | simpl List.length; lia].
Qed.

Lemma site_stats_loop_sites (rest : list GroupResult) :
  forall d d', site_stats_loop rest d = Ok d' -> Forall (fun g => g_site g <> None) rest.
Proof.
  induction rest as [|g rest IH]; intros d d' H; [constructor|].
  simpl in H. inv_bind H. constructor; [|eapply IH; eauto].
  unfold site_stats_step in Ha. destruct (g_site g); [discriminate | discriminate Ha].
Qed.

Lemma save_statistics_returns (stats : dict SiteStats) (w : World) :
  exists w', _save_statistics stats w = (w', Ok tt) /\
             predictions w' = predictions w /\
             exists line, stdout w' = stdout w ++ [line].
Proof.
  unfold _save_statistics.
  cbv [bind datetime_now try_except insert_statistics next_fault print modify raise].
  cbn [faults set_clock].
  destruct (faults w) as [|[e|] rest]; eexists; (split; [reflexivity|]);
    split; try reflexivity; eexists; reflexivity.
Qed.

Lemma get_statistics_inv (w w' : World) (stats : dict SiteStats) :
  get_statistics_by_site w = (w', Ok stats) ->
  exists site_stats,
    site_stats_loop (aggregate (predictions w)) [] = Ok site_stats /\
    with_percentages site_stats [] = Ok stats.
Proof.
  unfold get_statistics_by_site. cbv [bind gets lift ret].
  destruct (site_stats_loop _ _) as [ss|e]; [|discriminate].
  destruct (with_percentages ss []) as [st|e] eqn:E; [|discriminate].
  destruct (save_statistics_returns st w) as (w1 & -> & _).
  intros [= _ ->]. eauto.
Qed.

Lemma get_statistics_run (w : World) (site_stats : dict (dict Z)) (stats : dict SiteStats) :
  site_stats_loop (aggregate (predictions w)) [] = Ok site_stats ->
  with_percentages site_stats [] = Ok stats ->
  exists w', get_statistics_by_site w = (w', Ok stats) /\
             predictions w' = predictions w /\
             exists line, stdout w' = stdout w ++ [line].
Proof.
  intros H1 H2. unfold get_statistics_by_site. cbv [bind gets lift ret].
  rewrite H1, H2.
  destruct (save_statistics_returns stats w) as (w1 & -> & Hp & Ho). eauto.
Qed.

Lemma aggregate_well_formed (docs : list PredictionDoc) :
  Forall (fun d => In (d_toxicity_level d) levels) docs ->
  Forall (fun g => g_site g <> None) (aggregate docs) ->
  Forall well_formed_group (aggregate docs).
Proof.
  intros Hl Hs. destruct (aggregate_spec docs) as (_ & _ & Hkeys).
  rewrite Forall_forall in *. intros g Hg. split; [now apply Hs|].
  assert (In (group_key g) (List.map group_key (aggregate docs))) as Hk
    by now apply in_map.
  apply Hkeys in Hk as (d & Hd & Hk). injection Hk as _ <-. now apply Hl.
Qed.

Lemma percentages_sum (a b c : Z) :
  0 <= a -> 0 <= b -> 0 <= c -> 0 < a + b + c ->
  (Qabs (percentage a (a + b + c) + percentage b (a + b + c)
         + percentage c (a + b + c) - 100) <= 15 # 1000)%Q.
Proof.
  intros Ha0 Hb0 Hc0 Hpos.
  set (T := inject_Z (a + b + c)).
  assert (~ T == 0)%Q as HT.
  { unfold T, Qeq. simpl. lia. }
  assert (inject_Z a / T * 10000 + inject_Z b / T * 10000 + inject_Z c / T * 10000
          == 10000)%Q as Hsum.
  { unfold T. rewrite !inject_Z_plus. fold T.
    assert (T == inject_Z a + inject_Z b + inject_Z c)%Q as HT'
      by (unfold T; now rewrite !inject_Z_plus).
    field. rewrite <- HT'. exact HT. }
  destruct (percentage_near a (a + b + c)) as (ra & _ & Ha & Ha'); [lia | lia |].
  destruct (percentage_near b (a + b + c)) as (rb & _ & Hb & Hb'); [lia | lia |].
  destruct (percentage_near c (a + b + c)) as (rc & _ & Hc & Hc'); [lia | lia |].
  fold T in Ha, Hb, Hc.
  set (ea := (inject_Z a / T * 10000)%Q) in *.
  set (eb := (inject_Z b / T * 10000)%Q) in *.
  set (ec := (inject_Z c / T * 10000)%Q) in *.
  set (pa := percentage a (a + b + c)) in *.
  set (pb := percentage b (a + b + c)) in *.
  set (pc := percentage c (a + b + c)) in *.
  clearbody ea eb ec pa pb pc.
  apply Qabs_Qle_condition in Ha as [Ha1 Ha2].
  apply Qabs_Qle_condition in Hb as [Hb1 Hb2].
  apply Qabs_Qle_condition in Hc as [Hc1 Hc2].
  apply Qabs_Qle_condition in Ha' as [Ha3 Ha4].
  apply Qabs_Qle_condition in Hb' as [Hb3 Hb4].
  apply Qabs_Qle_condition in Hc' as [Hc3 Hc4].
  (* the three hundredths add up to 9999, 10000 or 10001 *)
  assert (9999 <= ra + rb + rc <= 10001) as Hr.
  { assert (inject_Z 9998 < inject_Z (ra + rb + rc))%Q as Hlo
      by (rewrite !inject_Z_plus; change (inject_Z 9998) with 9998%Q; lra).
    assert (inject_Z (ra + rb + rc) < inject_Z 10002)%Q as Hhi
      by (rewrite !inject_Z_plus; change (inject_Z 10002) with 10002%Q; lra).
    rewrite <- Zlt_Qlt in Hlo, Hhi. lia. }
  assert ((ra # 100) + (rb # 100) + (rc # 100) == (ra + rb + rc) # 100)%Q as Hd
    by (unfold Qeq; simpl; lia).
  assert (9999 # 100 <= (ra + rb + rc) # 100)%Q as Hd1 by (unfold Qle; simpl; lia).
  assert ((ra + rb + rc) # 100 <= 10001 # 100)%Q as Hd2 by (unfold Qle; simpl; lia).
  set (da := (ra # 100)%Q) in *. set (db := (rb # 100)%Q) in *.
  set (dc := (rc # 100)%Q) in *. set (d := ((ra + rb + rc) # 100)%Q) in *.
  clearbody da db dc d.
  apply Qabs_Qle_condition. split; lra.
Qed.

Lemma site_stats_of_nil : site_stats_of [] [].
Proof.
  split; [constructor|]. split.
  - intros s. simpl. tauto.
  - intros s counts [].
Qed.

(** The entries of the result, in terms of the predictions read. *)
Lemma statistics_entries (docs : list PredictionDoc)
  (site_stats : dict (dict Z)) (stats : dict SiteStats) :
  Forall (fun d => In (d_toxicity_level d) levels) docs ->
  site_stats_loop (aggregate docs) [] = Ok site_stats ->
  with_percentages site_stats [] = Ok stats ->
  (forall site st, dict_get stats site = Some st ->
     let a := records_at docs site (lit "non_toxic") in
     let b := records_at docs site (lit "slightly_toxic") in
     let c := records_at docs site (lit "very_toxic") in
     0 < a + b + c /\ st = site_entry (a + b + c) a b c) /\
  (forall site, dict_get stats site <> None <->
                exists d, In d docs /\ d_site d = Some site).
Proof.
  intros Hlevels Hloop Hpct.
  destruct (aggregate_spec docs) as (Hnd & Hsum & Hkeys).
  pose proof (aggregate_well_formed docs Hlevels
                (site_stats_loop_sites _ _ _ Hloop)) as Hwf.
  destruct (site_stats_loop_spec (aggregate docs) [] [] Hnd Hwf)
    as (ss & Hloop' & Hnd' & Hsites & Hentries).
  { apply site_stats_of_nil. }
  rewrite Hloop in Hloop'. injection Hloop' as <-. simpl app in *.
  assert (forall s counts, In (s, counts) site_stats ->
            counts = mk_counts
                       (records_at docs s (lit "non_toxic")
                        + records_at docs s (lit "slightly_toxic")
                        + records_at docs s (lit "very_toxic"))
                       (records_at docs s (lit "non_toxic"))
                       (records_at docs s (lit "slightly_toxic"))
                       (records_at docs s (lit "very_toxic"))) as Hshape.
  { intros s counts Hin. rewrite (Hentries s counts Hin).
    unfold counts_for, records_at. now rewrite !Hsum. }
  destruct (with_percentages_spec site_stats) with (acc := @nil (str * SiteStats))
    as (final & Hrun & Hget & _ & Hin).
  { rewrite Forall_forall. intros [s counts] Hi. simpl.
    rewrite (Hshape s counts Hi). eauto. }
  rewrite Hpct in Hrun. injection Hrun as <-.
  split.
  - intros site st Hst.
    apply Hget in Hst as [Hst | (t & a & b & c & Hi & Hpos & ->)]; [discriminate|].
    pose proof (Hshape _ _ Hi) as Heq. unfold mk_counts in Heq.
    injection Heq as -> -> -> ->. auto.
  - intros site. split.
    + intros Hne. destruct (dict_get stats site) as [st|] eqn:E; [|contradiction].
      apply Hget in E as [E | (t & a & b & c & Hi & _ & _)]; [discriminate|].
      assert (In site (List.map fst site_stats)) as Hs
        by (change site with (fst (site, mk_counts t a b c)); now apply in_map).
      apply Hsites in Hs. apply in_map_iff in Hs as (g & Hg & Hgin).
      assert (In (group_key g) (List.map group_key (aggregate docs))) as Hk
        by now apply in_map.
      apply Hkeys in Hk as (d & Hd & Hk). injection Hk as Hk _.
      exists d. split; [exact Hd | congruence].
    + intros (d & Hd & Hsite).
      assert (In (Some site) (List.map g_site (aggregate docs))) as Hs.
      { assert (In (d_site d, d_toxicity_level d)
                   (List.map group_key (aggregate docs))) as Hk
          by (apply Hkeys; eauto).
        apply in_map_iff in Hk as (g & Hg & Hgin). injection Hg as Hg _.
        apply in_map_iff. exists g. split; [congruence | exact Hgin]. }
      apply Hsites in Hs. apply in_map_iff in Hs as ([s counts] & Hfst & Hi).
      simpl in Hfst. subst s. pose proof (Hshape _ _ Hi) as Heq.
      rewrite Heq in Hi. eapply Hin; [exact Hi|].
      rewrite Forall_forall in Hlevels. specialize (Hlevels d Hd).
      pose proof (count_where_nonneg (doc_at (Some site) (lit "non_toxic")) docs).
      pose proof (count_where_nonneg (doc_at (Some site) (lit "slightly_toxic")) docs).
      pose proof (count_where_nonneg (doc_at (Some site) (lit "very_toxic")) docs).
      assert (1 <= count_where (doc_at (Some site) (d_toxicity_level d)) docs) as Hone.
      { apply (count_where_pos _ _ d Hd). unfold doc_at. rewrite Hsite. simpl.
        now rewrite !str_eqb_refl. }
      unfold records_at.
      destruct Hlevels as [E | [E | [E | []]]]; rewrite <- E in Hone; lia.
Qed.

Lemma percentage_close (count total : Z) :
  0 <= count <= total -> 0 < total ->
  (Qabs (percentage count total - inject_Z count / inject_Z total * 100)
     <= 5000001 # 1000000000)%Q.
Proof.
  intros Hc Hpos.
  destruct (percentage_near count total Hc Hpos) as (r & _ & Hr & Hp).
  set (e := (inject_Z count / inject_Z total)%Q) in *. clearbody e.
  set (p := percentage count total) in *. clearbody p.
  assert ((r # 100) * 100 == inject_Z r)%Q as Heq by (unfold Qeq; simpl; lia).
  set (d := (r # 100)%Q) in *. clearbody d.
  apply Qabs_Qle_condition in Hr as [Hr1 Hr2].
  apply Qabs_Qle_condition in Hp as [Hp1 Hp2].
  apply Qabs_Qle_condition. split; lra.
Qed.

Lemma records_at_nonneg (docs : list PredictionDoc) (site level : str) :
  0 <= records_at docs site level.
Proof. unfold records_at. apply count_where_nonneg. Qed.

(** C5.  Let every prediction in the store carry one of the three levels.
    If every prediction also carries a site, [get_statistics_by_site]
    returns.  Whenever it returns: for every site of the result, the three
    level counts are the numbers of predictions of that site at each level,
    they add up to [total_articles], which is positive; each percentage is
    what [round(count / total * 100, 2)] gives on doubles, the quotient,
    the product and the result being each the nearest double, and it is
    within 0.005000001 of the exact count over the total times 100; the
    three percentages add up to 100 within 0.015; and the sites of the
    result are exactly the sites that have a prediction. *)
Theorem site_statistics_invariants (w : World) :
  Forall (fun d => In (d_toxicity_level d) levels) (predictions w) ->
  (Forall (fun d => d_site d <> None) (predictions w) ->
   exists w' stats, get_statistics_by_site w = (w', Ok stats)) /\
  (forall (w' : World) (stats : dict SiteStats),
     get_statistics_by_site w = (w', Ok stats) ->
     (forall (site : str) (st : SiteStats),
        dict_get stats site = Some st ->
        non_toxic_count st + slightly_toxic_count st + very_toxic_count st
          = total_articles st /\
        0 < total_articles st /\
        non_toxic_count st = records_at (predictions w) site (lit "non_toxic") /\
        slightly_toxic_count st = records_at (predictions w) site (lit "slightly_toxic") /\
        very_toxic_count st = records_at (predictions w) site (lit "very_toxic") /\
        (forall (count : Z) (pct : Q),
           In (count, pct)
              [(non_toxic_count st, non_toxic_pct st);
               (slightly_toxic_count st, slightly_toxic_pct st);
               (very_toxic_count st, very_toxic_pct st)] ->
           pct = fl64 (Qround_digits
                         (fl64 (fl64 (inject_Z count / inject_Z (total_articles st))
                                * 100)) 2) /\
           (Qabs (pct - inject_Z count / inject_Z (total_articles st) * 100)
            <= 5000001 # 1000000000)%Q) /\
        (Qabs (non_toxic_pct st + slightly_toxic_pct st + very_toxic_pct st - 100)
         <= 15 # 1000)%Q) /\
     (forall site : str,
        dict_get stats site <> None <->
        exists d, In d (predictions w) /\ d_site d = Some site)).
Proof.
  intros Hlevels. split.
  - intros Hsites.
    destruct (aggregate_spec (predictions w)) as (Hnd & Hsum & Hkeys).
    assert (Forall well_formed_group (aggregate (predictions w))) as Hwf.
    { apply aggregate_well_formed; [exact Hlevels|].
      rewrite Forall_forall in *. intros g Hg.
      assert (In (group_key g) (List.map group_key (aggregate (predictions w)))) as Hk
        by now apply in_map.
      apply Hkeys in Hk as (d & Hd & Hk). injection Hk as <- _. now apply Hsites. }
    destruct (site_stats_loop_spec (aggregate (predictions w)) [] [] Hnd Hwf)
      as (ss & Hloop & _ & _ & Hentries).
    { apply site_stats_of_nil. }
    destruct (with_percentages_spec ss) with (acc := @nil (str * SiteStats))
      as (stats & Hrun & _).
    { rewrite Forall_forall. intros [s counts] Hi. simpl.
      rewrite (Hentries s counts Hi). unfold counts_for. eauto. }
    destruct (get_statistics_run w ss stats Hloop Hrun) as (w' & Hget & _).
    eauto.
  - intros w' stats Hrun.
    apply get_statistics_inv in Hrun as (ss & Hloop & Hpct).
    destruct (statistics_entries (predictions w) ss stats Hlevels Hloop Hpct)
      as [Hentries Hsites].
    split; [|exact Hsites].
    intros site st Hst. destruct (Hentries site st Hst) as [Hpos ->].
    cbn [site_entry total_articles non_toxic_count slightly_toxic_count very_toxic_count
         non_toxic_pct slightly_toxic_pct very_toxic_pct].
    pose proof (records_at_nonneg (predictions w) site (lit "non_toxic")) as Ha.
    pose proof (records_at_nonneg (predictions w) site (lit "slightly_toxic")) as Hb.
    pose proof (records_at_nonneg (predictions w) site (lit "very_toxic")) as Hc.
    set (a := records_at (predictions w) site (lit "non_toxic")) in *.
    set (b := records_at (predictions w) site (lit "slightly_toxic")) in *.
    set (c := records_at (predictions w) site (lit "very_toxic")) in *.
    clearbody a b c.
    split; [reflexivity|]. split; [exact Hpos|].
    do 3 (split; [reflexivity|]).
    split; [|now apply percentages_sum].
    intros count pct Hin.
    assert (0 <= count <= a + b + c /\ pct = percentage count (a + b + c))
      as [Hcount ->].
    { destruct Hin as [E | [E | [E | []]]]; injection E as <- <-;
        (split; [lia | reflexivity]). }
    split; [reflexivity | now apply percentage_close].
Qed.

Lemma site_statistics_invariants_witness :
  Forall (fun d => In (d_toxicity_level d) levels) (predictions sample_store) /\
  snd (get_statistics_by_site sample_store) = Ok sample_stats /\
  forall (site : str) (st : SiteStats),
    dict_get sample_stats site = Some st ->
    non_toxic_count st + slightly_toxic_count st + very_toxic_count st
      = total_articles st /\
    (Qabs (very_toxic_pct st
           - inject_Z (very_toxic_count st) / inject_Z (total_articles st) * 100)
     <= 5000001 # 1000000000)%Q /\
    (Qabs (non_toxic_pct st + slightly_toxic_pct st + very_toxic_pct st - 100)
     <= 15 # 1000)%Q.
Proof.
  assert (Forall (fun d => In (d_toxicity_level d) levels) (predictions sample_store))
    as Hlevels.
  { unfold sample_store, sample_predictions, predictions.
    repeat apply Forall_cons; try apply Forall_nil; vm_compute; tauto. }
  assert (snd (get_statistics_by_site sample_store) = Ok sample_stats) as H
    by (vm_compute; reflexivity).
  split; [exact Hlevels|]. split; [exact H|].
  destruct (get_statistics_by_site sample_store) as [w1 r] eqn:E.
  simpl in H. subst r.
  destruct (site_statistics_invariants sample_store Hlevels) as [_ Hinv].
  destruct (Hinv w1 sample_stats E) as [Hentries _].
  intros site st Hst.
  destruct (Hentries site st Hst) as (H1 & _ & _ & _ & _ & Hpct & Hsum).
  split; [exact H1|]. split; [|exact Hsum].
  apply (Hpct (very_toxic_count st) (very_toxic_pct st)).
  right. right. left. reflexivity.
Defined.

(* ------------------------------------------------------------------ *)
(** ** [sorted(..., reverse=True)] *)

Section SortedReverse.
Context {A : Type} (key : A -> Q).

Lemma insert_desc_perm (x : A) (l : list A) :
  Permutation (insert_desc key x l) (x :: l).
Proof.
  induction l as [|y l IH]; simpl; [reflexivity|].
  destruct (Qle_bool (key y) (key x)); [reflexivity|].
  rewrite IH. apply perm_swap.
Qed.

Lemma sorted_reverse_perm (l : list A) : Permutation (sorted_reverse key l) l.
Proof.
  induction l as [|x l IH]; simpl; [reflexivity|].
  rewrite insert_desc_perm. now constructor.
Qed.

Lemma before_trans (x y z : A) : before key x y -> before key y z -> before key x z.
Proof. unfold before. intros H1 H2. eapply Qle_trans; eauto. Qed.

Lemma insert_desc_sorted (x : A) (l : list A) :
  StronglySorted (before key) l -> StronglySorted (before key) (insert_desc key x l).
Proof.
  induction 1 as [|y l Hl IH Hy]; simpl.
  - repeat constructor.
  - destruct (Qle_bool (key y) (key x)) eqn:E.
    + apply Qle_bool_iff in E. constructor; [now constructor|].
      constructor; [exact E|].
      rewrite Forall_forall in *. intros z Hz.
      apply (before_trans x y z); [exact E | now apply Hy].
    + assert (before key y x) as Hyx.
      { unfold before. apply Qlt_le_weak. apply Qnot_le_lt.
        intros H. apply Qle_bool_iff in H. congruence. }
      constructor; [exact IH|].
      rewrite Forall_forall in *. intros z Hz.
      apply (Permutation_in _ (insert_desc_perm x l)) in Hz as [<- | Hz];
        [exact Hyx | now apply Hy].
Qed.

Lemma sorted_reverse_sorted (l : list A) :
  StronglySorted (before key) (sorted_reverse key l).
Proof.
  induction l as [|x l IH]; simpl; [constructor | now apply insert_desc_sorted].
Qed.

(** Items of equal key keep the order they had. *)
Lemma insert_desc_stable (k : Q) (x : A) (l : list A) :
  filter (fun y => Qeq_bool (key y) k) (insert_desc key x l)
  = filter (fun y => Qeq_bool (key y) k) (x :: l).
Proof.
  induction l as [|y l IH]; simpl; [reflexivity|].
  destruct (Qle_bool (key y) (key x)) eqn:E; [reflexivity|].
  simpl. rewrite IH. simpl.
  destruct (Qeq_bool (key x) k) eqn:Ex; [|reflexivity].
  destruct (Qeq_bool (key y) k) eqn:Ey; [|reflexivity].
  exfalso. apply Qeq_bool_iff in Ex, Ey.
  assert (Qle_bool (key y) (key x) = true) as Hle.
  { apply Qle_bool_iff. rewrite Ex, Ey. apply Qle_refl. }
  congruence.
Qed.

Lemma sorted_reverse_stable (k : Q) (l : list A) :
  filter (fun y => Qeq_bool (key y) k) (sorted_reverse key l)
  = filter (fun y => Qeq_bool (key y) k) l.
Proof.
  induction l as [|x l IH]; simpl; [reflexivity|].
  rewrite insert_desc_stable. simpl. now rewrite IH.
Qed.

Lemma sorted_reverse_head (l : list A) (top : A) (rest : list A) :
  sorted_reverse key l = top :: rest ->
  forall x, In x l -> before key top x.
Proof.
  intros Hs x Hx.
  pose proof (sorted_reverse_sorted l) as Hsorted. rewrite Hs in Hsorted.
  apply (Permutation_in _ (Permutation_sym (sorted_reverse_perm l))) in Hx.
  rewrite Hs in Hx. inversion Hsorted as [|? ? _ Hall]; subst.
  destruct Hx as [<- | Hx]; [apply Qle_refl|].
  rewrite Forall_forall in Hall. now apply Hall.
Qed.

Lemma sorted_reverse_pair (a b : A) :
  (key b < key a)%Q ->
  sorted_reverse key [a; b] = [a; b] /\ sorted_reverse key [b; a] = [a; b].
Proof.
  intros Hlt. unfold sorted_reverse. simpl.
  assert (Qle_bool (key b) (key a) = true) as ->
    by (apply Qle_bool_iff; now apply Qlt_le_weak).
  assert (Qle_bool (key a) (key b) = false) as ->.
  { destruct (Qle_bool (key a) (key b)) eqn:E; [|reflexivity].
    apply Qle_bool_iff in E. exfalso. eapply Qlt_not_le; eauto. }
  split; reflexivity.
Qed.
End SortedReverse.

(* ------------------------------------------------------------------ *)
(** ** [display_statistics] *)

Lemma print_rows (l : list (str * SiteStats)) (w : World) :
  for_each l (fun item => print (PRow (fst item) (snd item))) w
  = (set_stdout w (stdout w ++ List.map row_of l), Ok tt).
Proof.
  revert w. induction l as [|x l IH]; intros w.
  - simpl. rewrite app_nil_r. destruct w; reflexivity.
  - rewrite for_each_cons. cbv [print modify]. rewrite IH.
    unfold set_stdout. cbn. now rewrite <- app_assoc.
Qed.

Lemma display_run (w w1 : World) (stats : dict SiteStats) :
  get_statistics_by_site w = (w1, Ok stats) ->
  stats <> [] ->
  exists top rest,
    sorted_reverse combined_toxicity stats = top :: rest /\
    display_statistics w
    = (set_stdout w1
         (stdout w1 ++ [PTableHeader]
          ++ List.map row_of (top :: rest)
          ++ [PTableEnd; most_toxic_line top]), Ok tt).
Proof.
  intros Hget Hne. unfold display_statistics. unfold bind at 1. rewrite Hget.
  destruct stats as [|s0 stats0]; [contradiction|].
  set (stats := s0 :: stats0) in *.
  destruct (sorted_reverse combined_toxicity stats) as [|top rest] eqn:Hs.
  { pose proof (sorted_reverse_perm combined_toxicity stats) as Hp.
    rewrite Hs in Hp. apply Permutation_nil in Hp. discriminate. }
  exists top, rest. split; [reflexivity|].
  unfold bind. cbv [print modify] . rewrite print_rows.
  unfold set_stdout, most_toxic_line, combined_toxicity. cbn.
  rewrite <- !app_assoc. reflexivity.
Qed.

(** C8.  When [get_statistics_by_site] returns a non-empty mapping,
    [display_statistics] prints the header, one row per site in the order
    of [sorted(..., reverse=True)] on [slightly_toxic_pct + very_toxic_pct],
    and names the first site of that order as the most toxic.  That order
    is a rearrangement of the sites by descending combined percentage in
    which sites of equal combined percentage keep their order, so no site
    has a higher combined percentage than the one named; and of two sites
    with different combined percentages the higher one is listed first and
    named, whichever came first in the mapping. *)
Theorem display_most_toxic_first (w w1 : World) (stats : dict SiteStats) :
  get_statistics_by_site w = (w1, Ok stats) ->
  stats <> [] ->
  exists (top : str * SiteStats) (rest : list (str * SiteStats)),
    display_statistics w
    = (set_stdout w1
         (stdout w1 ++ [PTableHeader]
          ++ List.map row_of (top :: rest)
          ++ [PTableEnd; most_toxic_line top]), Ok tt) /\
    top :: rest = sorted_reverse combined_toxicity stats /\
    Permutation (top :: rest) stats /\
    StronglySorted (before combined_toxicity) (top :: rest) /\
    (forall k, filter (fun y => Qeq_bool (combined_toxicity y) k) (top :: rest)
               = filter (fun y => Qeq_bool (combined_toxicity y) k) stats) /\
    (forall item, In item stats ->
                  (combined_toxicity item <= combined_toxicity top)%Q) /\
    (forall a b,
       stats = [a; b] \/ stats = [b; a] ->
       (combined_toxicity b < combined_toxicity a)%Q ->
       top = a /\ rest = [b]).
Proof.
  intros Hget Hne.
  destruct (display_run w w1 stats Hget Hne) as (top & rest & Hs & Hrun).
  exists top, rest. split; [exact Hrun|]. rewrite <- Hs.
  split; [reflexivity|]. split; [apply sorted_reverse_perm|].
  split; [apply sorted_reverse_sorted|].
  split; [intros k; apply sorted_reverse_stable|].
  split.
  - intros item Hin.
    now apply (sorted_reverse_head combined_toxicity stats top rest).
  - intros a b Hstats Hlt.
    destruct (sorted_reverse_pair combined_toxicity a b Hlt) as [H1 H2].
    destruct Hstats as [-> | ->]; split; congruence.
Qed.

Lemma display_most_toxic_first_witness :
  snd (get_statistics_by_site sample_store) = Ok sample_stats /\
  sample_stats <> [] /\
  exists w' : World,
    display_statistics sample_store = (w', Ok tt) /\
    last (stdout w') PBanner
    = most_toxic_line (lit "a.example", site_entry 3 1 1 1).
Proof.
  assert (snd (get_statistics_by_site sample_store) = Ok sample_stats) as H
    by (vm_compute; reflexivity).
  split; [exact H|]. split; [discriminate|].
  destruct (get_statistics_by_site sample_store) as [w1 r] eqn:E.
  simpl in H. subst r.
  destruct (display_most_toxic_first sample_store w1 sample_stats E)
    as (top & rest & Hrun & _ & _ & _ & _ & _ & Hpair); [discriminate|].
  destruct (Hpair (lit "a.example", site_entry 3 1 1 1)
                  (lit "b.example", site_entry 4 3 0 1)) as [-> ->];
    [right; reflexivity | vm_compute; reflexivity |].
  eexists. split; [exact Hrun|]. cbn [stdout set_stdout].
  match goal with
  | |- context [[PTableEnd; ?m]] => change [PTableEnd; m] with ([PTableEnd] ++ [m])
  end.
  rewrite !app_assoc. apply last_last.
Defined.

(* ------------------------------------------------------------------ *)
(** ** Scenarios *)

(** Segment scores 0.2 and 0.8 over the single toxic label: the document
    score is 0.8, the level [very_toxic], the prediction [toxic]. *)
Example scenario_two_segment_scores :
  exists q,
    toxic_score_of single_label_clf [[2 # 10]; [8 # 10]]%Q = Ok (Fin q) /\
    (q == 8 # 10)%Q /\
    level_of default_config (Fin q) = lit "very_toxic" /\
    prediction_of default_config (Fin q) = lit "toxic".
Proof. eexists. split; [vm_compute; reflexivity|]. repeat split. Qed.

(** A text of 101 words is cut in two segments, and the one toxic word of
    the second segment decides the document score. *)
Example scenario_long_text :
  exists segments q,
    _split_text long_text 100 = Ok segments /\ List.length segments = 2%nat /\
    document_toxic_score sample_clf long_text = Ok (Fin q) /\ (q == 8 # 10)%Q.
Proof.
  eexists. eexists. split; [vm_compute; reflexivity|].
  split; [reflexivity|]. split; [vm_compute; reflexivity | reflexivity].
Qed.

(** Ten predictions for one site, six, three and one per level. *)
Example scenario_ten_records :
  exists st,
    with_percentages
      match site_stats_loop (aggregate ten_predictions) [] with
      | Ok site_stats => site_stats
      | Raise _ => []
      end [] = Ok [(lit "example.com", st)] /\
    total_articles st = 10 /\
    (non_toxic_pct st == 60)%Q /\ (slightly_toxic_pct st == 30)%Q /\
    (very_toxic_pct st == 10)%Q.
Proof. eexists. split; [vm_compute; reflexivity|]. repeat split. Qed.

(** The thresholds are closed on the upper class. *)
Example scenario_boundaries :
  level_of default_config (Fin (3 # 10)) = lit "slightly_toxic" /\
  level_of default_config (Fin (65 # 100)) = lit "very_toxic" /\
  prediction_of default_config (Fin (1 # 2)) = lit "toxic" /\
  level_of default_config NaN = lit "non_toxic".
Proof. repeat split. Qed.

(* ------------------------------------------------------------------ *)
(** * Further properties *)

(** ** [_split_text]: degenerate [max_words], shape of the chunks *)

Lemma range_down_empty (fuel : nat) (i stop step : Z) :
  i <= stop -> range_down fuel i stop step = [].
Proof.
  intros H. destruct fuel; simpl; [reflexivity|].
  destruct (stop <? i) eqn:E; [apply Z.ltb_lt in E; lia | reflexivity].
Qed.

(** X1.  [_split_text] with [max_words = 0] raises the [ValueError] of
    [range] on every text, the blank ones too; with a negative [max_words]
    it returns no chunk at all, whatever the text. *)
Theorem split_text_degenerate_max_words (text : str) (k : Z) :
  (k = 0 -> _split_text text k = Raise ValueError_range_step) /\
  (k < 0 -> _split_text text k = Ok []).
Proof.
  unfold _split_text, py_range. split; intros Hk.
  - subst k. reflexivity.
  - destruct (k =? 0) eqn:E0; [apply Z.eqb_eq in E0; lia|].
    destruct (0 <? k) eqn:E1; [apply Z.ltb_lt in E1; lia|].
    simpl. rewrite range_down_empty by lia. reflexivity.
Qed.

Lemma split_text_degenerate_max_words_witness :
  _split_text (lit "a b c") 0 = Raise ValueError_range_step /\
  _split_text (lit "a b c") (-2) = Ok [].
Proof.
  split.
  - apply (split_text_degenerate_max_words (lit "a b c") 0). reflexivity.
  - apply (split_text_degenerate_max_words (lit "a b c") (-2)). reflexivity.
Defined.

Lemma lstrip_nonspace_head (c : char) (s : str) :
  isspace c = false -> lstrip (c :: s) = c :: s.
Proof. intros H. simpl. now rewrite H. Qed.

Lemma word_head (w : str) :
  is_word w -> exists c s, w = c :: s /\ isspace c = false.
Proof.
  intros [Hne Hw]. destruct w as [|c s]; [contradiction|].
  simpl in Hw. apply andb_true_iff in Hw as [Hc _].
  exists c, s. split; [reflexivity|]. unfold nonspace in Hc.
  now apply negb_true_iff in Hc.
Qed.

Lemma word_rev (w : str) : is_word w -> is_word (rev w).
Proof.
  intros [Hne Hw]. split.
  - intros H. apply (f_equal (@rev char)) in H. rewrite rev_involutive in H.
    simpl in H. contradiction.
  - rewrite forallb_forall in *. intros c Hc. apply Hw. now apply in_rev.
Qed.

Lemma join_head (ws : list str) (w : str) :
  exists rest, join space (w :: ws) = w ++ rest.
Proof.
  destruct ws as [|w2 ws]; simpl.
  - exists []. now rewrite app_nil_r.
  - eexists. reflexivity.
Qed.

Lemma join_last (ws : list str) (w : str) :
  exists front, join space (ws ++ [w]) = front ++ w.
Proof.
  induction ws as [|w0 ws [front IH]].
  - exists []. reflexivity.
  - destruct ws as [|w1 ws].
    + exists (w0 ++ space). simpl. now rewrite <- app_assoc.
    + exists (w0 ++ space ++ front).
      change (join space ((w0 :: w1 :: ws) ++ [w]))
        with (w0 ++ space ++ join space ((w1 :: ws) ++ [w])).
      rewrite IH. now rewrite <- !app_assoc.
Qed.

(** A space-joined run of words has no whitespace at either end. *)
Lemma strip_join (ws : list str) :
  Forall is_word ws -> ws <> [] -> strip (join space ws) = join space ws.
Proof.
  intros Hws Hne. unfold strip.
  assert (lstrip (join space ws) = join space ws) as ->.
  { destruct ws as [|w ws]; [contradiction|].
    inversion Hws as [|? ? Hw _]; subst.
    destruct (word_head w Hw) as (c & s & -> & Hc).
    destruct (join_head ws (c :: s)) as [rest ->].
    simpl. now rewrite Hc. }
  assert (lstrip (rev (join space ws)) = rev (join space ws)) as ->.
  { destruct (exists_last Hne) as (front & w & ->).
    assert (is_word w) as Hw.
    { rewrite Forall_forall in Hws. apply Hws. apply in_or_app. right. now left. }
    destruct (join_last front w) as [pre ->].
    rewrite rev_app_distr.
    destruct (word_head (rev w) (word_rev w Hw)) as (c & s & -> & Hc).
    simpl. now rewrite Hc. }
  apply rev_involutive.
Qed.

(** X2.  For a positive [max_words], every chunk [_split_text] returns has
    at least one word, has no whitespace at its ends, and is its own words
    joined by single spaces: the model is never handed an empty or blank
    segment. *)
Theorem split_text_chunks_are_clean (text : str) (k : Z) (chunks : list str) :
  0 < k ->
  _split_text text k = Ok chunks ->
  Forall (fun c => is_blank c = false /\ strip c = c /\ join space (split c) = c)
         chunks.
Proof.
  intros Hk Hrun.
  destruct (split_text_slices text k Hk) as (sls & Hrun' & Hw & _).
  rewrite Hrun in Hrun'. injection Hrun' as ->.
  apply Forall_map. eapply Forall_impl; [|exact Hw].
  intros sl [Hsl Hne]. repeat split.
  - destruct (is_blank (join space sl)) eqn:E; [|reflexivity].
    apply blank_split in E. rewrite split_join in E by assumption. contradiction.
  - now apply strip_join.
  - now rewrite split_join.
Qed.

Lemma split_text_chunks_are_clean_witness :
  0 < 2 /\
  exists chunks,
    _split_text (lit "  one two   three ") 2 = Ok chunks /\
    Forall (fun c => is_blank c = false /\ strip c = c /\ join space (split c) = c)
           chunks.
Proof.
  split; [lia|]. eexists. split; [vm_compute; reflexivity|].
  apply (split_text_chunks_are_clean (lit "  one two   three ") 2); [lia|].
  vm_compute. reflexivity.
Defined.

(* ------------------------------------------------------------------ *)
(** ** [predict]: degenerate label set, thresholds, model failures *)

Lemma mapM_first_failure {A B} (f : A -> result B) (pre post : list A) (x : A) (e : Exn) :
  Forall (fun a => exists b, f a = Ok b) pre ->
  f x = Raise e ->
  mapM f (pre ++ x :: post) = Raise e.
Proof.
  intros Hpre Hx. induction Hpre as [|a pre [b Hb] _ IH]; simpl.
  - now rewrite Hx.
  - rewrite Hb. simpl. now rewrite IH.
Qed.

Lemma py_max_all_nan (scores : list pyfloat) (m : pyfloat) :
  Forall (fun s => s = NaN) scores -> py_max scores = Ok m -> m = NaN.
Proof.
  intros Hall Hmax. apply py_max_spec in Hmax as [Hin _].
  rewrite Forall_forall in Hall. now apply Hall.
Qed.

(** X4.  With an empty toxic label set, whatever the model returns,
    [predict] reports a [nan] confidence, the level [non_toxic] and the
    prediction [non_toxic]: the mean of an empty slice is [nan] and every
    comparison with it fails.  No exception is raised for it: on any text
    with a word and a model that covers the labels, [predict] returns. *)
Theorem predict_without_toxic_labels
  (cfg : Config) (clf : ToxicityClassifier) (text : str) :
  toxic_labels clf = [] ->
  (model_covers clf -> is_blank text = false ->
   exists r, predict cfg clf text = Ok r) /\
  (forall r, predict cfg clf text = Ok r ->
     confidence r = NaN /\
     toxicity_level r = lit "non_toxic" /\
     prediction r = lit "non_toxic").
Proof.
  intros Hempty. split; [apply predict_returns|].
  intros r Hr.
  apply predict_inv in Hr as (segs & probs & score & labels & _ & _ & Hs & _ & ->).
  unfold toxic_score_of in Hs. inv_bind Hs.
  assert (score = NaN) as ->.
  { apply (py_max_all_nan a); [|exact Hs].
    eapply mapM_Forall; [|exact Ha]. intros row s.
    unfold segment_toxic_score. rewrite Hempty. simpl. congruence. }
  repeat split.
Qed.

Lemma predict_without_toxic_labels_witness :
  toxic_labels (constant_clf [] [9 # 10; 9 # 10; 1 # 10]%Q) = [] /\
  exists r,
    predict default_config (constant_clf [] [9 # 10; 9 # 10; 1 # 10]%Q) (lit "bad")
    = Ok r /\
    confidence r = NaN /\ toxicity_level r = lit "non_toxic" /\
    prediction r = lit "non_toxic".
Proof.
  split; [reflexivity|]. eexists. split; [vm_compute; reflexivity|].
  apply (predict_without_toxic_labels default_config
           (constant_clf [] [9 # 10; 9 # 10; 1 # 10]%Q) (lit "bad"));
    [reflexivity | vm_compute; reflexivity].
Defined.

Lemma pf_ge_inv (x : pyfloat) (t : Q) :
  pf_ge x (Fin t) = true -> exists q, x = Fin q /\ (t <= q)%Q.
Proof.
  destruct x as [|q]; simpl; [discriminate|].
  intros H. exists q. split; [reflexivity | now apply Qle_bool_iff].
Qed.

Lemma pf_ge_mono (x : pyfloat) (t t' : Q) :
  (t' <= t)%Q -> pf_ge x (Fin t) = true -> pf_ge x (Fin t') = true.
Proof.
  intros Hle H. apply pf_ge_inv in H as (q & -> & Hq).
  apply pf_ge_Fin. eapply Qle_trans; eauto.
Qed.

(** X6.  When the thresholds are ordered, slightly toxic at most the
    article threshold at most very toxic, as the defaults 0.3, 0.5 and 0.65
    are, the two answers of [predict] agree: a [toxic] prediction never
    comes with the level [non_toxic], and the level [very_toxic] never
    comes with the prediction [non_toxic]. *)
Theorem prediction_agrees_with_level
  (cfg : Config) (clf : ToxicityClassifier) (text : str) (r : Prediction) :
  (THRESHOLD_SLIGHTLY_TOXIC cfg <= ARTICLE_THRESHOLD cfg)%Q ->
  (ARTICLE_THRESHOLD cfg <= THRESHOLD_VERY_TOXIC cfg)%Q ->
  predict cfg clf text = Ok r ->
  (prediction r = lit "toxic" -> toxicity_level r <> lit "non_toxic") /\
  (toxicity_level r = lit "very_toxic" -> prediction r = lit "toxic").
Proof.
  intros H1 H2 Hr.
  destruct (predict_score _ _ _ _ Hr) as (score & _ & -> & _ & ->).
  unfold prediction_of, level_of. split.
  - destruct (pf_ge score (Fin (ARTICLE_THRESHOLD cfg))) eqn:Ea; [|discriminate].
    intros _. rewrite (pf_ge_mono score _ _ H1 Ea).
    destruct (pf_ge score (Fin (THRESHOLD_VERY_TOXIC cfg))); discriminate.
  - destruct (pf_ge score (Fin (THRESHOLD_VERY_TOXIC cfg))) eqn:Ev.
    + intros _. now rewrite (pf_ge_mono score _ _ H2 Ev).
    + destruct (pf_ge score (Fin (THRESHOLD_SLIGHTLY_TOXIC cfg))); discriminate.
Qed.

Lemma prediction_agrees_with_level_witness :
  (THRESHOLD_SLIGHTLY_TOXIC default_config <= ARTICLE_THRESHOLD default_config)%Q /\
  (ARTICLE_THRESHOLD default_config <= THRESHOLD_VERY_TOXIC default_config)%Q /\
  exists r,
    predict default_config sample_clf (lit "bad") = Ok r /\
    (prediction r = lit "toxic" -> toxicity_level r <> lit "non_toxic") /\
    (toxicity_level r = lit "very_toxic" -> prediction r = lit "toxic").
Proof.
  split; [discriminate|]. split; [discriminate|].
  eexists. split; [vm_compute; reflexivity|].
  apply (prediction_agrees_with_level default_config sample_clf (lit "bad"));
    [discriminate | discriminate | vm_compute; reflexivity].
Defined.

(** X7.  Nothing checks the order of the two level thresholds: when the
    very-toxic threshold is not above the slightly-toxic one, [predict]
    never returns the level [slightly_toxic]. *)
Theorem misordered_thresholds_hide_a_level
  (cfg : Config) (clf : ToxicityClassifier) (text : str) (r : Prediction) :
  (THRESHOLD_VERY_TOXIC cfg <= THRESHOLD_SLIGHTLY_TOXIC cfg)%Q ->
  predict cfg clf text = Ok r ->
  toxicity_level r <> lit "slightly_toxic".
Proof.
  intros Hle Hr.
  destruct (predict_score _ _ _ _ Hr) as (score & _ & _ & _ & ->).
  unfold level_of.
  destruct (pf_ge score (Fin (THRESHOLD_VERY_TOXIC cfg))) eqn:Ev; [discriminate|].
  destruct (pf_ge score (Fin (THRESHOLD_SLIGHTLY_TOXIC cfg))) eqn:Es; [|discriminate].
  rewrite (pf_ge_mono score _ _ Hle Es) in Ev. discriminate.
Qed.

Lemma misordered_thresholds_hide_a_level_witness :
  (THRESHOLD_VERY_TOXIC
     {| THRESHOLD_SLIGHTLY_TOXIC := 65 # 100; THRESHOLD_VERY_TOXIC := 3 # 10;
        ARTICLE_THRESHOLD := 1 # 2 |}
   <= THRESHOLD_SLIGHTLY_TOXIC
        {| THRESHOLD_SLIGHTLY_TOXIC := 65 # 100; THRESHOLD_VERY_TOXIC := 3 # 10;
           ARTICLE_THRESHOLD := 1 # 2 |})%Q /\
  exists r,
    predict {| THRESHOLD_SLIGHTLY_TOXIC := 65 # 100; THRESHOLD_VERY_TOXIC := 3 # 10;
               ARTICLE_THRESHOLD := 1 # 2 |} sample_clf (lit "bad") = Ok r /\
    toxicity_level r <> lit "slightly_toxic".
Proof.
  split; [discriminate|]. eexists. split; [vm_compute; reflexivity|].
  apply (misordered_thresholds_hide_a_level
           {| THRESHOLD_SLIGHTLY_TOXIC := 65 # 100; THRESHOLD_VERY_TOXIC := 3 # 10;
              ARTICLE_THRESHOLD := 1 # 2 |} sample_clf (lit "bad"));
    [discriminate | vm_compute; reflexivity].
Defined.

(** X9.  [predict] has no handler around the model call: when the model
    returns a row for the first segments and raises on the next one, that
    exception is what [predict] raises. *)
Theorem predict_propagates_model_failure
  (cfg : Config) (clf : ToxicityClassifier) (text : str)
  (pre post : list str) (seg : str) (e : Exn) :
  _split_text text 100 = Ok (pre ++ seg :: post) ->
  Forall (fun s => exists row rest, _predict_raw clf [s] = Ok (row :: rest)) pre ->
  _predict_raw clf [seg] = Raise e ->
  predict cfg clf text = Raise e.
Proof.
  intros Hsplit Hpre Hseg. unfold predict. rewrite Hsplit. simpl.
  unfold segment_probs_of. rewrite (mapM_first_failure _ pre post seg e).
  - reflexivity.
  - eapply Forall_impl; [|exact Hpre]. intros s (row & rest & ->).
    unfold index. simpl. eauto.
  - now rewrite Hseg.
Qed.

Lemma predict_propagates_model_failure_witness :
  _split_text long_text 100
  = Ok ([join space (repeat (lit "good") 100)] ++ lit "bad" :: []) /\
  predict default_config flaky_clf long_text = Raise (ExternalError 7).
Proof.
  assert (_split_text long_text 100
          = Ok ([join space (repeat (lit "good") 100)] ++ lit "bad" :: [])) as H
    by (vm_compute; reflexivity).
  split; [exact H|].
  apply (predict_propagates_model_failure default_config flaky_clf long_text
           [join space (repeat (lit "good") 100)] [] (lit "bad") (ExternalError 7) H).
  - repeat constructor. eexists. eexists. vm_compute. reflexivity.
  - reflexivity.
Defined.

(* ------------------------------------------------------------------ *)
(** ** [predict]: the range of the confidence *)










(* ------------------------------------------------------------------ *)
(** ** [predict]: the per-label scores *)






(* ------------------------------------------------------------------ *)
(** ** Whitespace around a text *)

Lemma split_lstrip (s : str) : split (lstrip s) = split s.
Proof.
  unfold split. induction s as [|c s IH]; simpl; [reflexivity|].
  destruct (isspace c) eqn:E; [exact IH|].
  simpl. now rewrite E.
Qed.

Lemma lstrip_decomp (s : str) :
  exists ws, s = ws ++ lstrip s /\ forallb isspace ws = true.
Proof.
  induction s as [|c s (ws & Hs & Hws)]; simpl.
  - exists []. split; reflexivity.
  - destruct (isspace c) eqn:E.
    + exists (c :: ws). simpl. rewrite E, Hws. split; [now f_equal | reflexivity].
    + exists []. split; reflexivity.
Qed.

Lemma split_from_trailing (s ws acc : str) :
  forallb isspace ws = true -> split_from acc (s ++ ws) = split_from acc s.
Proof.
  intros Hws. revert acc. induction s as [|c s IH]; intros acc; simpl.
  - destruct ws as [|c ws]; [reflexivity|].
    simpl in Hws. apply andb_true_iff in Hws as [Hc Hws]. simpl. rewrite Hc.
    rewrite (split_from_all_space ws Hws). destruct acc; reflexivity.
  - destruct (isspace c); [destruct acc; now rewrite IH | apply IH].
Qed.

Lemma split_strip (s : str) : split (strip s) = split s.
Proof.
  unfold strip. rewrite <- (split_lstrip s).
  destruct (lstrip_decomp (rev (lstrip s))) as (ws & Hs & Hws).
  apply (f_equal (@rev char)) in Hs. rewrite rev_involutive, rev_app_distr in Hs.
  rewrite Hs at 2. unfold split. symmetry. apply split_from_trailing.
  rewrite forallb_forall in *. intros c Hc. apply Hws. now apply in_rev.
Qed.

Lemma is_blank_strip (s : str) : is_blank s = true <-> strip s = [].
Proof.
  unfold is_blank. split.
  - destruct s as [|c t]; [reflexivity|].
    destruct (strip (c :: t)); [reflexivity | discriminate].
  - intros H. destruct s; [reflexivity | now rewrite H].
Qed.

Lemma strip_changes_nothing_aux
  (cfg : Config) (clf : ToxicityClassifier) (text : str) :
  (forall k, _split_text (strip text) k = _split_text text k) /\
  predict cfg clf (strip text) = predict cfg clf text.
Proof.
  assert (forall k', _split_text (strip text) k' = _split_text text k') as H.
  { intros k'. unfold _split_text. now rewrite split_strip. }
  split; [exact H|]. unfold predict. now rewrite H.
Qed.

(** X3.  Whitespace around a text does not count: [_split_text] and
    [predict] give on the stripped text what they give on the text. *)
Theorem strip_changes_nothing
  (cfg : Config) (clf : ToxicityClassifier) (text : str) (k : Z) :
  _split_text (strip text) k = _split_text text k /\
  predict cfg clf (strip text) = predict cfg clf text.
Proof.
  assert (forall k', _split_text (strip text) k' = _split_text text k') as H.
  { intros k'. unfold _split_text. now rewrite split_strip. }
  split; [apply H|]. unfold predict. now rewrite H.
Qed.

(* ------------------------------------------------------------------ *)
(** ** [POST /predict] *)

Lemma is_white_space_isspace (c : char) :
  is_white_space c = true -> isspace c = true.
Proof. unfold is_white_space. intros H. now apply andb_true_iff in H as [H _]. Qed.

Lemma split_ltrim (s : str) : split (ltrim s) = split s.
Proof.
  unfold split. induction s as [|c s IH]; simpl; [reflexivity|].
  destruct (is_white_space c) eqn:E; [|reflexivity].
  rewrite (is_white_space_isspace c E). exact IH.
Qed.

Lemma ltrim_decomp (s : str) :
  exists ws, s = ws ++ ltrim s /\ forallb is_white_space ws = true.
Proof.
  induction s as [|c s (ws & Hs & Hws)]; simpl.
  - exists []. split; reflexivity.
  - destruct (is_white_space c) eqn:E.
    + exists (c :: ws). simpl. rewrite E, Hws. split; [now f_equal | reflexivity].
    + exists []. split; reflexivity.
Qed.

Lemma split_trim (s : str) : split (trim s) = split s.
Proof.
  unfold trim. rewrite <- (split_ltrim s).
  destruct (ltrim_decomp (rev (ltrim s))) as (ws & Hs & Hws).
  apply (f_equal (@rev char)) in Hs. rewrite rev_involutive, rev_app_distr in Hs.
  rewrite Hs at 2. unfold split. symmetry. apply split_from_trailing.
  rewrite forallb_forall in *. intros c Hc.
  apply is_white_space_isspace, Hws. now apply in_rev.
Qed.

Lemma ltrim_nil_iff (s : str) : ltrim s = [] <-> forallb is_white_space s = true.
Proof.
  induction s as [|c s IH]; simpl; [tauto|].
  destruct (is_white_space c); simpl; [exact IH|]. split; discriminate.
Qed.

Lemma trim_nil_iff (s : str) : trim s = [] <-> forallb is_white_space s = true.
Proof.
  unfold trim. split.
  - intros H. apply (f_equal (@rev char)) in H. rewrite rev_involutive in H.
    simpl in H. apply ltrim_nil_iff in H.
    destruct (ltrim_decomp s) as (ws & Hs & Hws).
    rewrite Hs, forallb_app, Hws. simpl.
    rewrite forallb_forall in *. intros c Hc. apply H. now apply in_rev in Hc.
  - intros H. apply ltrim_nil_iff in H. rewrite H. reflexivity.
Qed.

Lemma white_space_without_separator (s : str) :
  forallb isspace s = true ->
  forallb is_white_space s = negb (existsb is_separator s).
Proof.
  induction s as [|c s IH]; simpl; [reflexivity|].
  intros H. apply andb_true_iff in H as [Hc Hs]. rewrite (IH Hs).
  unfold is_white_space. rewrite Hc. simpl. now rewrite negb_orb.
Qed.

Lemma strip_whitespace_split (v : Pydantic) (text : str) :
  split (strip_whitespace v text) = split text.
Proof. destruct v; [apply split_strip | apply split_trim]. Qed.

Lemma predict_strip_whitespace
  (v : Pydantic) (cfg : Config) (clf : ToxicityClassifier) (text : str) :
  predict cfg clf (strip_whitespace v text) = predict cfg clf text.
Proof.
  assert (forall k, _split_text (strip_whitespace v text) k = _split_text text k) as H.
  { intros k. unfold _split_text. now rewrite strip_whitespace_split. }
  unfold predict. now rewrite H.
Qed.

Lemma validate_text_not_blank (v : Pydantic) (text : str) :
  is_blank text = false ->
  validate_text v text = Some (strip_whitespace v text).
Proof.
  intros H. unfold validate_text.
  destruct (strip_whitespace v text) eqn:E; [|reflexivity].
  assert (split text = []) as Hs
    by (rewrite <- (strip_whitespace_split v text), E; reflexivity).
  apply blank_split in Hs. congruence.
Qed.

Lemma predict_blank (cfg : Config) (clf : ToxicityClassifier) (text : str) :
  is_blank text = true -> predict cfg clf text = Raise ValueError_max_empty.
Proof.
  intros Hb. unfold predict. rewrite (split_text_blank text Hb). reflexivity.
Qed.

(** X18.  [POST /predict] on a text with at least one word answers, with
    either release of pydantic, what [predict] gives on the text as sent,
    the stripping of the request changing nothing: a 500 carrying the
    exception when [predict] raises, otherwise a 200 whose [is_toxic] is
    true exactly when the prediction is [toxic], whose score is the
    confidence, and which is never stored.  An empty or whitespace-only
    text is refused with a 422 before the classifier is reached, with one
    exception: under pydantic 2 a whitespace-only text that holds one of
    the separators U+001C to U+001F passes the validation, [predict]
    raises the [ValueError] of [max] on it, and the answer is a 500. *)
Theorem post_predict_outcomes
  (cfg : Config) (clf : ToxicityClassifier) (text : str) :
  (is_blank text = false ->
   forall v : Pydantic,
   (forall e, predict cfg clf text = Raise e ->
              post_predict v cfg clf text = Http500 e) /\
   (forall r, predict cfg clf text = Ok r ->
      exists body,
        post_predict v cfg clf text = Http200 body /\
        (is_toxic body = true <-> prediction r = lit "toxic") /\
        article_score body = confidence r /\
        response_per_label body = per_label r /\
        threshold body = ARTICLE_THRESHOLD cfg /\
        stored body = false /\ response_id body = None)) /\
  (is_blank text = true ->
   post_predict Pydantic1 cfg clf text = Http422 /\
   (existsb is_separator text = false ->
    post_predict Pydantic2 cfg clf text = Http422) /\
   (existsb is_separator text = true ->
    post_predict Pydantic2 cfg clf text = Http500 ValueError_max_empty)).
Proof.
  split; intros Hb.
  - intros v. unfold post_predict. rewrite (validate_text_not_blank v text Hb).
    rewrite predict_strip_whitespace.
    split.
    + intros e ->. reflexivity.
    + intros r ->. eexists. split; [reflexivity|]. cbn.
      repeat split; try reflexivity; apply str_eqb_eq.
  - assert (forallb isspace text = true) as Hspace.
    { apply is_blank_strip in Hb. unfold strip in Hb.
      apply (f_equal (@rev char)) in Hb. rewrite rev_involutive in Hb. simpl in Hb.
      apply lstrip_nil_iff in Hb.
      destruct (lstrip_decomp text) as (ws & Hs & Hws).
      rewrite Hs, forallb_app, Hws. simpl.
      rewrite forallb_forall in *. intros c Hc. apply Hb. now apply in_rev in Hc. }
    pose proof (white_space_without_separator text Hspace) as Hws.
    split; [|split].
    + unfold post_predict, validate_text, strip_whitespace.
      apply is_blank_strip in Hb. now rewrite Hb.
    + intros Hsep. rewrite Hsep in Hws. apply trim_nil_iff in Hws.
      unfold post_predict, validate_text, strip_whitespace. now rewrite Hws.
    + intros Hsep. rewrite Hsep in Hws.
      unfold post_predict, validate_text.
      destruct (strip_whitespace Pydantic2 text) as [|c t] eqn:E.
      * apply trim_nil_iff in E. simpl in Hws. congruence.
      * rewrite <- E, predict_strip_whitespace, (predict_blank cfg clf text Hb).
        reflexivity.
Qed.

Lemma post_predict_outcomes_witness :
  is_blank (lit "   ") = true /\ is_blank (lit " bad ") = false /\
  is_blank [32; 28; 32]%N = true /\
  post_predict Pydantic1 default_config sample_clf (lit "   ") = Http422 /\
  post_predict Pydantic2 default_config sample_clf (lit "   ") = Http422 /\
  post_predict Pydantic1 default_config sample_clf [32; 28; 32]%N = Http422 /\
  post_predict Pydantic2 default_config sample_clf [32; 28; 32]%N
  = Http500 ValueError_max_empty /\
  post_predict Pydantic2 default_config failing_clf (lit " bad ")
  = Http500 (ExternalError 1) /\
  exists body,
    post_predict Pydantic2 default_config sample_clf (lit " bad ") = Http200 body /\
    is_toxic body = true /\ stored body = false.
Proof.
  split; [reflexivity|]. split; [reflexivity|]. split; [reflexivity|].
  destruct (post_predict_outcomes default_config sample_clf (lit "   "))
    as [_ Hblank].
  destruct (post_predict_outcomes default_config sample_clf [32; 28; 32]%N)
    as [_ Hsep].
  destruct (post_predict_outcomes default_config failing_clf (lit " bad "))
    as [H500 _].
  destruct (post_predict_outcomes default_config sample_clf (lit " bad "))
    as [H200 _].
  destruct (Hblank eq_refl) as (Hb1 & Hb2 & _).
  destruct (Hsep eq_refl) as (Hs1 & _ & Hs2).
  split; [exact Hb1|]. split; [apply Hb2; reflexivity|].
  split; [exact Hs1|]. split; [apply Hs2; reflexivity|].
  split; [apply (H500 eq_refl Pydantic2); vm_compute; reflexivity|].
  destruct (H200 eq_refl Pydantic2) as [_ Hok].
  destruct (predict_returns default_config sample_clf (lit " bad ")
              sample_clf_covers eq_refl) as [r Hr].
  destruct (Hok r Hr) as (body & Hbody & Htoxic & _ & _ & _ & Hstored & _).
  exists body. repeat split; try assumption.
  apply Htoxic. revert Hr. vm_compute. intros [= <-]. reflexivity.
Defined.

(* ------------------------------------------------------------------ *)
(** ** [GET /stats] *)

Lemma find_latest_snoc (docs : list StatisticsDoc) (d : StatisticsDoc) :
  find_latest (docs ++ [d]) = later_of (find_latest docs) d.
Proof. unfold find_latest. now rewrite fold_left_app. Qed.

Lemma find_latest_spec (docs : list StatisticsDoc) :
  match find_latest docs with
  | None => docs = []
  | Some d =>
      In d docs /\
      forall d', In d' docs -> (computed_at d' <= computed_at d)%nat
  end.
Proof.
  induction docs as [|x docs IH] using rev_ind; [reflexivity|].
  rewrite find_latest_snoc. destruct (find_latest docs) as [b|]; simpl.
  - destruct IH as [Hin Hmax].
    destruct (Nat.ltb (computed_at b) (computed_at x)) eqn:E.
    + apply Nat.ltb_lt in E. split; [apply in_or_app; right; now left|].
      intros d' Hd'. apply in_app_or in Hd' as [Hd' | [<- | []]]; [|lia].
      specialize (Hmax d' Hd'). lia.
    + apply Nat.ltb_ge in E. split; [apply in_or_app; now left|].
      intros d' Hd'. apply in_app_or in Hd' as [Hd' | [<- | []]]; [|lia].
      now apply Hmax.
  - subst docs. simpl. split; [now left|].
    intros d' [<- | []]. lia.
Qed.

(** X20.  [GET /stats] serves the statistics of a snapshot that no
    snapshot is later than, and answers 404 exactly when the collection
    holds no snapshot or that snapshot is an empty mapping. *)
Theorem stats_json_serves_latest (w : World) :
  (forall stats,
     stats_json w = Http200 stats ->
     stats <> [] /\
     exists doc,
       In doc (statistics w) /\ statistics_of doc = stats /\
       forall d', In d' (statistics w) -> (computed_at d' <= computed_at doc)%nat) /\
  (stats_json w = Http404 <->
   statistics w = [] \/ get_latest_statistics w = Some []).
Proof.
  unfold stats_json, get_latest_statistics.
  pose proof (find_latest_spec (statistics w)) as H.
  destruct (find_latest (statistics w)) as [doc|].
  - destruct H as [Hin Hmax]. split.
    + intros stats Hs. destruct (statistics_of doc) as [|e rest] eqn:E; [discriminate|].
      injection Hs as <-. split; [discriminate|]. exists doc. auto.
    + destruct (statistics_of doc) as [|e rest].
      * split; [intros _; now right | reflexivity].
      * split; [discriminate|]. intros [Hnil | Hs]; [|discriminate].
        rewrite Hnil in Hin. destruct Hin.
  - split; [discriminate|]. split; [intros _; now left | reflexivity].
Qed.

(* ------------------------------------------------------------------ *)
(** ** [get_statistics_by_site] and the snapshot it saves *)

Lemma save_statistics_effects (stats : dict SiteStats) (w : World) :
  exists w',
    _save_statistics stats w = (w', Ok tt) /\
    predictions w' = predictions w /\ articles w' = articles w /\
    clock w' = S (clock w) /\ classifier_calls w' = classifier_calls w /\
    ((hd None (faults w) = None /\
      statistics w'
        = statistics w ++ [{| computed_at := clock w; statistics_of := stats |}] /\
      stdout w' = stdout w ++ [PStatsSaved] /\ faults w' = tl (faults w))
     \/
     (exists e rest,
        faults w = Some e :: rest /\ statistics w' = statistics w /\
        stdout w' = stdout w ++ [PStatsSaveError e] /\ faults w' = rest)).
Proof.
  unfold _save_statistics.
  cbv [bind datetime_now try_except insert_statistics next_fault print modify raise].
  cbn [faults set_clock].
  destruct (faults w) as [|[e|] rest] eqn:Hf; eexists; (split; [reflexivity|]);
    cbn; repeat split.
  - left. repeat split. now rewrite Hf.
  - right. exists e, rest. repeat split.
  - left. repeat split.
Qed.

Lemma get_statistics_effects (w w' : World) (stats : dict SiteStats) :
  get_statistics_by_site w = (w', Ok stats) ->
  predictions w' = predictions w /\ articles w' = articles w /\
  clock w' = S (clock w) /\ classifier_calls w' = classifier_calls w /\
  ((hd None (faults w) = None /\
    statistics w'
      = statistics w ++ [{| computed_at := clock w; statistics_of := stats |}] /\
    stdout w' = stdout w ++ [PStatsSaved] /\ faults w' = tl (faults w))
   \/
   (exists e rest,
      faults w = Some e :: rest /\ statistics w' = statistics w /\
      stdout w' = stdout w ++ [PStatsSaveError e] /\ faults w' = rest)).
Proof.
  unfold get_statistics_by_site. cbv [bind gets lift ret].
  destruct (site_stats_loop _ _) as [ss|e]; [|discriminate].
  destruct (with_percentages ss []) as [st|e]; [|discriminate].
  destruct (save_statistics_effects st w) as (w1 & -> & H).
  intros [= <- <-]. exact H.
Qed.

(** X14.  A failure to save the snapshot is printed, not raised:
    whenever [get_statistics_by_site] returns a mapping, it returns that
    mapping whatever the store answers to the insertion.  The predictions
    are left as they were; when the insertion goes through, exactly one
    snapshot, holding the returned mapping and the time of the call, is
    added; when it raises, no snapshot is added and the error is printed. *)
Theorem snapshot_failure_is_swallowed (w w' : World) (stats : dict SiteStats) :
  get_statistics_by_site w = (w', Ok stats) ->
  predictions w' = predictions w /\
  (hd None (faults w) = None ->
   statistics w'
     = statistics w ++ [{| computed_at := clock w; statistics_of := stats |}] /\
   stdout w' = stdout w ++ [PStatsSaved]) /\
  (forall e rest,
     faults w = Some e :: rest ->
     statistics w' = statistics w /\ stdout w' = stdout w ++ [PStatsSaveError e]) /\
  (forall f, exists w2, get_statistics_by_site (set_faults w f) = (w2, Ok stats)).
Proof.
  intros Hrun.
  assert (forall f, exists w2,
            get_statistics_by_site (set_faults w f) = (w2, Ok stats)) as Hany.
  { intros f. pose proof Hrun as Hinv.
    apply get_statistics_inv in Hinv as (ss & Hloop & Hpct).
    destruct (get_statistics_run (set_faults w f) ss stats Hloop Hpct)
      as (w2 & H2 & _). eauto. }
  destruct (get_statistics_effects w w' stats Hrun)
    as (Hp & _ & _ & _ & [(Hf & Hs & Ho & _) | (e0 & rest0 & Hf & Hs & Ho & _)]).
  - split; [exact Hp|]. split; [auto|]. split; [|exact Hany].
    intros e rest Hf'. rewrite Hf' in Hf. discriminate.
  - split; [exact Hp|]. split; [|split; [|exact Hany]].
    + intros Hnone. rewrite Hf in Hnone. discriminate.
    + intros e rest Hf'. rewrite Hf in Hf'. injection Hf' as <- _. auto.
Qed.

Lemma snapshot_failure_is_swallowed_witness :
  exists w' w2,
    get_statistics_by_site sample_store = (w', Ok sample_stats) /\
    List.length (statistics w') = 1%nat /\
    get_statistics_by_site (set_faults sample_store [Some (ExternalError 3)])
    = (w2, Ok sample_stats).
Proof.
  assert (snd (get_statistics_by_site sample_store) = Ok sample_stats) as H
    by (vm_compute; reflexivity).
  destruct (get_statistics_by_site sample_store) as [w' r] eqn:E.
  simpl in H. subst r.
  destruct (snapshot_failure_is_swallowed sample_store w' sample_stats E)
    as (_ & Hsaved & _ & Hany).
  destruct (Hany [Some (ExternalError 3)]) as [w2 H2].
  destruct (Hsaved eq_refl) as [Hs _].
  exists w', w2. repeat split; [|exact H2]. rewrite Hs. reflexivity.
Defined.

Lemma saved_statistics_are_latest_aux (w w' : World) (stats : dict SiteStats) :
  snapshots_in_past w ->
  hd None (faults w) = None ->
  get_statistics_by_site w = (w', Ok stats) ->
  get_latest_statistics w' = Some stats /\
  snapshots_in_past w'.
Proof.
  intros Hpast Hf Hrun.
  destruct (get_statistics_effects w w' stats Hrun)
    as (_ & _ & Hclock & _ & [(_ & Hs & _ & _) | (e & rest & Hf' & _)]);
    [|rewrite Hf' in Hf; discriminate].
  unfold snapshots_in_past in *. split.
  - unfold get_latest_statistics. rewrite Hs, find_latest_snoc.
    pose proof (find_latest_spec (statistics w)) as Hl.
    destruct (find_latest (statistics w)) as [b|]; simpl; [|reflexivity].
    destruct Hl as [Hin _]. rewrite Forall_forall in Hpast.
    specialize (Hpast b Hin).
    assert (Nat.ltb (computed_at b) (clock w) = true) as ->
      by now apply Nat.ltb_lt.
    reflexivity.
  - rewrite Hs, Hclock. apply Forall_app. split.
    + eapply Forall_impl; [|exact Hpast]. intros d Hd. simpl in Hd. lia.
    + repeat constructor.
Qed.

(** X19.  Saving then reading back: when the snapshots in the store are
    older than the present time and the insertion goes through, the
    mapping [get_statistics_by_site] returns is the one
    [get_latest_statistics] finds afterwards, and the snapshots are again
    older than the present time. *)
Theorem saved_statistics_are_latest (w w' : World) (stats : dict SiteStats) :
  snapshots_in_past w ->
  hd None (faults w) = None ->
  get_statistics_by_site w = (w', Ok stats) ->
  get_latest_statistics w' = Some stats /\
  snapshots_in_past w'.
Proof.
  intros Hpast Hf Hrun.
  destruct (get_statistics_effects w w' stats Hrun)
    as (_ & _ & Hclock & _ & [(_ & Hs & _ & _) | (e & rest & Hf' & _)]);
    [|rewrite Hf' in Hf; discriminate].
  unfold snapshots_in_past in *. split.
  - unfold get_latest_statistics. rewrite Hs, find_latest_snoc.
    pose proof (find_latest_spec (statistics w)) as Hl.
    destruct (find_latest (statistics w)) as [b|]; simpl; [|reflexivity].
    destruct Hl as [Hin _]. rewrite Forall_forall in Hpast.
    specialize (Hpast b Hin).
    assert (Nat.ltb (computed_at b) (clock w) = true) as ->
      by now apply Nat.ltb_lt.
    reflexivity.
  - rewrite Hs, Hclock. apply Forall_app. split.
    + eapply Forall_impl; [|exact Hpast]. intros d Hd. simpl in Hd. lia.
    + repeat constructor.
Qed.

Lemma saved_statistics_are_latest_witness :
  snapshots_in_past sample_store /\ hd None (faults sample_store) = None /\
  exists w',
    get_statistics_by_site sample_store = (w', Ok sample_stats) /\
    get_latest_statistics w' = Some sample_stats /\
    stats_json w' = Http200 sample_stats.
Proof.
  split; [constructor|]. split; [reflexivity|].
  assert (snd (get_statistics_by_site sample_store) = Ok sample_stats) as H
    by (vm_compute; reflexivity).
  destruct (get_statistics_by_site sample_store) as [w' r] eqn:E.
  simpl in H. subst r.
  destruct (saved_statistics_are_latest sample_store w' sample_stats) as [Hl _];
    [constructor | reflexivity | exact E |].
  exists w'. repeat split; [exact Hl|].
  unfold stats_json. rewrite Hl. reflexivity.
Defined.

Lemma statistics_of_empty_store (w : World) :
  predictions w = [] ->
  exists w', get_statistics_by_site w = (w', Ok []).
Proof.
  intros Hp.
  destruct (get_statistics_run w [] []) as (w' & H & _);
    [rewrite Hp; reflexivity | reflexivity | eauto].
Qed.

(** X17.  With no prediction in the store, [display_statistics] prints
    that no statistics are available, after the line about the snapshot:
    it has saved a snapshot all the same, an empty one.  When the snapshots
    in the store were older than the present time and the insertion went
    through, [GET /stats] then answers 404, whatever the earlier snapshots
    held. *)
Theorem display_without_predictions (w : World) :
  predictions w = [] ->
  exists w' line,
    display_statistics w = (w', Ok tt) /\
    stdout w' = stdout w ++ [line; PNoStatistics] /\
    (hd None (faults w) = None ->
     statistics w'
       = statistics w ++ [{| computed_at := clock w; statistics_of := [] |}] /\
     (snapshots_in_past w -> stats_json w' = Http404)).
Proof.
  intros Hp. destruct (statistics_of_empty_store w Hp) as [w1 Hrun].
  unfold display_statistics. unfold bind at 1. rewrite Hrun.
  cbv [print modify].
  destruct (get_statistics_effects w w1 [] Hrun)
    as (_ & _ & _ & _ & [(Hf & Hs & Ho & _) | (e & rest & Hf & Hs & Ho & _)]).
  - eexists. exists PStatsSaved. split; [reflexivity|].
    cbn [stdout statistics set_stdout]. rewrite Ho, <- app_assoc.
    split; [reflexivity|]. intros _. split; [exact Hs|].
    intros Hpast.
    destruct (saved_statistics_are_latest_aux w w1 [] Hpast Hf Hrun) as [Hl _].
    unfold stats_json, get_latest_statistics in *.
    cbn [statistics set_stdout]. now rewrite Hl.
  - eexists. exists (PStatsSaveError e). split; [reflexivity|].
    cbn [stdout statistics set_stdout]. rewrite Ho, <- app_assoc.
    split; [reflexivity|]. intros Hf'. rewrite Hf in Hf'. discriminate.
Qed.

Lemma display_without_predictions_witness :
  predictions empty_world = [] /\
  exists w',
    display_statistics empty_world = (w', Ok tt) /\
    stdout w' = [PStatsSaved; PNoStatistics] /\
    statistics w' = [{| computed_at := 0%nat; statistics_of := [] |}] /\
    stats_json w' = Http404.
Proof.
  split; [reflexivity|].
  destruct (display_without_predictions empty_world eq_refl)
    as (w' & line & Hrun & Ho & Hs).
  destruct (Hs eq_refl) as [Hstat H404].
  exists w'. split; [exact Hrun|].
  split.
  - rewrite Ho. revert Hrun. vm_compute. intros [= <-]. revert Ho.
    vm_compute. intros [= <-]. reflexivity.
  - split; [exact Hstat | apply H404; constructor].
Defined.

(* ------------------------------------------------------------------ *)
(** ** The entries of the statistics *)

Lemma statistics_return (w : World) :
  Forall (fun d => In (d_toxicity_level d) levels) (predictions w) ->
  Forall (fun d => d_site d <> None) (predictions w) ->
  exists w' stats, get_statistics_by_site w = (w', Ok stats).
Proof.
  intros Hlevels Hsites.
  destruct (aggregate_spec (predictions w)) as (Hnd & Hsum & Hkeys).
  assert (Forall well_formed_group (aggregate (predictions w))) as Hwf.
  { apply aggregate_well_formed; [exact Hlevels|].
    rewrite Forall_forall in *. intros g Hg.
    assert (In (group_key g) (List.map group_key (aggregate (predictions w)))) as Hk
      by now apply in_map.
    apply Hkeys in Hk as (d & Hd & Hk). injection Hk as <- _. now apply Hsites. }
  destruct (site_stats_loop_spec (aggregate (predictions w)) [] [] Hnd Hwf)
    as (ss & Hloop & _ & _ & Hentries); [apply site_stats_of_nil|].
  destruct (with_percentages_spec ss) with (acc := @nil (str * SiteStats))
    as (stats & Hrun & _).
  { rewrite Forall_forall. intros [s counts] Hi. simpl.
    rewrite (Hentries s counts Hi). unfold counts_for. eauto. }
  destruct (get_statistics_run w ss stats Hloop Hrun) as (w' & Hget & _).
  eauto.
Qed.

Lemma statistics_sites (w w' : World) (stats : dict SiteStats) :
  get_statistics_by_site w = (w', Ok stats) ->
  Forall (fun d => d_site d <> None) (predictions w).
Proof.
  intros Hrun. apply get_statistics_inv in Hrun as (ss & Hloop & _).
  apply site_stats_loop_sites in Hloop.
  destruct (aggregate_spec (predictions w)) as (_ & _ & Hkeys).
  rewrite Forall_forall in *. intros d Hd.
  assert (In (d_site d, d_toxicity_level d)
             (List.map group_key (aggregate (predictions w)))) as Hk
    by (apply Hkeys; eauto).
  apply in_map_iff in Hk as (g & Hg & Hgin). injection Hg as <- _.
  now apply Hloop.
Qed.

Lemma count_where_perm (f : PredictionDoc -> bool) (l l' : list PredictionDoc) :
  Permutation l l' -> count_where f l = count_where f l'.
Proof.
  intros H. unfold count_where. f_equal.
  induction H; simpl.
  - reflexivity.
  - destruct (f x); simpl; now rewrite IHPermutation.
  - destruct (f x), (f y); reflexivity.
  - congruence.
Qed.

(** X16.  Every percentage of every entry [get_statistics_by_site]
    returns lies between 0 and 100, and every count between 0 and the
    total of its site. *)
Theorem percentages_in_range (w w' : World) (stats : dict SiteStats) :
  Forall (fun d => In (d_toxicity_level d) levels) (predictions w) ->
  get_statistics_by_site w = (w', Ok stats) ->
  forall site st,
    dict_get stats site = Some st ->
    (0 <= non_toxic_count st <= total_articles st /\
     0 <= slightly_toxic_count st <= total_articles st /\
     0 <= very_toxic_count st <= total_articles st) /\
    (0 <= non_toxic_pct st)%Q /\ (non_toxic_pct st <= 100)%Q /\
    (0 <= slightly_toxic_pct st)%Q /\ (slightly_toxic_pct st <= 100)%Q /\
    (0 <= very_toxic_pct st)%Q /\ (very_toxic_pct st <= 100)%Q.
Proof.
  intros Hlevels Hrun site st Hst.
  apply get_statistics_inv in Hrun as (ss & Hloop & Hpct).
  destruct (statistics_entries (predictions w) ss stats Hlevels Hloop Hpct)
    as [Hentries _].
  destruct (Hentries site st Hst) as [Hpos ->].
  pose proof (count_where_nonneg (doc_at (Some site) (lit "non_toxic")) (predictions w)).
  pose proof (count_where_nonneg (doc_at (Some site) (lit "slightly_toxic"))
                (predictions w)).
  pose proof (count_where_nonneg (doc_at (Some site) (lit "very_toxic")) (predictions w)).
  unfold records_at in *.
  cbn [site_entry total_articles non_toxic_count slightly_toxic_count very_toxic_count
       non_toxic_pct slightly_toxic_pct very_toxic_pct].
  split; [lia|].
  repeat split; apply percentage_range; lia.
Qed.

Lemma sample_store_levels :
  Forall (fun d => In (d_toxicity_level d) levels) (predictions sample_store).
Proof.
  unfold sample_store, sample_predictions, predictions.
  repeat apply Forall_cons; try apply Forall_nil; vm_compute; tauto.
Qed.

Lemma percentages_in_range_witness :
  Forall (fun d => In (d_toxicity_level d) levels) (predictions sample_store) /\
  snd (get_statistics_by_site sample_store) = Ok sample_stats /\
  forall site st,
    dict_get sample_stats site = Some st ->
    (0 <= non_toxic_pct st)%Q /\ (non_toxic_pct st <= 100)%Q.
Proof.
  split; [apply sample_store_levels|].
  assert (snd (get_statistics_by_site sample_store) = Ok sample_stats) as H
    by (vm_compute; reflexivity).
  split; [exact H|].
  destruct (get_statistics_by_site sample_store) as [w' r] eqn:E.
  simpl in H. subst r. intros site st Hst.
  destruct (percentages_in_range sample_store w' sample_stats sample_store_levels E
              site st Hst) as (_ & H0 & H1 & _).
  split; assumption.
Defined.

(** X15.  The entry of a site depends on which predictions are in the
    store, not on their order: on two stores holding the same predictions
    in different orders, [get_statistics_by_site] returns on both or on
    neither, and the two mappings have the same entry under every site. *)
Theorem statistics_ignore_order (w1 w2 w1' : World) (stats1 : dict SiteStats) :
  Permutation (predictions w1) (predictions w2) ->
  Forall (fun d => In (d_toxicity_level d) levels) (predictions w1) ->
  get_statistics_by_site w1 = (w1', Ok stats1) ->
  exists w2' stats2,
    get_statistics_by_site w2 = (w2', Ok stats2) /\
    forall site, dict_get stats2 site = dict_get stats1 site.
Proof.
  intros Hperm Hlevels Hrun1.
  assert (Forall (fun d => In (d_toxicity_level d) levels) (predictions w2)) as Hlevels2.
  { rewrite Forall_forall in *. intros d Hd. apply Hlevels.
    eapply Permutation_in; [apply Permutation_sym; exact Hperm | exact Hd]. }
  assert (Forall (fun d => d_site d <> None) (predictions w2)) as Hsites2.
  { pose proof (statistics_sites w1 w1' stats1 Hrun1) as Hs.
    rewrite Forall_forall in *. intros d Hd. apply Hs.
    eapply Permutation_in; [apply Permutation_sym; exact Hperm | exact Hd]. }
  destruct (statistics_return w2 Hlevels2 Hsites2) as (w2' & stats2 & Hrun2).
  exists w2', stats2. split; [exact Hrun2|].
  apply get_statistics_inv in Hrun1 as (ss1 & Hloop1 & Hpct1).
  apply get_statistics_inv in Hrun2 as (ss2 & Hloop2 & Hpct2).
  destruct (statistics_entries _ ss1 stats1 Hlevels Hloop1 Hpct1) as [He1 Hs1].
  destruct (statistics_entries _ ss2 stats2 Hlevels2 Hloop2 Hpct2) as [He2 Hs2].
  intros site.
  destruct (dict_get stats1 site) as [st1|] eqn:E1;
    destruct (dict_get stats2 site) as [st2|] eqn:E2.
  - destruct (He1 site st1 E1) as [_ ->]. destruct (He2 site st2 E2) as [_ ->].
    unfold records_at. now rewrite !(count_where_perm _ _ _ Hperm).
  - exfalso. assert (dict_get stats2 site <> None) as Hne; [|congruence].
    apply Hs2. assert (dict_get stats1 site <> None) as H1 by congruence.
    apply Hs1 in H1 as (d & Hd & Hsite). exists d. split; [|exact Hsite].
    eapply Permutation_in; eauto.
  - exfalso. assert (dict_get stats1 site <> None) as Hne; [|congruence].
    apply Hs1. assert (dict_get stats2 site <> None) as H2 by congruence.
    apply Hs2 in H2 as (d & Hd & Hsite). exists d. split; [|exact Hsite].
    eapply Permutation_in; [apply Permutation_sym; exact Hperm | exact Hd].
  - reflexivity.
Qed.

Lemma statistics_ignore_order_witness :
  Permutation (predictions sample_store)
              (predictions (set_predictions sample_store (rev sample_predictions))) /\
  exists w1' w2' stats2,
    get_statistics_by_site sample_store = (w1', Ok sample_stats) /\
    get_statistics_by_site (set_predictions sample_store (rev sample_predictions))
    = (w2', Ok stats2) /\
    forall site, dict_get stats2 site = dict_get sample_stats site.
Proof.
  assert (Permutation (predictions sample_store)
            (predictions (set_predictions sample_store (rev sample_predictions))))
    as Hperm by apply Permutation_rev.
  split; [exact Hperm|].
  assert (snd (get_statistics_by_site sample_store) = Ok sample_stats) as H
    by (vm_compute; reflexivity).
  destruct (get_statistics_by_site sample_store) as [w1' r] eqn:E.
  simpl in H. subst r.
  destruct (statistics_ignore_order sample_store
              (set_predictions sample_store (rev sample_predictions)) w1' sample_stats
              Hperm sample_store_levels E) as (w2' & stats2 & H2 & Hsame).
  exists w1', w2', stats2. repeat split; assumption.
Defined.

(* ------------------------------------------------------------------ *)
(** ** [predict_text] on a text with a word *)

(** X10.  On a text with at least one word, [predict_text] calls the
    classifier once.  When [predict] raises, the exception leaves
    [predict_text] (the call is outside its [try]) and nothing is stored.
    When [predict] returns, one insertion is attempted for a document that
    holds the url as given, no site, the first 1000 characters of the
    text and the three answers of [predict]: if it goes through, the store
    grows by that document with its identifier and the result is the
    success dictionary around it; if it raises, the store is left as it
    was and the result is the failure dictionary with the exception and
    the document, which carries the identifier [insert_one] put on it
    before the store refused it. *)
Theorem predict_text_outcomes
  (cfg : Config) (clf : ToxicityClassifier) (text : str) (url : option str)
  (w : World) :
  is_blank text = false ->
  (forall e,
     predict cfg clf text = Raise e ->
     exists w',
       predict_text cfg clf text url w = (w', Raise e) /\
       predictions w' = predictions w /\ faults w' = faults w /\
       classifier_calls w' = classifier_calls w ++ [text]) /\
  (forall r,
     predict cfg clf text = Ok r ->
     exists w' doc,
       d_url doc = url /\ d_site doc = None /\
       d_text doc = firstn 1000 text /\
       (List.length (d_text doc) <= 1000)%nat /\
       d_prediction doc = prediction r /\
       d_confidence doc = confidence r /\
       d_toxicity_level doc = toxicity_level r /\
       classifier_calls w' = classifier_calls w ++ [text] /\
       ((hd None (faults w) = None /\
         predict_text cfg clf text url w
         = (w', Ok (Stored (with_id doc (List.length (predictions w))))) /\
         predictions w'
         = predictions w ++ [with_id doc (List.length (predictions w))])
        \/
        (exists e rest oid,
           faults w = Some e :: rest /\
           predict_text cfg clf text url w
           = (w', Ok (StoreFailed e (with_id doc oid))) /\
           predictions w' = predictions w))).
Proof.
  intros Hb. unfold predict_text. rewrite Hb.
  cbv [bind classifier_predict modify lift datetime_now try_except insert_prediction
       next_fault gets raise ret next_object_id].
  cbn [faults predictions clock set_clock set_classifier_calls].
  split.
  - intros e ->. eexists. split; [reflexivity|]. repeat split.
  - intros r ->.
    destruct (faults w) as [|[e|] rest] eqn:Hf;
      (eexists; exists {| d_url := url; d_site := None; d_title := None;
                      d_text := firstn 1000 text;
                      d_prediction := prediction r;
                      d_confidence := confidence r;
                      d_toxicity_level := toxicity_level r;
                      d_predicted_at := clock w;
                      d_article_id := None; d_id := None |};
       do 7 (split; [first [reflexivity | cbn [d_text]; apply firstn_le_length]|]);
       split;
       [ | first [ left; split; [reflexivity|]; split; reflexivity
                 | right; exists e, rest, (List.length (predictions w));
                   split; [reflexivity|]; split; reflexivity ] ]).
    all: reflexivity.
Qed.

Lemma predict_text_outcomes_witness :
  is_blank (lit "bad") = false /\
  (exists w',
     predict_text default_config failing_clf (lit "bad") None empty_world
     = (w', Raise (ExternalError 1)) /\ predictions w' = []) /\
  (exists w' doc,
     predict_text default_config sample_clf (lit "bad") None empty_world
     = (w', Ok (Stored doc)) /\ predictions w' = [doc] /\
     d_toxicity_level doc = lit "very_toxic") /\
  (exists w' doc,
     predict_text default_config sample_clf (lit "bad") None
       (world_of [] [Some (ExternalError 2)])
     = (w', Ok (StoreFailed (ExternalError 2) doc)) /\ predictions w' = [] /\
     d_id doc <> None).
Proof.
  split; [reflexivity|].
  destruct (predict_text_outcomes default_config failing_clf (lit "bad") None
              empty_world eq_refl) as [Hraise _].
  destruct (predict_text_outcomes default_config sample_clf (lit "bad") None
              empty_world eq_refl) as [_ Hok].
  destruct (predict_text_outcomes default_config sample_clf (lit "bad") None
              (world_of [] [Some (ExternalError 2)]) eq_refl) as [_ Hrefused].
  destruct (predict_returns default_config sample_clf (lit "bad")
              sample_clf_covers eq_refl) as [r Hr].
  split; [|split].
  - destruct (Hraise (ExternalError 1)) as (w' & Hrun & Hp & _);
      [vm_compute; reflexivity|].
    exists w'. split; [exact Hrun | exact Hp].
  - destruct (Hok r Hr)
      as (w' & doc & _ & _ & _ & _ & _ & _ & Hlevel & _
          & [(_ & Hrun & Hp) | (e & rest & oid & Hf & _)]); [|discriminate Hf].
    exists w', (with_id doc (List.length (predictions empty_world))).
    split; [exact Hrun|]. split; [exact Hp|].
    cbn [with_id d_toxicity_level]. rewrite Hlevel.
    revert Hr. vm_compute. intros [= <-]. reflexivity.
  - destruct (Hrefused r Hr)
      as (w' & doc & _ & _ & _ & _ & _ & _ & _ & _
          & [(Hf & _) | (e & rest & oid & Hf & Hrun & Hp)]); [discriminate Hf|].
    injection Hf as <- <-.
    exists w', (with_id doc oid).
    split; [exact Hrun|]. split; [exact Hp | discriminate].
Defined.

(* ------------------------------------------------------------------ *)
(** ** [predict_all_articles]: no article, and what is stored *)

Lemma batch_without_articles_aux
  (cfg : Config) (clf : ToxicityClassifier) (w : World) :
  articles w = [] ->
  predict_all_articles cfg clf w
  = (set_stdout w (stdout w ++ [PBanner; PNoArticles]), Ok tt).
Proof.
  intros Ha. unfold predict_all_articles.
  cbv [bind print modify gets]. cbn [articles set_stdout stdout].
  rewrite Ha. cbn. unfold set_stdout. cbn. now rewrite <- app_assoc.
Qed.

(** X11.  With no article in the collection, [predict_all_articles]
    prints the banner and the line saying so, and returns: no summary, no
    call of the classifier, nothing stored. *)
Theorem batch_without_articles
  (cfg : Config) (clf : ToxicityClassifier) (w : World) :
  articles w = [] ->
  predict_all_articles cfg clf w
  = (set_stdout w (stdout w ++ [PBanner; PNoArticles]), Ok tt).
Proof.
  intros Ha. unfold predict_all_articles.
  cbv [bind print modify gets]. cbn [articles set_stdout stdout].
  rewrite Ha. cbn. unfold set_stdout. cbn. now rewrite <- app_assoc.
Qed.

Lemma batch_without_articles_witness :
  articles sample_store = [] /\
  predict_all_articles default_config failing_clf sample_store
  = (set_stdout sample_store [PBanner; PNoArticles], Ok tt).
Proof.
  split; [reflexivity|].
  apply (batch_without_articles default_config failing_clf sample_store).
  reflexivity.
Defined.

(* ------------------------------------------------------------------ *)
(** ** What the batch stores *)

(** One turn of the loop leaves the predictions as they were or adds the
    document of the article. *)
Lemma body_predictions (cfg : Config) (clf : ToxicityClassifier) (total i : nat)
  (a : Article) (w w' : World) (stats stats' : dict Z) (res : result unit) :
  article_body cfg clf total (i, a) (w, stats) = ((w', stats'), res) ->
  predictions w' = predictions w \/
  exists d r,
    predictions w' = predictions w ++ [d] /\
    is_blank (content_of a) = false /\
    predict cfg clf (content_of a) = Ok r /\
    stored_as a r d.
Proof.
  run_body. destruct (is_blank (get_or_empty (a_content a))) eqn:Hb.
  - step_monad. destruct (dict_add stats (lit "processed") 1);
      intros [= <- _ _]; now left.
  - step_monad. destruct (predict cfg clf (get_or_empty (a_content a))) as [r|e] eqn:Hr;
      [|intros [= <- _ _]; now left].
    cbn [faults set_clock set_classifier_calls set_stdout].
    destruct (faults w) as [|[e|] rest] eqn:Hf;
      cbn [predictions set_faults set_predictions set_clock set_classifier_calls
           set_stdout clock stdout classifier_calls faults articles statistics];
      repeat match goal with
             | |- context [match dict_add ?d ?k ?n with _ => _ end] =>
                 destruct (dict_add d k n); cbn [fst snd]
             | |- context [if str_eqb ?x ?y then _ else _] =>
                 destruct (str_eqb x y); cbn [fst snd]
             end;
      intros [= <- _ _];
      cbn [predictions set_faults set_predictions set_clock set_classifier_calls
           set_stdout];
      first [ now left
            | right; eexists; exists r; split; [reflexivity|];
              split; [reflexivity|]; split; [reflexivity|];
              repeat split; discriminate ].
Qed.

Lemma stored_as_readable (cfg : Config) (clf : ToxicityClassifier)
  (a : Article) (r : Prediction) (d : PredictionDoc) :
  predict cfg clf (content_of a) = Ok r -> stored_as a r d -> readable d.
Proof.
  intros Hr ((_ & Hsite & _) & _ & _ & Hlevel & _). split.
  - rewrite Hsite. discriminate.
  - rewrite Hlevel.
    destruct (predict_score _ _ _ _ Hr) as (score & _ & _ & _ & ->).
    unfold levels. destruct (level_of_cases cfg score) as [-> | [-> | ->]];
      simpl; auto.
Qed.

(** What the loop stores when [predict] returns on every scored article. *)
Lemma loop_stores (cfg : Config) (clf : ToxicityClassifier) (total : nat)
  (l : list Article) :
  scorer_succeeds cfg clf l ->
  forall (k : nat) (w : World) (p s e t n sl v : Z),
  exists (w' : World) (stats' : dict Z) (new : list PredictionDoc),
    for_each (combine (seq k (List.length l)) l) (article_body cfg clf total)
      (w, mk_stats p s e t n sl v) = ((w', stats'), Ok tt) /\
    predictions w' = predictions w ++ new /\
    Forall (fun d => exists a r,
              In a l /\ is_blank (content_of a) = false /\
              predict cfg clf (content_of a) = Ok r /\ stored_as a r d) new.
Proof.
  induction 1 as [|a l Ha Hl IH]; intros k w p s e t n sl v.
  - exists w, (mk_stats p s e t n sl v), []. simpl. rewrite app_nil_r.
    repeat split. constructor.
  - simpl List.length. simpl seq. simpl combine. rewrite for_each_cons.
    destruct (body_returns cfg clf total k a w p s e t n sl v Ha)
      as (w1 & p1 & s1 & e1 & t1 & n1 & sl1 & v1 & out1 & Hbody & _ & _).
    rewrite Hbody.
    destruct (IH (S k) w1 p1 s1 e1 t1 n1 sl1 v1)
      as (w' & st' & new & Hrun & Hp & Hnew).
    assert (Forall (fun d => exists a0 r,
                      In a0 (a :: l) /\ is_blank (content_of a0) = false /\
                      predict cfg clf (content_of a0) = Ok r /\ stored_as a0 r d) new)
      as Hnew'.
    { eapply Forall_impl; [|exact Hnew].
      intros d (a0 & r & Hin & H). exists a0, r. split; [now right | exact H]. }
    destruct (body_predictions _ _ _ _ _ _ _ _ _ _ Hbody)
      as [Hsame | (d & r & Hadd & Hb & Hr & Hd)].
    + exists w', st', new. rewrite Hrun, Hp, Hsame. repeat split. exact Hnew'.
    + exists w', st', (d :: new). rewrite Hrun, Hp, Hadd, <- app_assoc.
      repeat split. constructor; [|exact Hnew'].
      exists a, r. repeat split; try assumption; try apply Hd. now left.
Qed.

(** X12.  When [predict] returns on every scored article, every
    prediction the batch adds to the store is the document of an article
    with content: it carries the url, the site and the title of the
    article, its identifier, the first 1000 characters of its content and
    the three answers [predict] gave on that content; so it has a site,
    one of the three levels, and a text of at most 1000 characters.  The
    predictions already in the store stay in front, untouched. *)
Theorem batch_stores_article_documents
  (cfg : Config) (clf : ToxicityClassifier) (w : World) :
  articles w <> [] ->
  scorer_succeeds cfg clf (articles w) ->
  exists (w' : World) (new : list PredictionDoc),
    predict_all_articles cfg clf w = (w', Ok tt) /\
    predictions w' = predictions w ++ new /\
    Forall (fun d =>
              (exists a r,
                 In a (articles w) /\ is_blank (content_of a) = false /\
                 predict cfg clf (content_of a) = Ok r /\ stored_as a r d) /\
              readable d /\ (List.length (d_text d) <= 1000)%nat) new.
Proof.
  intros Hne Hs. rewrite (batch_unfold cfg clf w Hne). rewrite loop_index.
  change initial_stats with (mk_stats 0 0 0 0 0 0 0).
  set (w0 := set_stdout w (stdout w ++ [PBanner; PTotal (List.length (articles w))])).
  destruct (loop_stores cfg clf (List.length (articles w)) (articles w) Hs
              1%nat w0 0 0 0 0 0 0 0) as (w1 & st & new & Hrun & Hp & Hnew).
  destruct (loop_completes cfg clf (List.length (articles w)) (articles w) Hs
              1%nat w0 0 0 0 0 0 0 0)
    as (w1' & new' & s' & e' & t' & n' & sl' & v' & out & Hrun' & _).
  rewrite Hrun in Hrun'. injection Hrun' as <- ->.
  rewrite Hrun. cbn [fst snd]. rewrite summary_run.
  eexists. exists new. split; [reflexivity|].
  cbn [predictions set_stdout]. split; [exact Hp|].
  eapply Forall_impl; [|exact Hnew].
  intros d (a & r & Hin & Hb & Hr & Hd). split; [eauto 6|].
  split; [eapply stored_as_readable; eauto|].
  destruct Hd as ((_ & _ & _ & -> & _) & _). apply firstn_le_length.
Qed.

Lemma three_articles_scored : scorer_succeeds default_config sample_clf three_articles.
Proof.
  unfold scorer_succeeds, three_articles.
  repeat apply Forall_cons; try apply Forall_nil; intros Hb;
    first [ vm_compute in Hb; discriminate Hb
          | eexists; vm_compute; reflexivity ].
Qed.

Lemma batch_stores_article_documents_witness :
  articles (world_of three_articles []) <> [] /\
  scorer_succeeds default_config sample_clf (articles (world_of three_articles [])) /\
  exists w' new,
    predict_all_articles default_config sample_clf (world_of three_articles [])
    = (w', Ok tt) /\
    predictions w' = new /\ List.length new = 2%nat /\
    Forall (fun d => readable d /\ (List.length (d_text d) <= 1000)%nat) new.
Proof.
  split; [discriminate|]. split; [apply three_articles_scored|].
  destruct (batch_stores_article_documents default_config sample_clf
              (world_of three_articles []))
    as (w' & new & Hrun & Hp & Hnew); [discriminate | apply three_articles_scored |].
  exists w', new. split; [exact Hrun|]. split; [exact Hp|]. split.
  - cbn [predictions world_of app] in Hp. rewrite <- Hp.
    revert Hrun. vm_compute. intros [= <-]. reflexivity.
  - eapply Forall_impl; [|exact Hnew]. intros d (_ & H). exact H.
Defined.

(* ------------------------------------------------------------------ *)
(** ** [main]: the batch, then the statistics *)

Lemma display_returns (w : World) :
  Forall readable (predictions w) ->
  exists w', display_statistics w = (w', Ok tt).
Proof.
  intros Hr.
  destruct (statistics_return w) as (w1 & stats & Hrun).
  - eapply Forall_impl; [|exact Hr]. intros d [_ H]. exact H.
  - eapply Forall_impl; [|exact Hr]. intros d [H _]. exact H.
  - destruct stats as [|s0 rest] eqn:E.
    + unfold display_statistics. unfold bind at 1. rewrite Hrun.
      cbv [print modify]. eauto.
    + destruct (display_run w w1 (s0 :: rest) Hrun) as (top & rest' & _ & Hd);
        [discriminate | eauto].
Qed.

(** X13.  The batch and the statistics compose: when every prediction
    already in the store has a site and one of the three levels and
    [predict] returns on every scored article, [main] returns, whatever the
    store answers to the insertions: the predictions the batch stores are
    ones [get_statistics_by_site] can read. *)
Theorem main_returns (cfg : Config) (clf : ToxicityClassifier) (w : World) :
  Forall readable (predictions w) ->
  scorer_succeeds cfg clf (articles w) ->
  exists w', main cfg clf w = (w', Ok tt).
Proof.
  intros Hold Hs. unfold main, bind.
  destruct (articles w) as [|a0 l0] eqn:Ha.
  - rewrite (batch_without_articles_aux cfg clf w Ha).
    apply display_returns. exact Hold.
  - assert (articles w <> []) as Hne by (rewrite Ha; discriminate).
    rewrite <- Ha in Hs.
    rewrite (batch_unfold cfg clf w Hne). rewrite loop_index.
    change initial_stats with (mk_stats 0 0 0 0 0 0 0).
    set (w0 := set_stdout w (stdout w ++ [PBanner; PTotal (List.length (articles w))])).
    destruct (loop_stores cfg clf (List.length (articles w)) (articles w) Hs
                1%nat w0 0 0 0 0 0 0 0) as (w1 & st & new & Hrun & Hp & Hnew).
    destruct (loop_completes cfg clf (List.length (articles w)) (articles w) Hs
                1%nat w0 0 0 0 0 0 0 0)
      as (w1' & new' & s' & e' & t' & n' & sl' & v' & out & Hrun' & _).
    rewrite Hrun in Hrun'. injection Hrun' as <- ->.
    rewrite Hrun. cbn [fst snd]. rewrite summary_run.
    apply display_returns. cbn [predictions set_stdout]. rewrite Hp.
    apply Forall_app. split; [exact Hold|].
    eapply Forall_impl; [|exact Hnew].
    intros d (a & r & _ & _ & Hr & Hd). eapply stored_as_readable; eauto.
Qed.

Lemma main_returns_witness :
  Forall readable (predictions (world_of three_articles [Some (ExternalError 2)])) /\
  scorer_succeeds default_config sample_clf
    (articles (world_of three_articles [Some (ExternalError 2)])) /\
  exists w',
    main default_config sample_clf (world_of three_articles [Some (ExternalError 2)])
    = (w', Ok tt).
Proof.
  split; [constructor|]. split; [apply three_articles_scored|].
  apply (main_returns default_config sample_clf
           (world_of three_articles [Some (ExternalError 2)]));
    [constructor | apply three_articles_scored].
Defined.
